(** * Rainfall frequency analysis: a shallow embedding of the numerical core

    The development follows the JavaScript sources
    [src/Frequency/RainUtils.js], [src/Frequency/FrequencyAnalysis.js],
    [src/Frequency/ChiSquareTest.js] and the Kolmogorov-Smirnov class
    [KSTest], and, of the application around them, [calculateStatistics]
    of [src/statistics.js], the class [FindReturnPeriod] and the
    return-period finder of [src/ui.js].

    - A JavaScript number is an IEEE 754 binary64 value: it is modelled by
      Rocq's primitive [float], whose [+], [-], [*], [/], [sqrt] and
      comparisons are the binary64 operations (round to nearest, ties to
      even).  Array lengths, loop counters, bin counters and table indices,
      which only ever hold small integers, are [nat] or [Z].
    - [Math.log], [Math.log10] and [Math.pow] are fixed by ECMAScript on
      their special cases and implementation-approximated elsewhere: the
      special cases are written out, the approximated part is a field of a
      [Host] record over which every definition is parametrised.
    - A [throw] is the [Thrown] constructor of [outcome].
    - Arrays are [list]s of their elements; module [Mem] puts them in a
      store to follow which array object each statement reads and writes. *)

From Stdlib Require Import String Ascii ZArith List Floats Lia Bool.
From Stdlib Require Import DecimalString QArith Permutation Sorted.
Import ListNotations.

Set Warnings "-inexact-float".

Local Open Scope float_scope.

(** ** JavaScript numbers *)

Module Number.

(** The number that holds the integer [z] (exact while |z| <= 2^53). *)
Definition of_Z (z : Z) : float :=
  match z with
  | Z0 => 0
  | Zpos _ => PrimFloat.of_uint63 (Uint63.of_Z z)
  | Zneg p => - PrimFloat.of_uint63 (Uint63.of_Z (Zpos p))
  end.

Definition of_nat (n : nat) : float := of_Z (Z.of_nat n).

(** The integer a number holds, when it holds one. *)
Definition to_Z (x : float) : option Z :=
  match Prim2SF x with
  | S754_zero _ => Some 0%Z
  | S754_finite s m e =>
      let v := if s then Zneg m else Zpos m in
      if (0 <=? e)%Z then Some (v * 2 ^ e)%Z
      else if (Zpos m mod 2 ^ (- e) =? 0)%Z then Some (v / 2 ^ (- e))%Z
      else None
  | _ => None
  end.

(** Global [isNaN], on a number. *)
Definition isNaN (x : float) : bool := negb (x =? x).

(** The decimal digits of an integer, with its sign. *)
Definition decimal (z : Z) : string := NilZero.string_of_int (Z.to_int z).

(** The binary64 number nearest to an integer (ties to even). *)
Definition nearest (z : Z) : spec_float := binary_normalize prec emax z 0 false.

(** ECMAScript Number::toString in radix 10 looks for integers n, k, s
    with k >= 1 as small as possible, 10^(k-1) <= s < 10^k and
    [s * 10^(n-k)] rounding to the number x.  [candidate] is one such
    triple for the positive number [x] of integer value [v], with its
    distance from [v]. *)
Definition candidate (x : spec_float) (v : Z) (k n s : Z) : option (Z * Z * Z) :=
  if ((k <=? n) && (10 ^ (k - 1) <=? s) && (s <? 10 ^ k))%Z
  then
    match SFcompare (nearest (s * 10 ^ (n - k))) x with
    | Some Eq => Some (Z.abs (s * 10 ^ (n - k) - v), n, s)
    | _ => None
    end
  else None.

(** The candidate closer to the number; the even [s] at equal distance. *)
Definition closer (a b : option (Z * Z * Z)) : option (Z * Z * Z) :=
  match a, b with
  | Some (da, na, sa), Some (db, nb, sb) =>
      if (da <? db)%Z then a
      else if (db <? da)%Z then b
      else if Z.even sa then a else b
  | Some _, None => a
  | None, _ => b
  end.

(** The best candidate with [k] digits: [s * 10^(n-k)] is next to [v],
    so n is the number of digits of [v] or one off. *)
Definition candidates (x : spec_float) (v : Z) (k : Z) : option (Z * Z * Z) :=
  let digits := Z.of_nat (String.length (decimal v)) in
  fold_left
    (fun best n =>
       let s := (v / 10 ^ (n - k))%Z in
       closer (closer best (candidate x v k n s)) (candidate x v k n (s + 1)))
    [(digits - 1)%Z; digits; (digits + 1)%Z] None.

(** The least k with a candidate; 17 digits identify every number. *)
Fixpoint shortest (x : spec_float) (v : Z) (fuel : nat) (k : Z) : option (Z * Z * Z) :=
  match fuel with
  | O => None
  | S fuel' =>
      match candidates x v k with
      | Some (_, n, s) => Some (n, k, s)
      | None => shortest x v fuel' (k + 1)
      end
  end.

(** The digits of the positive number [x] of integer value [v]: the
    digits of s and n - k zeros up to n = 21, the exponent form beyond. *)
Definition digitsOf (x : spec_float) (v : Z) : string :=
  match shortest x v 17 1 with
  | Some (n, k, s) =>
      if (n <=? 21)%Z
      then decimal s ++ String.concat EmptyString (repeat "0"%string (Z.to_nat (n - k)))
      else
        let digits := decimal s in
        let mantissa :=
          if (k =? 1)%Z then digits
          else String.substring 0 1 digits ++ "."
               ++ String.substring 1 (Z.to_nat k - 1) digits in
        mantissa ++ "e+" ++ decimal (n - 1)
  | None => decimal v
  end%string.

(** [z.toString()] and the [${z}] of a template literal for the number
    that holds the integer [z], which is the number nearest to [z] when
    [z] is beyond 2^53: decimal digits below 10^21, the exponent form from
    there on. *)
Definition toString (z : Z) : string :=
  match nearest (Z.abs z) with
  | S754_finite _ m e =>
      let v := if (0 <=? e)%Z then (Zpos m * 2 ^ e)%Z else (Zpos m / 2 ^ (- e))%Z in
      ((if (z <? 0)%Z then "-" else EmptyString) ++ digitsOf (nearest (Z.abs z)) v)%string
  | S754_infinity _ => if (z <? 0)%Z then "-Infinity"%string else "Infinity"%string
  | _ => "0"%string
  end.

End Number.

(** ** The host's [Math] object *)

(** The implementation-approximated part of [Math.log], [Math.log10] and
    [Math.pow], and [Number.prototype.toFixed]. *)
Record Host : Type := {
  log_approx : float -> float;
  log10_approx : float -> float;
  pow_approx : float -> float -> float;
  toFixed : float -> nat -> string
}.

Module Math.

Definition isPositiveZero (x : float) : bool :=
  match PrimFloat.classify x with PZero => true | _ => false end.

Definition isNegativeZero (x : float) : bool :=
  match PrimFloat.classify x with NZero => true | _ => false end.

(** ECMAScript [Math.max(...values)]: [highest] starts at -Infinity; a NaN
    argument gives NaN; +0 is above -0. *)
Fixpoint max_from (highest : float) (values : list float) : float :=
  match values with
  | [] => highest
  | number :: rest =>
      if Number.isNaN number then nan
      else
        let highest :=
          if isPositiveZero number && isNegativeZero highest then 0 else highest in
        let highest := if highest <? number then number else highest in
        max_from highest rest
  end.

Definition max (values : list float) : float := max_from neg_infinity values.

(** ECMAScript [Math.min(...values)]: [lowest] starts at +Infinity; a NaN
    argument gives NaN; -0 is below +0. *)
Fixpoint min_from (lowest : float) (values : list float) : float :=
  match values with
  | [] => lowest
  | number :: rest =>
      if Number.isNaN number then nan
      else
        let lowest :=
          if isNegativeZero number && isPositiveZero lowest then -0 else lowest in
        let lowest := if number <? lowest then number else lowest in
        min_from lowest rest
  end.

Definition min (values : list float) : float := min_from infinity values.

Section WithHost.
Variable host : Host.

(** ECMAScript [Math.log]: NaN and +Infinity are returned unchanged,
    1 gives +0, a zero gives -Infinity, a negative number gives NaN. *)
Definition log (x : float) : float :=
  if Number.isNaN x then x
  else if x =? infinity then x
  else if x =? 1 then 0
  else if x =? 0 then neg_infinity
  else if x <? 0 then nan
  else log_approx host x.

(** ECMAScript [Math.log10]: the same special cases. *)
Definition log10 (x : float) : float :=
  if Number.isNaN x then x
  else if x =? infinity then x
  else if x =? 1 then 0
  else if x =? 0 then neg_infinity
  else if x <? 0 then nan
  else log10_approx host x.

(** ECMAScript [Math.pow] (Number::exponentiate): a NaN exponent gives
    NaN, a zero exponent gives 1, a NaN base gives NaN, and +0 raised to
    a positive (negative) exponent is +0 (+Infinity).  The remaining
    cases are left to the host. *)
Definition pow (base exponent : float) : float :=
  if Number.isNaN exponent then nan
  else if exponent =? 0 then 1
  else if Number.isNaN base then nan
  else
    match PrimFloat.classify base with
    | PZero => if 0 <? exponent then 0 else infinity
    | _ => pow_approx host base exponent
    end.

(** [Math.sqrt] is the IEEE 754 square root. *)
Definition sqrt (x : float) : float := PrimFloat.sqrt x.

(** [Math.round]: the nearest integer, ties towards +Infinity.  Numbers
    with a non-negative binary exponent are integers already. *)
Definition round (x : float) : float :=
  match Prim2SF x with
  | S754_finite s m e =>
      if (0 <=? e)%Z then x
      else
        let v := if s then Zneg m else Zpos m in
        let r := ((2 * v + 2 ^ (- e)) / 2 ^ (1 - e))%Z in
        if (r =? 0)%Z then (if s then -0 else 0) else Number.of_Z r
  | _ => x
  end.

End WithHost.
End Math.

(** ** Thrown errors *)

Inductive outcome (A : Type) : Type :=
| Returned (a : A)
| Thrown (message : string).
Arguments Returned {A} a.
Arguments Thrown {A} message.

Definition bind {A B : Type} (c : outcome A) (k : A -> outcome B) : outcome B :=
  match c with
  | Returned a => k a
  | Thrown m => Thrown m
  end.

Notation "x <- c ;; k" := (bind c (fun x => k))
  (at level 61, c at next level, right associativity).

(** ** Arrays of numbers *)

Module Array.

(** [arr[i]]; an index outside the array reads [undefined], which every
    arithmetic operator and comparison converts to NaN. *)
Definition get (arr : list float) (i : nat) : float := nth i arr nan.

(** [arr[i] = v] for a non-negative index: in place inside the array,
    extending it otherwise (the cells in between are holes). *)
Definition set {A : Type} (hole : A) (arr : list A) (i : nat) (v : A) : list A :=
  if (i <? length arr)%nat
  then firstn i arr ++ v :: skipn (S i) arr
  else arr ++ repeat hole (i - length arr) ++ [v].

(** [arr.sort(compare)] on the elements: a stable insertion sort; [a] is
    placed after [b] when [compare(a, b) > 0].  ECMAScript fixes the
    result whenever the comparator is consistent, which [a - b] and
    [b - a] are on arrays without NaN. *)
Fixpoint insert (compare : float -> float -> float) (a : float) (l : list float)
  : list float :=
  match l with
  | [] => [a]
  | b :: l' => if 0 <? compare a b then b :: insert compare a l' else a :: l
  end.

Definition sorted_by (compare : float -> float -> float) (arr : list float)
  : list float :=
  fold_right (insert compare) [] arr.

End Array.

(** [String(str).padStart(len, ' ')], on strings of one-unit characters
    (the digits, signs and letters that [toFixed] prints). *)
Definition padStart (str : string) (len : nat) : string :=
  String.concat EmptyString (repeat " "%string (len - String.length str)) ++ str.

(** ** RainUtils.js *)

Module RainUtils.

Record Stats : Type := {
  Xmin : float; Xmax : float; M : float; SD : float; Cv : float; Cs : float
}.

Section WithHost.
Variable host : Host.

(** [sort(arr)]: [arr.slice().sort((a, b) => a - b)]. *)
Definition sort (arr : list float) : list float :=
  Array.sorted_by (fun a b => a - b) arr.

(** The [for (const val of X)] loop of [statistics]. *)
Definition sumDiffs (mean : float) (X : list float) : float * float :=
  fold_left
    (fun '(sumSqDiff, sumCubeDiff) val =>
       (sumSqDiff + Math.pow host (val - mean) 2,
        sumCubeDiff + Math.pow host (val - mean) 3))
    X (0, 0).

(** The body of [statistics] for a non-empty [X]; [sortedX] is the array
    that [this.sort(X)] returns. *)
Definition summary (X sortedX : list float) : Stats :=
  let n := length X in
  let nf := Number.of_nat n in
  let sum := fold_left (fun acc val => acc + val) X 0 in
  let mean := sum / nf in
  let '(sumSqDiff, sumCubeDiff) := sumDiffs mean X in
  let variance := if (1 <? n)%nat then sumSqDiff / (nf - 1) else 0 in
  let stdDev := Math.sqrt variance in
  let M2 := sumSqDiff / nf in
  let M3 := sumCubeDiff / nf in
  let skewness :=
    if (2 <? n)%nat && (0 <? M2)
    then (Math.sqrt (nf * (nf - 1)) / (nf - 2)) * (M3 / Math.pow host M2 1.5)
    else 0 in
  let min := Array.get sortedX 0 in
  let max := Array.get sortedX (n - 1) in
  {| Xmin := min; Xmax := max; M := mean; SD := stdDev;
     Cv := if mean =? 0 then 0 else stdDev / mean;
     Cs := skewness |}.

Definition emptySummary : Stats :=
  {| Xmin := 0; Xmax := 0; M := 0; SD := 0; Cv := 0; Cs := 0 |}.

Definition statistics (X : list float) : Stats :=
  let n := length X in
  if (n =? 0)%nat then emptySummary
  else
    let sortedX := sort X in
    summary X sortedX.

(** The branch of [Look] for p > 0.5: Abramowitz and Stegun 26.2.23. *)
Definition Look_upper (p : float) : float :=
  let t := Math.sqrt (-2.0 * Math.log host (1.0 - p)) in
  let c0 := 2.515517 in
  let c1 := 0.802853 in
  let c2 := 0.010328 in
  let d1 := 1.432788 in
  let d2 := 0.189269 in
  let d3 := 0.001308 in
  let numerator := c0 + c1 * t + c2 * t * t in
  let denominator := 1 + d1 * t + d2 * t * t + d3 * t * t * t in
  t - numerator / denominator.

(** [Look(p)] calls itself on [1 - p] when [p < 0.5].  [depth] bounds the
    nesting of calls; [None] is an exhausted call stack. *)
Fixpoint Look_depth (depth : nat) (p : float) : option float :=
  match depth with
  | O => None
  | S depth' =>
      if (p <=? 0) || (1 <=? p) then Some nan
      else if p =? 0.5 then Some 0
      else if p <? 0.5 then option_map PrimFloat.opp (Look_depth depth' (1 - p))
      else Some (Look_upper p)
  end.

(** Two levels always suffice ([Look_depth_enough] below). *)
Definition Look (p : float) : float :=
  match Look_depth 2 p with
  | Some z => z
  | None => nan
  end.

(** [Extreme(px)]: the Gumbel reduced variate. *)
Definition Extreme (px : float) : float :=
  let Fx := 1 - px in
  - Math.log host (- Math.log host Fx).

End WithHost.
End RainUtils.

(** ** Loops and the distribution codes *)

(** [for (let i = 1; i <= n; i++) body] is [for_each body (seq 1 n) s]:
    the loop state is threaded through the iterations and a [throw] in the
    body leaves the loop. *)
Fixpoint for_each {S : Type} (body : nat -> S -> outcome S) (indices : list nat) (s : S)
  : outcome S :=
  match indices with
  | [] => Returned s
  | i :: rest => s' <- body i s ;; for_each body rest s'
  end.

(** The frozen object [DistributionType] of the three classes. *)
Module DistributionType.
Definition Normal : Z := 1.
Definition LogNormal : Z := 2.
Definition PearsonType3 : Z := 3.
Definition LogPearsonType3 : Z := 4.
Definition ExtremeValueType1 : Z := 5.
End DistributionType.

(** [distType === LogNormal || distType === LogPearsonType3]. *)
Definition requiresLog (distType : Z) : bool :=
  (distType =? DistributionType.LogNormal)%Z
  || (distType =? DistributionType.LogPearsonType3)%Z.

(** [val => (val > 1e-6 ? Math.log10(val) : 0)]. *)
Definition logOrZero (host : Host) (val : float) : float :=
  if 1e-6 <? val then Math.log10 host val else 0.

(** ** FrequencyAnalysis.js *)

Module FrequencyAnalysis.

Record FreqResult : Type := { Kt : float; Qest : float }.

Section WithHost.
Variable host : Host.

Definition _calculateNormal (mean std z : float) : FreqResult :=
  let Kt := z in
  let Qest := mean + Kt * std in
  {| Kt := Kt; Qest := Qest |}.

Definition _calculateLogNormal (mean std z : float) : FreqResult :=
  let r := _calculateNormal mean std z in
  let logQest := Qest r in
  {| Kt := Kt r; Qest := Math.pow host 10 logQest |}.

Definition _calculatePearsonType3 (mean std cs z tau : float) : FreqResult :=
  let k := cs / 6.0 in
  let z2 := z * z in
  let k2 := k * k in
  let Kt := z + (z2 - 1.0) * k + (z * (z2 - 6.0)) * k2 / 3.0
            - (z2 - 1.0) * k2 * k + z * k2 * k2 + k2 * k2 * k / 3.0 in
  let Qest := mean + std * Kt + tau in
  {| Kt := Kt; Qest := Qest |}.

Definition _calculateLogPearsonType3 (mean std cs z tau : float) : FreqResult :=
  let r := _calculatePearsonType3 mean std cs z tau in
  let logQest := Qest r in
  {| Kt := Kt r; Qest := Math.pow host 10 logQest |}.

Definition _calculateExtremeValueType1 (mean std px : float) : FreqResult :=
  let alpha := 0.7797 * std in
  let mode := mean - 0.5772 * alpha in
  let Kt := RainUtils.Extreme host px in
  let Qest := mode + alpha * Kt in
  {| Kt := Kt; Qest := Qest |}.

(** Steps 3 of [freq]: from the statistics to the result. *)
Definition estimate (distType : Z) (stats : RainUtils.Stats) (T : float)
  : outcome FreqResult :=
  let mean := RainUtils.M stats in
  let std := RainUtils.SD stats in
  let cs := RainUtils.Cs stats in
  let tau := 0 in
  let px := 1.0 / T in
  let z := RainUtils.Look host (1 - px) in
  if (distType =? DistributionType.Normal)%Z then
    Returned (_calculateNormal mean std z)
  else if (distType =? DistributionType.LogNormal)%Z then
    Returned (_calculateLogNormal mean std z)
  else if (distType =? DistributionType.PearsonType3)%Z then
    Returned (_calculatePearsonType3 mean std cs z tau)
  else if (distType =? DistributionType.LogPearsonType3)%Z then
    Returned (_calculateLogPearsonType3 mean std cs z tau)
  else if (distType =? DistributionType.ExtremeValueType1)%Z then
    Returned (_calculateExtremeValueType1 mean std px)
  else
    Thrown ("不支援的分佈型態: " ++ Number.toString distType).

Definition freq (distType : Z) (y : list float) (T : float) : outcome FreqResult :=
  let x := if requiresLog distType then map (logOrZero host) y else y in
  let stats := RainUtils.statistics host x in
  estimate distType stats T.

End WithHost.
End FrequencyAnalysis.

(** ** ChiSquareTest.js *)

Module ChiSquareTest.

Definition menudr : list string :=
  ["Normal Distribution"; "Log-Normal Distribution"; "Pearson Type III Distribution";
   "Log-Pearson Type III Distribution"; "Extreme Value Type I Distribution"]%string.

Definition ConfidenceLevelString : list string :=
  ["85%"; "90%"; "95%"; "97.5%"; "99%"]%string.

(** Rows: degrees of freedom 1..20; columns: confidence level index 0..4. *)
Definition Chi2Table : list (list float) :=
  [ [1.320; 2.706; 3.841; 5.020; 6.630]; [2.775; 4.605; 5.991; 7.380; 9.210];
    [4.111; 6.251; 7.815; 9.350; 11.300]; [5.390; 7.779; 9.488; 11.100; 13.300];
    [6.630; 9.236; 11.070; 12.800; 15.100]; [7.840; 10.645; 12.592; 14.400; 16.800];
    [9.040; 12.017; 14.067; 16.000; 18.500]; [10.202; 13.362; 15.507; 17.500; 20.100];
    [11.400; 14.684; 16.919; 19.000; 21.700]; [12.500; 15.987; 18.307; 20.500; 23.200];
    [13.700; 17.275; 19.675; 21.900; 24.700]; [14.800; 18.549; 21.026; 23.300; 26.200];
    [16.000; 19.812; 22.362; 24.700; 27.700]; [17.100; 21.064; 23.685; 26.100; 29.100];
    [18.200; 22.307; 24.996; 27.500; 30.600]; [19.400; 23.542; 26.296; 28.800; 32.000];
    [20.500; 24.769; 27.587; 30.200; 33.400]; [21.600; 25.989; 28.869; 31.500; 34.800];
    [22.700; 27.204; 30.144; 32.900; 36.200]; [23.800; 28.412; 31.410; 34.200; 37.600] ].

(** [table[row][column]]; [None] is [undefined]. *)
Definition lookup {A : Type} (table : list A) (i : Z) : option A :=
  if (i <? 0)%Z then None else nth_error table (Z.to_nat i).

Definition Chi2Table_at (row column : Z) : option float :=
  match lookup Chi2Table row with
  | Some r => lookup r column
  | None => None
  end.

(** The result object of [_createChi2Results]; the arrays are 1-based
    (cell 0 is allocated and never used), [o] holds the bin counters. *)
Record Chi2Results : Type := {
  lo : list float;
  hi : list float;
  o : list nat;
  e : list float;
  ObsChi2Value : float;
  EstChi2Value : float;
  fitted : bool;
  Conclusion : string;
  ConfidenceLevel : option string
}.

(** What [chi2Test] returns: the three-field object of the invalid-index
    path, or the full result object. *)
Inductive Chi2Report : Type :=
| InvalidIndex (ConfidenceLevel Conclusion : string) (fitted : bool)
| Tested (results : Chi2Results).

Definition report_fitted (r : Chi2Report) : bool :=
  match r with
  | InvalidIndex _ _ f => f
  | Tested results => fitted results
  end.

Definition with_lo (r : Chi2Results) (v : list float) : Chi2Results :=
  {| lo := v; hi := hi r; o := o r; e := e r; ObsChi2Value := ObsChi2Value r;
     EstChi2Value := EstChi2Value r; fitted := fitted r; Conclusion := Conclusion r;
     ConfidenceLevel := ConfidenceLevel r |}.
Definition with_hi (r : Chi2Results) (v : list float) : Chi2Results :=
  {| lo := lo r; hi := v; o := o r; e := e r; ObsChi2Value := ObsChi2Value r;
     EstChi2Value := EstChi2Value r; fitted := fitted r; Conclusion := Conclusion r;
     ConfidenceLevel := ConfidenceLevel r |}.
Definition with_o (r : Chi2Results) (v : list nat) : Chi2Results :=
  {| lo := lo r; hi := hi r; o := v; e := e r; ObsChi2Value := ObsChi2Value r;
     EstChi2Value := EstChi2Value r; fitted := fitted r; Conclusion := Conclusion r;
     ConfidenceLevel := ConfidenceLevel r |}.
Definition with_e (r : Chi2Results) (v : list float) : Chi2Results :=
  {| lo := lo r; hi := hi r; o := o r; e := v; ObsChi2Value := ObsChi2Value r;
     EstChi2Value := EstChi2Value r; fitted := fitted r; Conclusion := Conclusion r;
     ConfidenceLevel := ConfidenceLevel r |}.

(** [arr[i] = v] with an index that may be negative: a negative index
    names a property, not a cell, and leaves the cells as they are. *)
Definition set_at (arr : list float) (i : Z) (v : float) : list float :=
  if (i <? 0)%Z then arr else Array.set nan arr (Z.to_nat i) v.

(** [results.o[i]++]. *)
Definition increment (o : list nat) (i : nat) : list nat :=
  Array.set 0%nat o i (S (nth i o 0%nat)).

Definition string_of_bool (b : bool) : string := if b then "true" else "false".

Definition newline : string := String (ascii_of_nat 10) EmptyString.

Section WithHost.
Variable host : Host.

(** [new Array(size)] throws a RangeError unless [size] is an integer in
    [0, 2^32 - 1]. *)
Definition _createChi2Results (intervalCount : Z) : outcome Chi2Results :=
  let size := (intervalCount + 1)%Z in
  if (size <? 0)%Z || (2 ^ 32 <=? size)%Z then Thrown "Invalid array length"
  else
    let cells := Z.to_nat size in
    Returned {| lo := repeat 0 cells; hi := repeat 0 cells;
                o := repeat 0%nat cells; e := repeat 0 cells;
                ObsChi2Value := 0; EstChi2Value := 0; fitted := false;
                Conclusion := EmptyString; ConfidenceLevel := Some EmptyString |}.

Definition _getPearson3Kt (z skew : float) : float :=
  let k := skew / 6.0 in
  let z2 := z * z in
  let k2 := k * k in
  z + (z2 - 1) * k + (1 / 3) * z * (z2 - 6) * k2 - (z2 - 1) * k2 * k
  + z * k2 * k2 + (1 / 3) * k2 * k2 * k.

(** The inner [for (const value of data)] loop of [_countFrequencies]. *)
Definition countBin (data : list float) (i : nat) (results : Chi2Results)
  : Chi2Results :=
  fold_left
    (fun results value =>
       if (Array.get (lo results) i <? value) && (value <? Array.get (hi results) i)
       then with_o results (increment (o results) i)
       else results)
    data results.

Definition _countFrequencies (data : list float) (results : Chi2Results)
  (intervalCount : Z) : Chi2Results :=
  fold_left (fun results i => countBin data i results)
    (seq 1 (Z.to_nat intervalCount)) results.

(** The [switch] of [_divideIntoBins]: the upper edge of bin [i]. *)
Definition upperEdge (distType : Z) (mean std skew : float)
  (cumulativeProb exceedanceProb : float) : float :=
  if (distType =? DistributionType.Normal)%Z
     || (distType =? DistributionType.LogNormal)%Z then
    let z := RainUtils.Look host cumulativeProb in
    mean + std * z
  else if (distType =? DistributionType.PearsonType3)%Z
          || (distType =? DistributionType.LogPearsonType3)%Z then
    let z := RainUtils.Look host cumulativeProb in
    let kt := _getPearson3Kt z skew in
    mean + std * kt
  else if (distType =? DistributionType.ExtremeValueType1)%Z then
    let alpha := 0.7797 * std in
    let mode := mean - 0.5772 * alpha in
    let kt := RainUtils.Extreme host exceedanceProb in
    mode + alpha * kt
  else 0.

(** The body of the [for] loop of [_divideIntoBins]. *)
Definition edgeStep (distType : Z) (intervalCount : Z) (mean std skew : float)
  (results : Chi2Results) (i : nat) : Chi2Results :=
  let cumulativeProb := Number.of_nat i / Number.of_Z intervalCount in
  let exceedanceProb := 1 - cumulativeProb in
  let results :=
    if (Z.of_nat i <? intervalCount)%Z
    then with_hi results
           (Array.set nan (hi results) i
              (upperEdge distType mean std skew cumulativeProb exceedanceProb))
    else results in
  if (1 <? i)%nat
  then with_lo results (Array.set nan (lo results) i (Array.get (hi results) (i - 1)))
  else results.

(** [_divideIntoBins] from the statistics on: the edges, then the counts. *)
Definition fillBins (transformedData : list float) (stats : RainUtils.Stats)
  (intervalCount : Z) (distType : Z) : outcome Chi2Results :=
  let mean := RainUtils.M stats in
  let std := RainUtils.SD stats in
  let skew := RainUtils.Cs stats in
  let low := RainUtils.Xmin stats in
  let high := RainUtils.Xmax stats in
  results <- _createChi2Results intervalCount ;;
  let results := with_lo results (Array.set nan (lo results) 1 (low - 2.0)) in
  let results :=
    fold_left (edgeStep distType intervalCount mean std skew)
      (seq 1 (Z.to_nat intervalCount)) results in
  let results := with_hi results (set_at (hi results) intervalCount (high + 2.0)) in
  Returned (_countFrequencies transformedData results intervalCount).

Definition _divideIntoBins (data : list float) (intervalCount : Z) (distType : Z)
  : outcome Chi2Results :=
  let transformedData :=
    if requiresLog distType then map (logOrZero host) data else data in
  let stats := RainUtils.statistics host transformedData in
  fillBins transformedData stats intervalCount distType.

(** The body of the [for] loop of [_calculateChiSquare]; the state is the
    result object and [chi2Stat]. *)
Definition expectedStep (n : nat) (intervalCount : Z) (state : Chi2Results * float)
  (i : nat) : Chi2Results * float :=
  let '(results, chi2Stat) := state in
  let results :=
    with_e results
      (Array.set nan (e results) i (Number.of_nat n / Number.of_Z intervalCount)) in
  let temp :=
    Math.pow host (Number.of_nat (nth i (o results) 0%nat) - Array.get (e results) i) 2
    / Array.get (e results) i in
  (results, chi2Stat + temp).

(** The [switch] of [_calculateChiSquare] followed by [Math.max(1, df)]. *)
Definition degreesOfFreedom (distType : Z) (intervalCount : Z) : Z :=
  let df :=
    if (distType =? DistributionType.ExtremeValueType1)%Z then (intervalCount - 3)%Z
    else if (distType =? DistributionType.LogPearsonType3)%Z then (intervalCount - 4)%Z
    else if (distType =? DistributionType.Normal)%Z
            || (distType =? DistributionType.LogNormal)%Z then (intervalCount - 3)%Z
    else if (distType =? DistributionType.PearsonType3)%Z then (intervalCount - 4)%Z
    else 1%Z in
  Z.max 1 df.

(** [(df > 0 && df <= Chi2Table.length) ? Chi2Table[df - 1][confidenceIndex]
    : Infinity]; [None] is [undefined]. *)
Definition criticalValueOf (df confidenceIndex : Z) : option float :=
  if (0 <? df)%Z && (df <=? Z.of_nat (length Chi2Table))%Z
  then Chi2Table_at (df - 1) confidenceIndex
  else Some infinity.

(** [_calculateChiSquare] after [_divideIntoBins]; [n] is [data.length]. *)
Definition evaluate (n : nat) (intervalCount : Z) (confidenceIndex : Z)
  (distType : Z) (results : Chi2Results) : outcome Chi2Results :=
  let '(results, chi2Stat) :=
    fold_left (expectedStep n intervalCount)
      (seq 1 (Z.to_nat intervalCount)) (results, 0) in
  let df := degreesOfFreedom distType intervalCount in
  let level := lookup ConfidenceLevelString confidenceIndex in
  match criticalValueOf df confidenceIndex with
  | None => Thrown "Cannot read properties of undefined (reading 'toFixed')"
  | Some criticalValue =>
      let isFitted := chi2Stat <? criticalValue in
      Returned
        {| lo := lo results; hi := hi results; o := o results; e := e results;
           ObsChi2Value := chi2Stat;
           EstChi2Value := criticalValue;
           fitted := isFitted;
           Conclusion :=
             "Critical Chi-square value at "
             ++ match level with Some s => s | None => "undefined" end
             ++ " confidence = " ++ toFixed host criticalValue 3 ++ newline
             ++ "Fitted? " ++ string_of_bool isFitted;
           ConfidenceLevel := level |}
  end.

Definition _calculateChiSquare (data : list float) (intervalCount : Z)
  (confidenceIndex : Z) (distType : Z) : outcome Chi2Results :=
  results <- _divideIntoBins data intervalCount distType ;;
  let n := length data in
  evaluate n intervalCount confidenceIndex distType results.

(** Sturges' formula: [1 + Math.round(3.3 * Math.log10(data.length))]. *)
Definition sturges (n : nat) : float :=
  1 + Math.round (3.3 * Math.log10 host (Number.of_nat n)).

Definition chi2Test (distType : Z) (data : list float) (confidenceIndex : Z)
  : outcome Chi2Report :=
  if (confidenceIndex <? 0)%Z
     || (Z.of_nat (length ConfidenceLevelString) <=? confidenceIndex)%Z
  then
    Returned
      (InvalidIndex
         (Number.toString confidenceIndex)
         ("Confidence index is invalid! Must be between [0, "
          ++ Number.toString (Z.of_nat (length ConfidenceLevelString) - 1) ++ "]")
         false)
  else
    let sortedData := RainUtils.sort data in
    let intervalCount := sturges (length data) in
    match Number.to_Z intervalCount with
    | Some k =>
        results <- _calculateChiSquare sortedData k confidenceIndex distType ;;
        Returned (Tested results)
    | None => Thrown "Invalid array length"
    end.

(** The properties of the object that [getResultsAsString] reads; the
    three-field object of the invalid-index path has none of them. *)
Definition array_of {A : Type} (field : Chi2Results -> A) (results : Chi2Report)
  : option A :=
  match results with
  | InvalidIndex _ _ _ => None
  | Tested r => Some (field r)
  end.

Definition typeError : string := "Cannot read properties of undefined".

(** [results.arr[i]]: a TypeError when [results.arr] is [undefined];
    [None] is a cell that is [undefined]. *)
Definition cell {A : Type} (arr : option (list A)) (i : nat) : outcome (option A) :=
  match arr with
  | Some elements => Returned (nth_error elements i)
  | None => Thrown typeError
  end.

(** [value.toFixed(digits)]: a TypeError on [undefined]. *)
Definition fixed (value : option float) (digits : nat) : outcome string :=
  match value with
  | Some x => Returned (toFixed host x digits)
  | None => Thrown typeError
  end.

(** A cell in an arithmetic expression: [undefined] converts to NaN. *)
Definition numberOf (value : option float) : float :=
  match value with Some x => x | None => nan end.

Definition rule : string :=
  ("--------------------------------------------------------" ++ newline)%string.

(** The body of the [for] loop of [getResultsAsString]: the row of bin [i]
    appended to [s]. *)
Definition reportRow (results : Chi2Report) (intervalCount : Z) (i : nat) (s : string)
  : outcome string :=
  let lo_i := fun _ : unit => l <- cell (array_of lo results) i ;; fixed l 2 in
  let hi_i := fun _ : unit => h <- cell (array_of hi results) i ;; fixed h 2 in
  classStr <-
    (if (i =? 1)%nat then
       h <- hi_i tt ;; Returned ("           <  " ++ padStart h 8)%string
     else if (Z.of_nat i =? intervalCount)%Z then
       l <- lo_i tt ;; Returned (padStart l 8 ++ "    <         ")%string
     else
       l <- lo_i tt ;; h <- hi_i tt ;;
       Returned (padStart l 8 ++ " - " ++ padStart h 8)%string) ;;
  o_i <- cell (array_of o results) i ;;
  let o_i := option_map Number.of_nat o_i in
  e_i <- cell (array_of e results) i ;;
  let temp := Math.pow host (numberOf o_i - numberOf e_i) 2 / numberOf e_i in
  observed <- fixed o_i 1 ;;
  expected <- fixed e_i 1 ;;
  Returned (s ++ padStart classStr 25 ++ " " ++ padStart observed 7 ++ " "
              ++ padStart expected 7 ++ " " ++ padStart (toFixed host temp 3) 10
              ++ newline)%string.

(** The [try] block of [getResultsAsString]. *)
Definition report (results : Chi2Report) (distType : Z) (intervalCount : Z)
  : outcome string :=
  let name :=
    match lookup menudr (distType - 1) with Some s => s | None => "undefined"%string end in
  let s := ("CHI-SQUARE TEST" ++ newline)%string in
  let s := (s ++ "Ho: The series is " ++ name ++ "." ++ newline)%string in
  let s := (s ++ "H1: The series is not " ++ name ++ "." ++ newline)%string in
  let s :=
    (s ++ "              Class             O.     E.   (O-E)^2/E" ++ newline)%string in
  let s := (s ++ rule)%string in
  s <- for_each (reportRow results intervalCount) (seq 1 (Z.to_nat intervalCount)) s ;;
  let s := (s ++ rule)%string in
  observed <- fixed (array_of ObsChi2Value results) 3 ;;
  let s := (s ++ "Observed Chi2 value = " ++ observed ++ newline)%string in
  let level :=
    match array_of ConfidenceLevel results with
    | Some (Some level) => level
    | _ => "undefined"%string
    end in
  critical <- fixed (array_of EstChi2Value results) 3 ;;
  let s :=
    (s ++ "Critical Chi2 value (" ++ level ++ ") = " ++ critical ++ newline)%string in
  let isFitted :=
    match results with
    | InvalidIndex _ _ f => f
    | Tested r => fitted r
    end in
  let s := (s ++ "* Goodness of fit: " ++ string_of_bool isFitted ++ newline)%string in
  Returned s.

Definition reportFailure : string :=
  "An error occurred while generating the report. Please check the console for details.".

(** [getResultsAsString(results, distType, intervalCount)]: the [catch]
    clause turns every error of the [try] block into one message. *)
Definition getResultsAsString (results : Chi2Report) (distType : Z) (intervalCount : Z)
  : string :=
  match report results distType intervalCount with
  | Returned s => s
  | Thrown _ => reportFailure
  end.

End WithHost.
End ChiSquareTest.

(** ** KSTest *)

Module KSTest.

(** Critical coefficients for 85%, 90%, 95%, 97.5% and 99%. *)
Definition KSalpha : list float := [0.775; 0.819; 0.895; 0.995; 1.035].

(** The fields of a [KSTest] object that [runTest] reads. *)
Record KSTest : Type := { confidenceLevelIndex : Z; alpha : float }.

(** [constructor(confidenceLevelIndex = 2)]; [None] is an omitted
    argument. *)
Definition constructor (argument : option Z) : outcome KSTest :=
  let confidenceLevelIndex := match argument with Some i => i | None => 2%Z end in
  if (confidenceLevelIndex <? 0)%Z
     || (Z.of_nat (length KSalpha) <=? confidenceLevelIndex)%Z
  then Thrown "Invalid confidenceLevelIndex."
  else Returned {| confidenceLevelIndex := confidenceLevelIndex;
                   alpha := Array.get KSalpha (Z.to_nat confidenceLevelIndex) |}.

Record KSResult : Type := {
  obs : list float;
  est : list float;
  lowerBound : list float;
  upperBound : list float;
  mark : list string;
  prob : list float;
  Ca : float;
  fitted : bool
}.

(** [sortDescending(data)]: [[...data].sort((a, b) => b - a)]. *)
Definition sortDescending (data : list float) : list float :=
  Array.sorted_by (fun a b => b - a) data.

Definition _plottingPosition (method : Z) (rank n : float) : float :=
  let b :=
    if (method =? 1)%Z then 0.5
    else if (method =? 2)%Z then 0.3
    else if (method =? 3)%Z then 0.0
    else if (method =? 4)%Z then 3.0 / 8.0
    else if (method =? 5)%Z then 1.0 / 3.0
    else if (method =? 6)%Z then 0.44
    else 0 in
  (rank - b) / (n + 1.0 - 2.0 * b).

(** [if (!isNaN(kt)) z = value] over [let z = NaN]. *)
Definition unlessNaN (kt value : float) : float :=
  if negb (Number.isNaN kt) then value else nan.

(** The marking of one observation: the new mark and whether [fitted] is
    set to [false]. *)
Definition markOf (observedValue zLow zHigh : float) : string * bool :=
  let '(currentMark, violated) := ("G"%string, false) in
  let '(currentMark, violated) :=
    if negb (Number.isNaN zLow) && (observedValue <? zLow)
    then ("-"%string, true) else (currentMark, violated) in
  if negb (Number.isNaN zHigh) && (zHigh <? observedValue)
  then ("+"%string, true) else (currentMark, violated).

Section WithHost.
Variable host : Host.

Definition _getPearson3Kt (z skew : float) : float :=
  if Number.isNaN z then nan
  else
    let k := skew / 6.0 in
    let z2 := z * z in
    let k2 := k * k in
    z + (z2 - 1) * k + (1 / 3) * z * (z2 - 6) * k2 - (z2 - 1) * k2 * k
    + z * k2 * k2 + (1 / 3) * k2 * k2 * k.

(** The [switch] of [runTest]: [(zEst, zLow, zHigh)] in the scale of the
    statistics. *)
Definition bounds (distType : Z) (mean std skew : float)
  (px probLower probUpper : float) : outcome (float * float * float) :=
  if (distType =? DistributionType.Normal)%Z
     || (distType =? DistributionType.LogNormal)%Z then
    let ktEst := RainUtils.Look host (1 - px) in
    let ktLow := RainUtils.Look host (1 - probLower) in
    let ktHigh := RainUtils.Look host (1 - probUpper) in
    Returned (mean + std * ktEst,
              unlessNaN ktLow (mean + std * ktLow),
              unlessNaN ktHigh (mean + std * ktHigh))
  else if (distType =? DistributionType.PearsonType3)%Z
          || (distType =? DistributionType.LogPearsonType3)%Z then
    let ktEst := _getPearson3Kt (RainUtils.Look host (1 - px)) skew in
    let ktLow := _getPearson3Kt (RainUtils.Look host (1 - probLower)) skew in
    let ktHigh := _getPearson3Kt (RainUtils.Look host (1 - probUpper)) skew in
    Returned (mean + std * ktEst,
              unlessNaN ktLow (mean + std * ktLow),
              unlessNaN ktHigh (mean + std * ktHigh))
  else if (distType =? DistributionType.ExtremeValueType1)%Z then
    let alpha := 0.7797 * std in
    let mode := mean - 0.5772 * alpha in
    let ktEst := RainUtils.Extreme host px in
    let ktLow := RainUtils.Extreme host probLower in
    let ktHigh := RainUtils.Extreme host probUpper in
    Returned (mode + alpha * ktEst,
              unlessNaN ktLow (mode + alpha * ktLow),
              unlessNaN ktHigh (mode + alpha * ktHigh))
  else Thrown ("Unsupported distribution type: " ++ Number.toString distType).

(** The body of the [for] loop of [runTest], for rank [i]. *)
Definition rankStep (distType : Z) (N : nat) (sortedData : list float)
  (mean std skew : float) (i : nat) (results : KSResult) : outcome KSResult :=
  let rank := Number.of_nat i in
  let px := _plottingPosition 3 rank (Number.of_nat N) in
  let prob' := prob results ++ [px] in
  let probLower := (rank - 1.0) / Number.of_nat N + Ca results in
  let probUpper := rank / Number.of_nat N - Ca results in
  zs <- bounds distType mean std skew px probLower probUpper ;;
  let '(zEst, zLow, zHigh) := zs in
  let '(zEst, zLow, zHigh) :=
    if requiresLog distType
    then (Math.pow host 10 zEst,
          if negb (Number.isNaN zLow) then Math.pow host 10 zLow else zLow,
          if negb (Number.isNaN zHigh) then Math.pow host 10 zHigh else zHigh)
    else (zEst, zLow, zHigh) in
  let observedValue := Array.get sortedData (i - 1) in
  let '(currentMark, violated) := markOf observedValue zLow zHigh in
  Returned
    {| obs := obs results;
       est := est results ++ [zEst];
       lowerBound := lowerBound results ++ [zLow];
       upperBound := upperBound results ++ [zHigh];
       mark := mark results ++ [currentMark];
       prob := prob';
       Ca := Ca results;
       fitted := if violated then false else fitted results |}.

(** [runTest] from the statistics on: the result object and the loop
    over the ranks. *)
Definition rankLoop (distType : Z) (N : nat) (sortedData : list float) (Ca : float)
  (stats : RainUtils.Stats) : outcome KSResult :=
  let mean := RainUtils.M stats in
  let std := RainUtils.SD stats in
  let skew := RainUtils.Cs stats in
  let results :=
    {| obs := sortedData; est := []; lowerBound := []; upperBound := [];
       mark := []; prob := []; Ca := Ca; fitted := true |} in
  for_each (rankStep distType N sortedData mean std skew) (seq 1 N) results.

(** The critical value of the confidence bands. *)
Definition criticalCa (this : KSTest) (N : nat) : float :=
  alpha this
  / (Math.sqrt (Number.of_nat N) - 0.01 + 0.85 / Math.sqrt (Number.of_nat N)).

Definition runTest (this : KSTest) (distType : Z) (data : list float)
  : outcome KSResult :=
  let N := length data in
  if (N =? 0)%nat then Thrown "Input data array cannot be empty."
  else
    let sortedData := sortDescending data in
    let Ca := criticalCa this N in
    let transformedData :=
      if requiresLog distType then map (logOrZero host) sortedData else sortedData in
    let stats := RainUtils.statistics host transformedData in
    rankLoop distType N sortedData Ca stats.

End WithHost.
End KSTest.

(** ** Array objects

    The entry points once more, with the arrays as objects of a store: a
    reference is the position of its array in the store, [slice], the
    spread [[...arr]] and [map] allocate a new array, [Array.prototype.sort]
    overwrites the array it is called on.  The arrays a call creates empty
    and fills itself ([est], [lo], ...) are returned by value, as in the
    definitions above, to which everything numeric is delegated. *)

Module Mem.

Definition ref : Type := nat.
Definition store : Type := list (list float).

(** A computation returns or throws, and leaves a store either way. *)
Definition M (A : Type) : Type := store -> outcome A * store.

Definition ret {A : Type} (a : A) : M A := fun st => (Returned a, st).

Definition throw {A : Type} (message : string) : M A :=
  fun st => (Thrown message, st).

Definition bindM {A B : Type} (c : M A) (k : A -> M B) : M B :=
  fun st =>
    match c st with
    | (Returned a, st') => k a st'
    | (Thrown m, st') => (Thrown m, st')
    end.

Notation "x <~ c ;; k" := (bindM c (fun x => k))
  (at level 61, c at next level, right associativity).

Definition lift {A : Type} (c : outcome A) : M A := fun st => (c, st).

(** The elements of the array [r].  A reference outside the store does not
    occur in a run that starts from references of the store. *)
Definition load (r : ref) : M (list float) :=
  fun st =>
    match nth_error st r with
    | Some elements => (Returned elements, st)
    | None => (Thrown "no such array", st)
    end.

(** A new array object. *)
Definition alloc (elements : list float) : M ref :=
  fun st => (Returned (length st), st ++ [elements]).

(** Overwrite the elements of the array [r]. *)
Definition overwrite (r : ref) (elements : list float) : M unit :=
  fun st =>
    if (r <? length st)%nat
    then (Returned tt, firstn r st ++ elements :: skipn (S r) st)
    else (Thrown "no such array", st).

(** [arr.slice()] and [[...arr]]: a shallow copy. *)
Definition Array_slice (arr : ref) : M ref :=
  elements <~ load arr ;; alloc elements.

(** [arr.map(f)]: a new array. *)
Definition Array_map (f : float -> float) (arr : ref) : M ref :=
  elements <~ load arr ;; alloc (map f elements).

(** [arr.sort(compare)]: sorts [arr] in place and returns [arr]. *)
Definition Array_sort (compare : float -> float -> float) (arr : ref) : M ref :=
  elements <~ load arr ;;
  _ <~ overwrite arr (Array.sorted_by compare elements) ;;
  ret arr.

Section WithHost.
Variable host : Host.

(** [RainUtils.sort]: [arr.slice().sort((a, b) => a - b)]. *)
Definition sort (arr : ref) : M ref :=
  copy <~ Array_slice arr ;;
  Array_sort (fun a b => a - b) copy.

(** [KSTest.sortDescending]: [[...data].sort((a, b) => b - a)]. *)
Definition sortDescending (data : ref) : M ref :=
  copy <~ Array_slice data ;;
  Array_sort (fun a b => b - a) copy.

Definition statistics (X : ref) : M RainUtils.Stats :=
  elements <~ load X ;;
  if (length elements =? 0)%nat then ret RainUtils.emptySummary
  else
    sortedX <~ sort X ;;
    sorted <~ load sortedX ;;
    ret (RainUtils.summary host elements sorted).

(** [requiresLog ? data.map(...) : data]: the second branch is the same
    array object. *)
Definition transformed (distType : Z) (data : ref) : M ref :=
  if requiresLog distType then Array_map (logOrZero host) data else ret data.

Definition freq (distType : Z) (y : ref) (T : float)
  : M FrequencyAnalysis.FreqResult :=
  x <~ (if requiresLog distType then Array_map (logOrZero host) y
        else Array_slice y) ;;
  stats <~ statistics x ;;
  lift (FrequencyAnalysis.estimate host distType stats T).

Definition runTest (this : KSTest.KSTest) (distType : Z) (data : ref)
  : M KSTest.KSResult :=
  elements <~ load data ;;
  let N := length elements in
  if (N =? 0)%nat then throw "Input data array cannot be empty."
  else
    sortedData <~ sortDescending data ;;
    let Ca := KSTest.criticalCa this N in
    transformedData <~ transformed distType sortedData ;;
    stats <~ statistics transformedData ;;
    sorted <~ load sortedData ;;
    lift (KSTest.rankLoop host distType N sorted Ca stats).

Definition _divideIntoBins (data : ref) (intervalCount : Z) (distType : Z)
  : M ChiSquareTest.Chi2Results :=
  transformedData <~ transformed distType data ;;
  stats <~ statistics transformedData ;;
  values <~ load transformedData ;;
  lift (ChiSquareTest.fillBins host values stats intervalCount distType).

Definition _calculateChiSquare (data : ref) (intervalCount : Z)
  (confidenceIndex : Z) (distType : Z) : M ChiSquareTest.Chi2Results :=
  results <~ _divideIntoBins data intervalCount distType ;;
  elements <~ load data ;;
  let n := length elements in
  lift (ChiSquareTest.evaluate host n intervalCount confidenceIndex distType results).

Definition chi2Test (distType : Z) (data : ref) (confidenceIndex : Z)
  : M ChiSquareTest.Chi2Report :=
  if (confidenceIndex <? 0)%Z
     || (Z.of_nat (length ChiSquareTest.ConfidenceLevelString) <=? confidenceIndex)%Z
  then
    ret (ChiSquareTest.InvalidIndex
           (Number.toString confidenceIndex)
           ("Confidence index is invalid! Must be between [0, "
            ++ Number.toString
                 (Z.of_nat (length ChiSquareTest.ConfidenceLevelString) - 1) ++ "]")
           false)
  else
    sortedData <~ sort data ;;
    elements <~ load data ;;
    let intervalCount := ChiSquareTest.sturges host (length elements) in
    match Number.to_Z intervalCount with
    | Some k =>
        results <~ _calculateChiSquare sortedData k confidenceIndex distType ;;
        ret (ChiSquareTest.Tested results)
    | None =>
        (* [new Array(size)] throws inside [_divideIntoBins], after the
           statistics *)
        transformedData <~ transformed distType sortedData ;;
        _ <~ statistics transformedData ;;
        throw "Invalid array length"
    end.

End WithHost.
End Mem.

(** ** A sample host

    Elementary functions computed in binary64 from their series, for
    running the definitions on concrete samples. *)

Module SampleHost.

Definition ln2 : float := 0.6931471805599453.
Definition ln10 : float := 2.302585092994046.

(** [sum_{j < terms} s2^j / (2j + 1)], by Horner's rule from the last term. *)
Fixpoint atanh_series (terms : nat) (j : float) (s2 : float) : float :=
  match terms with
  | O => 0
  | S terms' => 1 / j + s2 * atanh_series terms' (j + 2) s2
  end.

(** Natural logarithm of a positive finite number: x = m * 2^e with
    m in [sqrt(1/2), sqrt 2), and ln m = 2 atanh ((m - 1) / (m + 1)). *)
Definition ln (x : float) : float :=
  let '(m0, e0) := Z.frexp x in
  let '(m, e) := if m0 <? 0.7071067811865476 then (2 * m0, (e0 - 1)%Z) else (m0, e0) in
  let s := (m - 1) / (m + 1) in
  Number.of_Z e * ln2 + 2 * s * atanh_series 14 1 (s * s).

(** [sum_{j < terms} r^j / j!], by Horner's rule. *)
Fixpoint exp_series (terms : nat) (j : float) (r : float) : float :=
  match terms with
  | O => 1
  | S terms' => 1 + r / j * exp_series terms' (j + 1) r
  end.

Definition exp (x : float) : float :=
  if 710 <? x then infinity
  else if x <? -746 then 0
  else
    let k := Math.round (x / ln2) in
    let r := x - k * ln2 in
    match Number.to_Z k with
    | Some kz => Z.ldexp (exp_series 18 1 r) kz
    | None => nan
    end.

Definition power (base exponent : float) : float :=
  if 0 <? base then exp (exponent * ln base)
  else
    match Number.to_Z exponent with
    | Some n => if Z.even n then exp (exponent * ln (- base))
                else - exp (exponent * ln (- base))
    | None => nan
    end.

(** [x.toFixed(digits)] printed from [round (x * 10^digits)]. *)
Definition fixed (x : float) (digits : nat) : string :=
  match Number.to_Z (Math.round (x * Number.of_Z (10 ^ Z.of_nat digits))) with
  | Some v =>
      let q := (Z.abs v / 10 ^ Z.of_nat digits)%Z in
      let r := (Z.abs v mod 10 ^ Z.of_nat digits)%Z in
      let frac := NilZero.string_of_uint (N.to_uint (Z.to_N r)) in
      let pad := String.concat EmptyString (repeat "0"%string (digits - String.length frac)) in
      ((if (v <? 0)%Z then "-" else EmptyString) ++ Number.decimal q ++
       (if (digits =? 0)%nat then EmptyString else "." ++ pad ++ frac))%string
  | None => if x =? infinity then "Infinity"%string
            else if x =? neg_infinity then "-Infinity"%string
            else "NaN"%string
  end.

Definition host : Host :=
  {| log_approx := ln;
     log10_approx := fun x => ln x / ln10;
     pow_approx := power;
     toFixed := fixed |}.

End SampleHost.

(** ** Vocabulary of the statements *)

(** The five codes of [DistributionType]. *)
Definition supported (distType : Z) : Prop := (1 <= distType <= 5)%Z.

(** The number of parameters estimated from the sample: 2 for Normal,
    LogNormal and ExtremeValueI, 3 for PearsonIII and LogPearsonIII. *)
Definition estimatedParameters (distType : Z) : Z :=
  if (distType =? DistributionType.Normal)%Z
     || (distType =? DistributionType.LogNormal)%Z
     || (distType =? DistributionType.ExtremeValueType1)%Z
  then 2%Z else 3%Z.

(** [lo < value && value < hi], the test of [_countFrequencies]. *)
Definition inBin (low high value : float) : bool :=
  (low <? value) && (value <? high).

(** The number of values strictly inside a bin. *)
Definition countIn (low high : float) (data : list float) : nat :=
  length (filter (inBin low high) data).

(** The sum of the observed counts over the bins 1..k. *)
Definition observedTotal (r : ChiSquareTest.Chi2Results) (k : nat) : nat :=
  list_sum (map (fun i => nth i (ChiSquareTest.o r) 0%nat) (seq 1 k)).

(** 1 for [true], 0 for [false]. *)
Definition indicator (b : bool) : nat := if b then 1%nat else 0%nat.

(** The edges of the bins of a result: edge 0 is [lo[1]], edge i is
    [hi[i]]. *)
Definition edge (r : ChiSquareTest.Chi2Results) (i : nat) : float :=
  match i with
  | O => Array.get (ChiSquareTest.lo r) 1
  | S _ => Array.get (ChiSquareTest.hi r) i
  end.

(** ** Binary64 comparisons

    Every number but NaN has a key, a triple of integers, and [SFcompare]
    is the lexicographic comparison of the keys. *)

Definition key (x : spec_float) : option (Z * Z * Z) :=
  match x with
  | S754_nan => None
  | S754_infinity true => Some (-2, 0, 0)%Z
  | S754_finite true m e => Some (-1, - e, Zneg m)%Z
  | S754_zero _ => Some (0, 0, 0)%Z
  | S754_finite false m e => Some (1, e, Zpos m)%Z
  | S754_infinity false => Some (2, 0, 0)%Z
  end.

Definition lex (a b : Z * Z * Z) : comparison :=
  let '(a1, a2, a3) := a in
  let '(b1, b2, b3) := b in
  match (a1 ?= b1)%Z with
  | Eq => match (a2 ?= b2)%Z with Eq => (a3 ?= b3)%Z | c => c end
  | c => c
  end.

Definition lexlt (a b : Z * Z * Z) : Prop :=
  let '(a1, a2, a3) := a in
  let '(b1, b2, b3) := b in
  (a1 < b1 \/ (a1 = b1 /\ (a2 < b2 \/ (a2 = b2 /\ a3 < b3))))%Z.

(** Goals about keys: name the components and leave it to [lia]. *)
Ltac lex_lia :=
  repeat match goal with
         | H : Some _ = Some _ |- _ => injection H as H
         end;
  subst;
  repeat match goal with
         | a : (Z * Z * Z)%type |- _ => destruct a as ((?, ?), ?)
         end;
  cbn [lexlt] in *;
  repeat match goal with
         | H : (_, _) = (_, _) |- _ => injection H as ? ?
         end;
  try solve [ lia | f_equal; lia | left; repeat f_equal; lia ].


(** ** Sample moments, as the specification words them *)

Section Moments.
Variable host : Host.

(** The sum of the sample divided by its size. *)
Definition sampleMean (y : list float) : float :=
  fold_left (fun acc val => acc + val) y 0 / Number.of_nat (length y).

(** The sum of the squared deviations from [mean]. *)
Definition sumSquares (mean : float) (y : list float) : float :=
  fold_left (fun acc val => acc + Math.pow host (val - mean) 2) y 0.

(** The standard deviation with the (n - 1) denominator. *)
Definition sampleStd (y : list float) : float :=
  Math.sqrt (sumSquares (sampleMean y) y / (Number.of_nat (length y) - 1)).

End Moments.

(** ** The Wilson-Hilferty expressions over an arithmetic

    The expressions of [FrequencyAnalysis._calculatePearsonType3] and of
    the two [_getPearson3Kt], with the four operations and the integer
    constants taken from an [Arithmetic].  Over [binary64] they are the
    functions of the sources, rounding included; over [rationals] the same
    expressions are evaluated without rounding. *)

Record Arithmetic (A : Type) : Type := {
  sum : A -> A -> A;
  difference : A -> A -> A;
  product : A -> A -> A;
  quotient : A -> A -> A;
  literal : Z -> A
}.
Arguments sum {A} _ _ _.
Arguments difference {A} _ _ _.
Arguments product {A} _ _ _.
Arguments quotient {A} _ _ _.
Arguments literal {A} _ _.

Definition binary64 : Arithmetic float :=
  {| sum := PrimFloat.add; difference := PrimFloat.sub; product := PrimFloat.mul;
     quotient := PrimFloat.div; literal := Number.of_Z |}.

Definition rationals : Arithmetic Q :=
  {| sum := Qplus; difference := Qminus; product := Qmult; quotient := Qdiv;
     literal := inject_Z |}.

Declare Scope arithmetic_scope.

Module WilsonHilferty.
Section Over.
Context {A : Type} (arithmetic : Arithmetic A).

Local Notation "x + y" := (sum arithmetic x y) : arithmetic_scope.
Local Notation "x - y" := (difference arithmetic x y) : arithmetic_scope.
Local Notation "x * y" := (product arithmetic x y) : arithmetic_scope.
Local Notation "x / y" := (quotient arithmetic x y) : arithmetic_scope.
Local Notation "'#' n" := (literal arithmetic n%Z) (at level 1, format "'#' n")
  : arithmetic_scope.
Local Open Scope arithmetic_scope.

(** The [Kt] of [FrequencyAnalysis._calculatePearsonType3]. *)
Definition _calculatePearsonType3_Kt (cs z : A) : A :=
  let k := cs / #6 in
  let z2 := z * z in
  let k2 := k * k in
  z + (z2 - #1) * k + (z * (z2 - #6)) * k2 / #3
  - (z2 - #1) * k2 * k + z * k2 * k2 + k2 * k2 * k / #3.

(** The expression of [_getPearson3Kt] in [ChiSquareTest] and [KSTest]. *)
Definition _getPearson3Kt (z skew : A) : A :=
  let k := skew / #6 in
  let z2 := z * z in
  let k2 := k * k in
  z + (z2 - #1) * k + (#1 / #3) * z * (z2 - #6) * k2 - (z2 - #1) * k2 * k
  + z * k2 * k2 + (#1 / #3) * k2 * k2 * k.

End Over.
End WilsonHilferty.

(** ** The KS band of one observation *)

(** The observation lies strictly below a lower bound that is not NaN. *)
Definition belowBand (observed low : float) : bool :=
  negb (Number.isNaN low) && (observed <? low).

(** The observation lies strictly above an upper bound that is not NaN. *)
Definition aboveBand (observed high : float) : bool :=
  negb (Number.isNaN high) && (high <? observed).

Definition violation (observed low high : float) : bool :=
  belowBand observed low || aboveBand observed high.

(** '+' above the band, otherwise '-' below it, otherwise 'G'. *)
Definition expectedMark (observed low high : float) : string :=
  if aboveBand observed high then "+"%string
  else if belowBand observed low then "-"%string
  else "G"%string.

(** Some rank below [n] violates its band. *)
Definition someViolation (r : KSTest.KSResult) (n : nat) : bool :=
  existsb
    (fun i => violation (Array.get (KSTest.obs r) i)
                (Array.get (KSTest.lowerBound r) i) (Array.get (KSTest.upperBound r) i))
    (seq 0 n).

(** ** Stores *)

(** Every array of the store [st] holds the same elements, in the same
    order, after the computation [c]. *)
Definition leavesArrays {A : Type} (c : Mem.M A) (st : Mem.store) : Prop :=
  forall (r : Mem.ref) (elements : list float),
    nth_error st r = Some elements -> nth_error (snd (c st)) r = Some elements.

(** ** Equality of results *)

(** Equal under [==] (which identifies +0 and -0), or both NaN. *)
Definition sameNumber (a b : float) : bool :=
  (a =? b) || (Number.isNaN a && Number.isNaN b).

(** ** Sample data *)

(** Ten observations, already in ascending order. *)
Definition tenYears : list float := [1; 2; 3; 4; 5; 6; 7; 8; 9; 10].

(** Nine dry years and a wet one: the second edge of the bins of the
    Normal distribution lies below the first. *)
Definition nineDryYears : list float := [0; 0; 0; 0; 0; 0; 0; 0; 0; 100].

(** The sample of the usage notes of the sources. *)
Definition twelveYears : list float :=
  [120; 150; 135; 160; 180; 145; 170; 190; 130; 210; 175; 165].

(** ** statistics.js *)

Module Statistics.

Record Summary : Type := {
  max : float; min : float; mean : float; stdDev : float; cv : float;
  skewness : float
}.

Section WithHost.
Variable host : Host.

(** [calculateStatistics(dataArray)] on an array of numbers; [None] is
    [null]. *)
Definition calculateStatistics (dataArray : list float) : option Summary :=
  if (length dataArray =? 0)%nat then None
  else
    let n := length dataArray in
    let nf := Number.of_nat n in
    let sum := fold_left (fun acc val => acc + val) dataArray 0 in
    let mean := sum / nf in
    let max := Math.max dataArray in
    let min := Math.min dataArray in
    let sumOfSquaredDiffs :=
      fold_left (fun acc val => acc + Math.pow host (val - mean) 2) dataArray 0 in
    let variance := if (1 <? n)%nat then sumOfSquaredDiffs / (nf - 1) else 0 in
    let stdDev := Math.sqrt variance in
    let cv := if negb (mean =? 0) then stdDev / mean else 0 in
    let sumOfCubedDiffs :=
      fold_left (fun acc val => acc + Math.pow host (val - mean) 3) dataArray 0 in
    let skewness :=
      if (2 <? n)%nat && negb (stdDev =? 0)
      then (nf / ((nf - 1) * (nf - 2))) * (sumOfCubedDiffs / Math.pow host stdDev 3)
      else 0 in
    Some {| max := max; min := min; mean := mean; stdDev := stdDev; cv := cv;
            skewness := skewness |}.

End WithHost.
End Statistics.

(** ** FindReturnPeriod.js *)

Module FindReturnPeriod.

Definition RpStr : list string :=
  ["<1.11"; "1.11~2"; "2~5"; "5~10"; "10~20"; "20~25"; "25~50"; "50~100";
   "100~200"; "200~500"; ">500"]%string.

(** [this.RpStr[k] + "年"]; an index outside the array reads [undefined],
    which the concatenation prints. *)
Definition label (k : nat) : string :=
  (match nth_error RpStr k with Some s => s | None => "undefined" end ++ "年")%string.

(** [q[i]] for an integer [i]: [q[-1]] is [undefined]. *)
Definition at_index (q : list float) (i : Z) : float :=
  if (i <? 0)%Z then nan else Array.get q (Z.to_nat i).

(** [for (i = 1; i < n - 1; i++) { if (value < q[i]) break; }]: the value
    of [i] after the loop.  [fuel] bounds the iterations; [n] of them are
    enough. *)
Fixpoint search (value : float) (q : list float) (n : nat) (fuel : nat) (i : nat) : nat :=
  match fuel with
  | O => i
  | S fuel' =>
      if (Z.of_nat i <? Z.of_nat n - 1)%Z
      then if value <? Array.get q i then i else search value q n fuel' (S i)
      else i
  end.

Definition findReturnPeriod (value : float) (q : list float) : string :=
  let n := length q in
  if value <? Array.get q 0 then label 0
  else if at_index q (Z.of_nat n - 1) <? value then label n
  else
    let i := search value q n n 1 in
    let k := i in
    label k.

(** An element of [Global_FreqResults]; [None] is an [estmateResults]
    that is not an array. *)
Record Dist : Type := { estmateResults : option (list float) }.

Definition findRP (data : list Dist) (value : float) : list string :=
  map
    (fun dist =>
       let q := match estmateResults dist with Some q => q | None => [] end in
       findReturnPeriod value q)
    data.

End FindReturnPeriod.

(** ** ui.js: the return-period finder *)

Module UIManager.

Definition DEFAULT_RETURN_PERIODS : list float :=
  [1.11; 2; 5; 10; 20; 25; 50; 100; 200; 500].

Definition menuDr_length : nat := 5.

Section WithHost.
Variable host : Host.

(** [DEFAULT_RETURN_PERIODS.map(period => { try { return
    fa.freq(distType, rainData, period).Qest; } catch (e) { return
    Infinity; } })]. *)
Definition estmateResults (distType : Z) (rainData : list float) : list float :=
  map
    (fun period =>
       match FrequencyAnalysis.freq host distType rainData period with
       | Returned result => FrequencyAnalysis.Qest result
       | Thrown _ => infinity
       end)
    DEFAULT_RETURN_PERIODS.

(** The click handler of [setupReturnPeriodFinder], from the parsed
    rainfall value and the rainfall of the selected duration to the texts
    written into the table; [None] is an [alert] and no update. *)
Definition setupReturnPeriodFinder (rainfallValue : float) (rainData : list float)
  : option (list string) :=
  if Number.isNaN rainfallValue || (rainfallValue <=? 0) then None
  else if (length rainData =? 0)%nat then None
  else
    let globalFreqResults :=
      map
        (fun distType =>
           {| FindReturnPeriod.estmateResults :=
                Some (estmateResults (Z.of_nat distType) rainData) |})
        (seq 1 menuDr_length) in
    let rpResults := FindReturnPeriod.findRP globalFreqResults rainfallValue in
    Some rpResults.

End WithHost.
End UIManager.

(** ** Vocabulary of the further statements *)

(** No element is NaN. *)
Definition numbers (arr : list float) : Prop :=
  Forall (fun x => Number.isNaN x = false) arr.

(** [x <= y], as a relation. *)
Definition le (x y : float) : Prop := (x <=? y) = true.

(** [x >= y], as a relation. *)
Definition ge (x y : float) : Prop := (y <=? x) = true.

(** * Properties *)

(** ** Arrays *)

Section ArrayFacts.
Context {A : Type}.
Implicit Types (arr : list A) (i j : nat) (v hole d : A).

Lemma set_length arr hole i v :
  (i < length arr)%nat -> length (Array.set hole arr i v) = length arr.
Proof.
  intros Hi. unfold Array.set.
  destruct (Nat.ltb_spec i (length arr)) as [_ | Hge]; [ | lia ].
  rewrite length_app, length_firstn. cbn [length]. rewrite length_skipn. lia.
Qed.

Lemma nth_set_same arr hole i v d :
  (i < length arr)%nat -> nth i (Array.set hole arr i v) d = v.
Proof.
  intros Hi. unfold Array.set.
  destruct (Nat.ltb_spec i (length arr)) as [_ | Hge]; [ | lia ].
  rewrite app_nth2; rewrite length_firstn; [ | lia ].
  replace (i - Nat.min i (length arr))%nat with 0%nat by lia. reflexivity.
Qed.

Lemma nth_set_other arr hole i j v d :
  (i < length arr)%nat -> j <> i -> nth j (Array.set hole arr i v) d = nth j arr d.
Proof.
  intros Hi Hj. unfold Array.set.
  destruct (Nat.ltb_spec i (length arr)) as [_ | Hge]; [ | lia ].
  rewrite <- (firstn_skipn i arr) at 3.
  destruct (Nat.lt_ge_cases j i) as [Hlt | Hgt].
  - rewrite !app_nth1; rewrite ?length_firstn; try lia. reflexivity.
  - rewrite !app_nth2; rewrite ?length_firstn; try lia.
    replace (Nat.min i (length arr)) with i by lia.
    destruct (j - i)%nat as [ | m] eqn:Hm; [ lia | ].
    cbn [nth].
    rewrite <- (firstn_skipn 1 (skipn i arr)).
    rewrite skipn_skipn. rewrite app_nth2; rewrite length_firstn, length_skipn; [ | lia ].
    replace (1 + i)%nat with (S i) by lia.
    f_equal. lia.
Qed.

End ArrayFacts.

(** ** Facts of binary64 arithmetic *)

(** *** The order of the comparisons *)

Lemma lex_spec a b : CompareSpec (a = b) (lexlt a b) (lexlt b a) (lex a b).
Proof.
  destruct a as ((a1, a2), a3), b as ((b1, b2), b3). unfold lex, lexlt.
  destruct (Z.compare_spec a1 b1); [ | constructor; lia | constructor; lia ].
  destruct (Z.compare_spec a2 b2); [ | constructor; lia | constructor; lia ].
  destruct (Z.compare_spec a3 b3); constructor; try lia. congruence.
Qed.

Lemma SFcompare_key x y :
  SFcompare x y =
  match key x, key y with
  | Some a, Some b => Some (lex a b)
  | _, _ => None
  end.
Proof.
  destruct x as [ [ | ] | [ | ] | | [ | ] m1 e1 ], y as [ [ | ] | [ | ] | | [ | ] m2 e2 ];
    try reflexivity; cbn [SFcompare key lex].
  rewrite Z.compare_opp, (Z.compare_antisym e1 e2).
  destruct (e1 ?= e2)%Z; reflexivity.
Qed.

Lemma ltb_key x y :
  (x <? y) = true <->
  exists a b, key (Prim2SF x) = Some a /\ key (Prim2SF y) = Some b /\ lexlt a b.
Proof.
  rewrite FloatAxioms.ltb_spec. unfold SFltb. rewrite SFcompare_key.
  destruct (key (Prim2SF x)) as [a | ], (key (Prim2SF y)) as [b | ];
    try (split; [ discriminate | intros (? & ? & ? & ? & ?); discriminate ]).
  destruct (lex_spec a b) as [E | H | H]; split;
    try discriminate; try reflexivity.
  - intros (a' & b' & Ea & Eb & H). lex_lia.
  - intros _. exists a, b. auto.
  - intros (a' & b' & Ea & Eb & H'). lex_lia.
Qed.

Lemma leb_key x y :
  (x <=? y) = true <->
  exists a b, key (Prim2SF x) = Some a /\ key (Prim2SF y) = Some b
              /\ (a = b \/ lexlt a b).
Proof.
  rewrite FloatAxioms.leb_spec. unfold SFleb. rewrite SFcompare_key.
  destruct (key (Prim2SF x)) as [a | ], (key (Prim2SF y)) as [b | ];
    try (split; [ discriminate | intros (? & ? & ? & ? & ?); discriminate ]).
  destruct (lex_spec a b) as [E | H | H]; split;
    try discriminate; try reflexivity.
  - intros _. exists a, b. auto.
  - intros _. exists a, b. auto.
  - intros (a' & b' & Ea & Eb & [E | H']); lex_lia.
Qed.

Lemma eqb_key x y :
  (x =? y) = true <->
  exists a, key (Prim2SF x) = Some a /\ key (Prim2SF y) = Some a.
Proof.
  rewrite FloatAxioms.eqb_spec. unfold SFeqb. rewrite SFcompare_key.
  destruct (key (Prim2SF x)) as [a | ], (key (Prim2SF y)) as [b | ];
    try (split; [ discriminate | intros (? & ? & ?); discriminate ]).
  destruct (lex_spec a b) as [E | H | H]; split;
    try discriminate; try reflexivity.
  - intros _. exists a. subst. auto.
  - intros (a' & Ea & Eb). lex_lia.
  - intros (a' & Ea & Eb). lex_lia.
Qed.

(** [x < y] excludes [y < x]. *)
Lemma ltb_asym x y : (x <? y) = true -> (y <? x) = false.
Proof.
  intros H. apply ltb_key in H as (a & b & Ha & Hb & Hab).
  destruct (y <? x) eqn:E; [ | reflexivity ].
  apply ltb_key in E as (b' & a' & Hb' & Ha' & Hba).
  rewrite Ha in Ha'. rewrite Hb in Hb'. lex_lia.
Qed.

(** [x < y <= z] gives [x < z]. *)
Lemma ltb_leb_trans x y z : (x <? y) = true -> (y <=? z) = true -> (x <? z) = true.
Proof.
  intros H1 H2. apply ltb_key in H1 as (a & b & Ha & Hb & Hab).
  apply leb_key in H2 as (b' & c & Hb' & Hc & Hbc).
  rewrite Hb in Hb'.
  apply ltb_key. exists a, c. repeat split; try assumption.
  destruct Hbc as [E | Hbc]; lex_lia.
Qed.

(** Equal numbers are ordered neither way. *)
Lemma eqb_not_ltb x y : (x =? y) = true -> (x <? y) = false /\ (y <? x) = false.
Proof.
  intros H. apply eqb_key in H as (a & Hx & Hy).
  split.
  - destruct (x <? y) eqn:E; [ | reflexivity ].
    apply ltb_key in E as (a' & b' & Ha & Hb & Hab).
    rewrite Hx in Ha. rewrite Hy in Hb. lex_lia.
  - destruct (y <? x) eqn:E; [ | reflexivity ].
    apply ltb_key in E as (a' & b' & Ha & Hb & Hab).
    rewrite Hy in Ha. rewrite Hx in Hb. lex_lia.
Qed.

(** [x <= y < z] gives [x < z]. *)
Lemma leb_ltb_trans x y z : (x <=? y) = true -> (y <? z) = true -> (x <? z) = true.
Proof.
  intros H1 H2. apply leb_key in H1 as (a & b & Ha & Hb & Hab).
  apply ltb_key in H2 as (b' & c & Hb' & Hc & Hbc).
  rewrite Hb in Hb'.
  apply ltb_key. exists a, c. repeat split; try assumption.
  destruct Hab as [E | Hab]; lex_lia.
Qed.

(** Two numbers that are not NaN and not equal are ordered one way or the
    other; [w < x] and [y0 <= y] only say that [x] and [y] are not NaN. *)
Lemma ltb_total w x y0 y :
  (w <? x) = true -> (y0 <=? y) = true ->
  (x <? y) = false -> (x =? y) = false -> (y <? x) = true.
Proof.
  intros Hx Hy Hlt Heq.
  apply ltb_key in Hx as (? & a & _ & Ha & _).
  apply leb_key in Hy as (? & b & _ & Hb & _).
  apply ltb_key. exists b, a. repeat split; try assumption.
  destruct (lex_spec a b) as [E | H | H].
  - assert (E' : (x =? y) = true) by (apply eqb_key; exists b; subst; auto). congruence.
  - assert (E' : (x <? y) = true) by (apply ltb_key; exists a, b; auto). congruence.
  - exact H.
Qed.

(** *** NaN *)

Lemma isNaN_spec x : Number.isNaN x = true <-> x = nan.
Proof.
  unfold Number.isNaN. split.
  - intros H. apply negb_true_iff in H.
    rewrite FloatAxioms.eqb_spec in H. unfold SFeqb in H.
    rewrite SFcompare_key in H.
    apply Prim2SF_inj. change (Prim2SF nan) with S754_nan.
    destruct (Prim2SF x) as [ s | s | | s m e ]; try reflexivity; exfalso.
    + destruct s; discriminate.
    + destruct s; discriminate.
    + destruct s; cbn [key] in H;
        match type of H with
        | context [lex ?a ?b] => destruct (lex_spec a b) as [ | Hlt | Hlt]
        end; try discriminate; cbn in Hlt; lia.
  - intros ->. reflexivity.
Qed.

Lemma add_nan_l x : nan + x = nan.
Proof. apply Prim2SF_inj. rewrite add_spec. reflexivity. Qed.

Lemma add_nan_r x : x + nan = nan.
Proof.
  apply Prim2SF_inj. rewrite add_spec. change (Prim2SF nan) with S754_nan.
  destruct (Prim2SF x); reflexivity.
Qed.

Lemma sub_nan_l x : nan - x = nan.
Proof. apply Prim2SF_inj. rewrite sub_spec. reflexivity. Qed.

Lemma mul_nan_l x : nan * x = nan.
Proof. apply Prim2SF_inj. rewrite mul_spec. reflexivity. Qed.

Lemma mul_nan_r x : x * nan = nan.
Proof.
  apply Prim2SF_inj. rewrite mul_spec. change (Prim2SF nan) with S754_nan.
  destruct (Prim2SF x); reflexivity.
Qed.

Lemma div_nan_l x : nan / x = nan.
Proof. apply Prim2SF_inj. rewrite div_spec. reflexivity. Qed.

(** *** Rounding an exact binary64 result *)

Local Open Scope Z_scope.

(** Shifting a mantissa left. *)
Lemma iter_xO_pow2 (m d : positive) : Zpos (Pos.iter xO m d) = Zpos m * 2 ^ Zpos d.
Proof.
  induction d as [ | d IH] using Pos.peano_ind.
  - cbn [Pos.iter]. lia.
  - rewrite Pos.iter_succ, Pos2Z.inj_xO, IH, Pos2Z.inj_succ, Z.pow_succ_r by lia. lia.
Qed.

(** The number of binary digits of a positive integer. *)
Lemma digits2_pos_bounds (m : positive) :
  2 ^ (Zpos (digits2_pos m) - 1) <= Zpos m < 2 ^ Zpos (digits2_pos m).
Proof.
  induction m as [m IH | m IH | ]; cbn [digits2_pos].
  - rewrite Pos2Z.inj_succ, (Pos2Z.inj_xI m).
    replace (Z.succ (Zpos (digits2_pos m)) - 1) with (Z.succ (Zpos (digits2_pos m) - 1)) by lia.
    rewrite !Z.pow_succ_r by lia.
    set (a := 2 ^ (Zpos (digits2_pos m) - 1)) in *.
    set (b := 2 ^ Zpos (digits2_pos m)) in *. lia.
  - rewrite Pos2Z.inj_succ, (Pos2Z.inj_xO m).
    replace (Z.succ (Zpos (digits2_pos m)) - 1) with (Z.succ (Zpos (digits2_pos m) - 1)) by lia.
    rewrite !Z.pow_succ_r by lia.
    set (a := 2 ^ (Zpos (digits2_pos m) - 1)) in *.
    set (b := 2 ^ Zpos (digits2_pos m)) in *. lia.
  - change (1 <= 1 < 2). lia.
Qed.

Lemma digits2_pos_unique (m : positive) (d : Z) :
  2 ^ (d - 1) <= Zpos m < 2 ^ d -> Zpos (digits2_pos m) = d.
Proof.
  intros (Hlow & Hhigh). pose proof (digits2_pos_bounds m) as (Blow & Bhigh).
  assert (Hd : 0 < d).
  { destruct (Z.lt_ge_cases 0 d) as [ | Hd]; [ assumption | ].
    assert (2 ^ d <= 1) by (destruct (Z.eq_dec d 0) as [-> | ];
      [ cbn; lia | rewrite Z.pow_neg_r by lia; lia ]). lia. }
  destruct (Z.lt_trichotomy (Zpos (digits2_pos m)) d) as [Hlt | [Heq | Hgt]];
    [ | exact Heq | ]; exfalso.
  - assert (2 ^ Zpos (digits2_pos m) <= 2 ^ (d - 1)) by (apply Z.pow_le_mono_r; lia). lia.
  - assert (2 ^ d <= 2 ^ (Zpos (digits2_pos m) - 1)) by (apply Z.pow_le_mono_r; lia). lia.
Qed.

(** [iter_pos] is iteration. *)
Lemma iter_pos_nat {A : Type} (f : A -> A) (n : positive) (x : A) :
  SpecFloat.iter_pos f n x = Nat.iter (Pos.to_nat n) f x.
Proof.
  revert x. induction n as [n IH | n IH | ]; intros x; cbn [SpecFloat.iter_pos].
  - rewrite !IH, Pos2Nat.inj_xI.
    replace (S (2 * Pos.to_nat n)) with (Pos.to_nat n + (Pos.to_nat n + 1))%nat by lia.
    rewrite !Nat.iter_add. reflexivity.
  - rewrite !IH, Pos2Nat.inj_xO.
    replace (2 * Pos.to_nat n)%nat with (Pos.to_nat n + Pos.to_nat n)%nat by lia.
    rewrite Nat.iter_add. reflexivity.
  - reflexivity.
Qed.

(** One step of the right shift halves the mantissa. *)
Lemma shr_1_m (mrs : shr_record) :
  0 <= shr_m mrs -> shr_m (shr_1 mrs) = shr_m mrs / 2.
Proof.
  destruct mrs as [m r s]. cbn [shr_m]. intros Hm. rewrite <- Z.div2_div.
  destruct m as [ | [p | p | ] | p]; try reflexivity. lia.
Qed.

Lemma shr_iter_m (n : nat) : forall mrs,
  0 <= shr_m mrs -> shr_m (Nat.iter n shr_1 mrs) = shr_m mrs / 2 ^ Z.of_nat n.
Proof.
  induction n as [ | n IH]; intros mrs Hm.
  - cbn [Nat.iter Z.of_nat]. rewrite Z.pow_0_r, Z.div_1_r. reflexivity.
  - rewrite Nat.iter_succ, shr_1_m.
    + rewrite IH by exact Hm. rewrite Nat2Z.inj_succ, Z.pow_succ_r by lia.
      rewrite Z.div_div by lia. f_equal. lia.
    + rewrite IH by exact Hm. apply Z.div_pos; lia.
Qed.

(** Shifting right a multiple of a power of two loses nothing. *)
Lemma shr_1_even (v : Z) :
  0 < v ->
  shr_1 {| shr_m := 2 * v; shr_r := false; shr_s := false |}
  = {| shr_m := v; shr_r := false; shr_s := false |}.
Proof. destruct v as [ | p | p]; intros Hv; try lia. reflexivity. Qed.

Lemma shr_iter_exact (n : nat) : forall v,
  0 < v ->
  Nat.iter n shr_1 {| shr_m := v * 2 ^ Z.of_nat n; shr_r := false; shr_s := false |}
  = {| shr_m := v; shr_r := false; shr_s := false |}.
Proof.
  induction n as [ | n IH]; intros v Hv.
  - cbn [Nat.iter Z.of_nat]. rewrite Z.pow_0_r, Z.mul_1_r. reflexivity.
  - rewrite Nat.iter_succ_r, Nat2Z.inj_succ, Z.pow_succ_r by lia.
    replace (v * (2 * 2 ^ Z.of_nat n)) with (2 * (v * 2 ^ Z.of_nat n)) by lia.
    rewrite shr_1_even by lia. apply IH. exact Hv.
Qed.

Lemma shr_nat (mrs : shr_record) (e n : Z) :
  0 <= n -> shr mrs e n = (Nat.iter (Z.to_nat n) shr_1 mrs, e + n).
Proof.
  intros Hn. destruct n as [ | p | p]; [ | | lia ].
  - cbn. f_equal. lia.
  - cbn [shr Z.to_nat]. rewrite iter_pos_nat. reflexivity.
Qed.

(** The digits of a positive integer, as [Zdigits2] counts them. *)
Lemma Zdigits2_unique (v d : Z) :
  2 ^ (d - 1) <= v < 2 ^ d -> 0 < v -> Zdigits2 v = d.
Proof.
  intros Hv Hpos. destruct v as [ | p | p]; try lia.
  cbn [Zdigits2]. apply digits2_pos_unique. exact Hv.
Qed.

Lemma Zdigits2_bounds (v : Z) :
  0 < v -> 2 ^ (Zdigits2 v - 1) <= v < 2 ^ Zdigits2 v.
Proof.
  intros Hpos. destruct v as [ | p | p]; try lia.
  cbn [Zdigits2]. apply digits2_pos_bounds.
Qed.

Lemma Zdigits2_pos (v : Z) : 0 < v -> 0 < Zdigits2 v.
Proof. intros Hpos. destruct v as [ | p | p]; try lia. cbn [Zdigits2]. lia. Qed.

(** The exponent of binary64 numbers of a given magnitude. *)
Lemma fexp64 (e : Z) : fexp prec emax e = Z.max (e - 53) (-1074).
Proof. reflexivity. Qed.

(** Aligning a mantissa on a smaller exponent. *)
Lemma shl_align_down (m : positive) (e e' : Z) :
  e' <= e -> shl_align m e e' = (Z.to_pos (Zpos m * 2 ^ (e - e')), e').
Proof.
  intros He. unfold shl_align.
  destruct (e' - e) as [ | d | d] eqn:Hd; try lia.
  - assert (e' = e) by lia. subst e'. rewrite Z.sub_diag, Z.pow_0_r, Z.mul_1_r.
    reflexivity.
  - replace (e - e') with (Zpos d) by lia. rewrite <- iter_xO_pow2. reflexivity.
Qed.

Lemma shl_align_up (m : positive) (e e' : Z) : e <= e' -> shl_align m e e' = (m, e).
Proof.
  intros He. unfold shl_align. destruct (e' - e) as [ | d | d] eqn:Hd; try lia; reflexivity.
Qed.

(** Rounding a mantissa that already has its canonical exponent. *)
Lemma round_aux_canonical (m : positive) (e : Z) :
  fexp prec emax (Zpos (digits2_pos m) + e) = e -> e <= 971 ->
  binary_round_aux prec emax false (Zpos m) e loc_Exact = S754_finite false m e.
Proof.
  intros Hcanonical Hmax. unfold binary_round_aux, shr_fexp.
  cbn [Zdigits2 shr_record_of_loc]. rewrite Hcanonical, Z.sub_diag.
  cbn [shr shr_m loc_of_shr_record round_nearest_even Zdigits2 shr_record_of_loc].
  rewrite Hcanonical, Z.sub_diag. cbn [shr shr_m].
  replace (e <=? emax - prec) with true by (symmetry; apply Z.leb_le; cbn; lia).
  reflexivity.
Qed.

Lemma Zdigits2_mul_pow2 (v k : Z) :
  0 < v -> 0 <= k -> Zdigits2 (v * 2 ^ k) = Zdigits2 v + k.
Proof.
  intros Hv Hk. pose proof (Zdigits2_bounds v Hv) as (Hlow & Hhigh).
  pose proof (Zdigits2_pos v Hv) as Hd.
  assert (Hpow : 0 < 2 ^ k) by (apply Z.pow_pos_nonneg; lia).
  apply Zdigits2_unique; [ | nia ].
  replace (Zdigits2 v + k - 1) with ((Zdigits2 v - 1) + k) by lia.
  rewrite !Z.pow_add_r by lia. nia.
Qed.

(** A positive integer times a power of two that needs a left shift, or
    none, to reach its canonical exponent is its own rounding. *)
Lemma normalize_exact_up (v e : Z) :
  0 < v ->
  let t := fexp prec emax (Zdigits2 v + e) in
  t <= e -> t <= 971 ->
  binary_normalize prec emax v e false
  = S754_finite false (Z.to_pos (v * 2 ^ (e - t))) t.
Proof.
  intros Hv t Ht Hmax. destruct v as [ | M | M]; try lia.
  unfold binary_normalize, binary_round. fold (Zdigits2 (Zpos M)). fold t.
  rewrite shl_align_down by exact Ht.
  assert (Hpos : 0 < Zpos M * 2 ^ (e - t)).
  { apply Z.mul_pos_pos; [ lia | apply Z.pow_pos_nonneg; lia ]. }
  apply round_aux_canonical; [ | exact Hmax ].
  change (Zpos (digits2_pos (Z.to_pos (Zpos M * 2 ^ (e - t)))))
    with (Zdigits2 (Zpos (Z.to_pos (Zpos M * 2 ^ (e - t))))).
  rewrite Z2Pos.id by exact Hpos.
  rewrite Zdigits2_mul_pow2 by lia.
  replace (Zdigits2 (Zpos M) + (e - t) + t) with (Zdigits2 (Zpos M) + e) by lia.
  reflexivity.
Qed.

(** ... and so is one that loses only zero bits in the right shift. *)
Lemma normalize_exact_down (v v' e : Z) :
  0 < v' ->
  let t := fexp prec emax (Zdigits2 v + e) in
  e <= t -> v = v' * 2 ^ (t - e) -> t <= 971 ->
  binary_normalize prec emax v e false = S754_finite false (Z.to_pos v') t.
Proof.
  intros Hv' t Ht Hv Hmax.
  assert (Hpow : 0 < 2 ^ (t - e)) by (apply Z.pow_pos_nonneg; lia).
  assert (Hpos : 0 < v) by nia.
  assert (Hdigits : Zdigits2 v = Zdigits2 v' + (t - e))
    by (rewrite Hv; apply Zdigits2_mul_pow2; lia).
  destruct v as [ | M | M]; try lia.
  unfold binary_normalize, binary_round. fold (Zdigits2 (Zpos M)). fold t.
  rewrite shl_align_up by exact Ht.
  unfold binary_round_aux, shr_fexp. fold t.
  rewrite shr_nat by lia. cbn [shr_record_of_loc].
  replace (Zpos M) with (v' * 2 ^ Z.of_nat (Z.to_nat (t - e)))
    by (rewrite Z2Nat.id by lia; symmetry; exact Hv).
  rewrite shr_iter_exact by exact Hv'.
  cbn [shr_m loc_of_shr_record round_nearest_even shr_record_of_loc].
  replace (e + (t - e)) with t by lia.
  assert (Hcanonical : fexp prec emax (Zdigits2 v' + t) = t).
  { unfold t at 2. f_equal. lia. }
  rewrite Hcanonical, Z.sub_diag. cbn [shr shr_m].
  destruct v' as [ | m' | m']; try lia.
  replace (t <=? emax - prec) with true by (symmetry; apply Z.leb_le; cbn; lia).
  reflexivity.
Qed.

Lemma round_nearest_even_cases (m : Z) (l : location) :
  round_nearest_even m l = m \/ round_nearest_even m l = m + 1.
Proof.
  destruct l as [ | [ | | ]]; cbn [round_nearest_even]; auto.
  destruct (Z.even m); auto.
Qed.

(** Rounding a number of [0.5, 1): the result is 0.5 at least. *)
Lemma round_aux_half (V e : Z) :
  0 < V -> Zdigits2 V + e = 0 -> e <= -53 ->
  exists m'' e'',
    binary_round_aux prec emax false V e loc_Exact = S754_finite false m'' e''
    /\ ((e'' = -53 /\ 2 ^ 52 <= Zpos m'') \/ e'' = -52).
Proof.
  intros HV Hd He. unfold binary_round_aux, shr_fexp.
  rewrite Hd. change (fexp prec emax 0) with (-53).
  rewrite shr_nat by lia. cbn [shr_record_of_loc].
  set (mrs' := Nat.iter _ shr_1 _).
  assert (Hm1 : shr_m mrs' = V / 2 ^ (-53 - e)).
  { unfold mrs'. rewrite shr_iter_m by (cbn [shr_m]; lia).
    cbn [shr_m]. rewrite Z2Nat.id by lia. reflexivity. }
  pose proof (Zdigits2_bounds V HV) as (Hlow & Hhigh).
  replace (Zdigits2 V) with (- e) in Hlow, Hhigh by lia.
  assert (Hpow : 0 < 2 ^ (-53 - e)) by (apply Z.pow_pos_nonneg; lia).
  assert (Hbounds : 2 ^ 52 <= shr_m mrs' < 2 ^ 53).
  { rewrite Hm1. split.
    - apply Z.div_le_lower_bound; [ exact Hpow | ].
      rewrite <- Z.pow_add_r by lia. replace (-53 - e + 52) with (- e - 1) by lia.
      exact Hlow.
    - apply Z.div_lt_upper_bound; [ exact Hpow | ].
      rewrite <- Z.pow_add_r by lia. replace (-53 - e + 53) with (- e) by lia.
      exact Hhigh. }
  replace (e + (-53 - e)) with (-53) by lia.
  set (m2 := round_nearest_even (shr_m mrs') (loc_of_shr_record mrs')).
  assert (Hm2 : 2 ^ 52 <= m2 < 2 ^ 53 \/ m2 = 2 ^ 53).
  { unfold m2. destruct (round_nearest_even_cases (shr_m mrs') (loc_of_shr_record mrs'))
      as [-> | ->]; lia. }
  destruct Hm2 as [Hm2 | Hm2].
  - assert (Hdigits : Zdigits2 m2 = 53) by (apply Zdigits2_unique; [ exact Hm2 | lia ]).
    rewrite Hdigits. change (fexp prec emax (53 + -53) - -53) with 0.
    cbn [shr shr_m shr_record_of_loc].
    destruct m2 as [ | p | p]; try lia.
    exists p, (-53). split; [ reflexivity | left; split; [ reflexivity | lia ] ].
  - rewrite Hm2. exists (2 ^ 52)%positive, (-52). split; [ reflexivity | right; reflexivity ].
Qed.

(** [1 - p] for a positive [p] with an exponent of -52 at most. *)
Lemma one_minus_finite (m : positive) (e : Z) :
  e <= -52 ->
  SF64sub (Prim2SF 1) (S754_finite false m e)
  = binary_normalize prec emax (2 ^ (- e) - Zpos m) e false.
Proof.
  intros He.
  change (Prim2SF 1) with (S754_finite false 4503599627370496 (-52)).
  unfold SF64sub, SFsub. cbn [cond_Zopp]. rewrite Z.min_r by lia.
  rewrite shl_align_down by lia. rewrite shl_align_up by lia. cbn [fst].
  assert (Hpow : 0 < 2 ^ (-52 - e)) by (apply Z.pow_pos_nonneg; lia).
  rewrite Z2Pos.id by lia.
  change (Zpos 4503599627370496) with (2 ^ 52).
  rewrite <- Z.pow_add_r by lia. replace (52 + (-52 - e)) with (- e) by lia.
  reflexivity.
Qed.

(** A valid mantissa has 53 digits at most, and its exponent is the
    canonical one. *)
Lemma valid_finite (x : float) (s : bool) (m : positive) (e : Z) :
  Prim2SF x = S754_finite s m e ->
  Z.max (Zpos (digits2_pos m) + e - 53) (-1074) = e /\ Zpos m < 2 ^ 53.
Proof.
  intros Hx. pose proof (Prim2SF_valid x) as Hvalid. rewrite Hx in Hvalid.
  unfold valid_binary, bounded, canonical_mantissa in Hvalid.
  apply andb_true_iff in Hvalid as (Hcanonical & _).
  apply Z.eqb_eq in Hcanonical. rewrite fexp64 in Hcanonical.
  split; [ exact Hcanonical | ].
  pose proof (digits2_pos_bounds m) as (_ & Hhigh).
  assert (Hd : Zpos (digits2_pos m) <= 53) by lia.
  assert (2 ^ Zpos (digits2_pos m) <= 2 ^ 53) by (apply Z.pow_le_mono_r; lia). lia.
Qed.

(** The numbers of (0, 0.5). *)
Lemma below_half (p : float) :
  (0 <? p)%float = true -> (p <? 0.5)%float = true ->
  exists m e, Prim2SF p = S754_finite false m e /\ e <= -54 /\ Zpos m < 2 ^ 53.
Proof.
  intros Hpos Hhalf.
  apply ltb_key in Hpos as (k0 & kp & H0 & Hp & Hlt0).
  apply ltb_key in Hhalf as (kp' & kh & Hp' & Hh & Hlth).
  rewrite Hp in Hp'. injection Hp' as <-.
  change (Prim2SF 0) with (S754_zero false) in H0.
  change (Prim2SF 0.5) with (S754_finite false 4503599627370496 (-53)) in Hh.
  cbn [key] in H0, Hh. injection H0 as <-. injection Hh as <-.
  destruct (Prim2SF p) as [ s | s | | s m e ] eqn:Hsf; cbn [key] in Hp;
    try discriminate; try (destruct s; injection Hp as <-; cbn [lexlt] in *; lia).
  destruct (valid_finite p s m e Hsf) as (Hcanonical & Hm).
  destruct s; injection Hp as <-; cbn [lexlt] in *; [ lia | ].
  exists m, e. split; [ reflexivity | ]. split; [ | exact Hm ].
  destruct (Z.le_gt_cases e (-54)) as [ | He]; [ assumption | exfalso ].
  assert (He' : e = -53 /\ Zpos m < 2 ^ 52) by lia. destruct He' as (-> & Hsmall).
  pose proof (digits2_pos_bounds m) as (Hlow & _).
  assert (Hd : Zpos (digits2_pos m) <= 52).
  { destruct (Z.le_gt_cases (Zpos (digits2_pos m)) 52) as [ | Hgt]; [ assumption | ].
    assert (2 ^ 52 <= 2 ^ (Zpos (digits2_pos m) - 1)) by (apply Z.pow_le_mono_r; lia).
    lia. }
  lia.
Qed.

(** The numbers of (0.5, 1). *)
Lemma above_half (p : float) :
  (0.5 <? p)%float = true -> (p <? 1)%float = true ->
  exists m, Prim2SF p = S754_finite false m (-53) /\ 2 ^ 52 < Zpos m < 2 ^ 53.
Proof.
  intros Hhalf Hone.
  apply ltb_key in Hhalf as (kh & kp & Hh & Hp & Hlth).
  apply ltb_key in Hone as (kp' & k1 & Hp' & H1 & Hlt1).
  rewrite Hp in Hp'. injection Hp' as <-.
  change (Prim2SF 1) with (S754_finite false 4503599627370496 (-52)) in H1.
  change (Prim2SF 0.5) with (S754_finite false 4503599627370496 (-53)) in Hh.
  cbn [key] in H1, Hh. injection H1 as <-. injection Hh as <-.
  destruct (Prim2SF p) as [ s | s | | s m e ] eqn:Hsf; cbn [key] in Hp;
    try discriminate; try (destruct s; injection Hp as <-; cbn [lexlt] in *; lia).
  destruct (valid_finite p s m e Hsf) as (Hcanonical & Hm).
  destruct s; injection Hp as <-; cbn [lexlt] in *; [ lia | ].
  assert (He : e = -53).
  { destruct (Z.eq_dec e (-53)) as [ | Hne]; [ assumption | exfalso ].
    assert (He' : e = -52 /\ Zpos m < 2 ^ 52) by lia. destruct He' as (-> & Hsmall).
    pose proof (digits2_pos_bounds m) as (Hlow & _).
    assert (Hd : Zpos (digits2_pos m) <= 52).
    { destruct (Z.le_gt_cases (Zpos (digits2_pos m)) 52) as [ | Hgt]; [ assumption | ].
      assert (2 ^ 52 <= 2 ^ (Zpos (digits2_pos m) - 1)) by (apply Z.pow_le_mono_r; lia).
      lia. }
    lia. }
  subst e. exists m. split; [ reflexivity | lia ].
Qed.

(** For [p] in (0, 0.5) the difference [1 - p] is 0.5 at least. *)
Lemma one_minus_below_half (p : float) :
  (0 <? p)%float = true -> (p <? 0.5)%float = true -> (1 - p <? 0.5)%float = false.
Proof.
  intros Hpos Hhalf.
  destruct (below_half p Hpos Hhalf) as (m & e & Hsf & He & Hm).
  assert (Hpow : 2 ^ 53 <= 2 ^ (- e - 1)) by (apply Z.pow_le_mono_r; lia).
  assert (Hdouble : 2 ^ (- e) = 2 * 2 ^ (- e - 1)).
  { replace (- e) with (Z.succ (- e - 1)) at 1 by lia. apply Z.pow_succ_r. lia. }
  set (V := 2 ^ (- e) - Zpos m).
  assert (HV : 0 < V) by (unfold V; lia).
  assert (Hdigits : Zdigits2 V = - e)
    by (apply Zdigits2_unique; [ unfold V; lia | exact HV ]).
  assert (Hsub : Prim2SF (1 - p)
                 = binary_round_aux prec emax false V e loc_Exact).
  { rewrite sub_spec, Hsf, one_minus_finite by lia. fold V.
    destruct V as [ | M | M] eqn:HM; try lia.
    unfold binary_normalize, binary_round.
    change (Zpos (digits2_pos M)) with (Zdigits2 (Zpos M)). rewrite Hdigits.
    replace (- e + e) with 0 by lia. change (fexp prec emax 0) with (-53).
    rewrite shl_align_up by lia. reflexivity. }
  destruct (round_aux_half V e HV) as (m'' & e'' & Hround & Hlower); [ lia | lia | ].
  rewrite Hround in Hsub.
  destruct (1 - p <? 0.5)%float eqn:Hlt; [ exfalso | reflexivity ].
  apply ltb_key in Hlt as (ka & kb & Ha & Hb & Hlex).
  rewrite Hsub in Ha.
  change (Prim2SF 0.5) with (S754_finite false 4503599627370496 (-53)) in Hb.
  cbn [key] in Ha, Hb. injection Ha as <-. injection Hb as <-.
  cbn [lexlt] in Hlex. lia.
Qed.

(** For [p] in (0.5, 1) the difference [1 - p] is exact: it lies in
    (0, 0.5) and [1 - (1 - p)] is [p] again. *)
Lemma one_minus_above_half (p : float) :
  (0.5 <? p)%float = true -> (p <? 1)%float = true ->
  (1 - p <=? 0)%float = false /\ (1 <=? 1 - p)%float = false
  /\ (1 - p =? 0.5)%float = false /\ (1 - p <? 0.5)%float = true
  /\ (1 - (1 - p))%float = p.
Proof.
  intros Hhalf Hone.
  destruct (above_half p Hhalf Hone) as (m & Hsf & Hm).
  set (V := 2 ^ 53 - Zpos m).
  assert (HV : 0 < V < 2 ^ 52) by (unfold V; lia).
  set (d := Zdigits2 V).
  assert (Hd : 0 < d <= 52).
  { split; [ apply Zdigits2_pos; lia | ].
    pose proof (Zdigits2_bounds V (proj1 HV)) as (Hlow & _). fold d in Hlow.
    destruct (Z.le_gt_cases d 52) as [ | Hgt]; [ assumption | ].
    assert (2 ^ 52 <= 2 ^ (d - 1)) by (apply Z.pow_le_mono_r; lia). lia. }
  assert (Hshift : 0 < 2 ^ (53 - d)) by (apply Z.pow_pos_nonneg; lia).
  set (mz := Z.to_pos (V * 2 ^ (53 - d))).
  assert (Hmz : Zpos mz = V * 2 ^ (53 - d)) by (unfold mz; apply Z2Pos.id; nia).
  assert (Hq : Prim2SF (1 - p) = S754_finite false mz (d - 106)).
  { rewrite sub_spec, Hsf, one_minus_finite by lia. change (2 ^ (- -53)) with (2 ^ 53).
    fold V.
    rewrite normalize_exact_up; fold d; rewrite ?fexp64; try lia.
    replace (Z.max (d + -53 - 53) (-1074)) with (d - 106) by lia.
    replace (-53 - (d - 106)) with (53 - d) by lia. reflexivity. }
  repeat split.
  - destruct (1 - p <=? 0)%float eqn:E; [ exfalso | reflexivity ].
    apply leb_key in E as (ka & kb & Ha & Hb & Hle). rewrite Hq in Ha.
    change (Prim2SF 0) with (S754_zero false) in Hb. cbn [key] in Ha, Hb.
    injection Ha as <-. injection Hb as <-. destruct Hle as [[=] | Hle].
    cbn [lexlt] in Hle. lia.
  - destruct (1 <=? 1 - p)%float eqn:E; [ exfalso | reflexivity ].
    apply leb_key in E as (ka & kb & Ha & Hb & Hle). rewrite Hq in Hb.
    change (Prim2SF 1) with (S754_finite false 4503599627370496 (-52)) in Ha.
    cbn [key] in Ha, Hb. injection Ha as <-. injection Hb as <-.
    destruct Hle as [[= ? ?] | Hle]; [ lia | ]. cbn [lexlt] in Hle. lia.
  - destruct (1 - p =? 0.5)%float eqn:E; [ exfalso | reflexivity ].
    apply eqb_key in E as (k & Ha & Hb). rewrite Hq in Ha.
    change (Prim2SF 0.5) with (S754_finite false 4503599627370496 (-53)) in Hb.
    cbn [key] in Ha, Hb. rewrite <- Ha in Hb. injection Hb as ? ?. lia.
  - apply ltb_key. rewrite Hq.
    change (Prim2SF 0.5) with (S754_finite false 4503599627370496 (-53)).
    cbn [key]. eexists _, _. split; [ reflexivity | split; [ reflexivity | ] ].
    cbn [lexlt]. lia.
  - apply Prim2SF_inj. rewrite sub_spec, Hq, one_minus_finite by lia.
    rewrite Hmz, Hsf.
    replace (- (d - 106)) with (53 + (53 - d)) by lia. rewrite Z.pow_add_r by lia.
    replace (2 ^ 53 * 2 ^ (53 - d) - V * 2 ^ (53 - d)) with (Zpos m * 2 ^ (53 - d))
      by (unfold V; lia).
    assert (Hdigits : Zdigits2 (Zpos m * 2 ^ (53 - d)) = 53 + (53 - d)).
    { rewrite Zdigits2_mul_pow2 by lia. f_equal.
      apply Zdigits2_unique; [ | lia ]. change (53 - 1) with 52. lia. }
    erewrite (normalize_exact_down _ (Zpos m)); rewrite ?Hdigits, ?fexp64; try lia.
    + f_equal. lia.
    + f_equal. f_equal. lia.
Qed.

Local Close Scope Z_scope.

(** *** Negation and order with non-strict bounds *)

Lemma opp_involutive (x : float) : - - x = x.
Proof.
  apply Prim2SF_inj. rewrite !opp_spec.
  destruct (Prim2SF x) as [ s | s | | s m e ]; cbn [SFopp];
    rewrite ?negb_involutive; reflexivity.
Qed.

Lemma sameNumber_refl (x : float) : sameNumber x x = true.
Proof. unfold sameNumber, Number.isNaN. destruct (x =? x); reflexivity. Qed.

(** A number that is not NaN and not at most [y] is above [y]; [x < z]
    and [y <= y] only say that [x] and [y] are not NaN. *)
Lemma ltb_of_not_leb (x y z : float) :
  (x <? z) = true -> (y <=? y) = true -> (x <=? y) = false -> (y <? x) = true.
Proof.
  intros Hx Hy Hle.
  apply ltb_key in Hx as (a & ? & Ha & _ & _).
  apply leb_key in Hy as (b & ? & Hb & _ & _).
  apply ltb_key. exists b, a. repeat split; try assumption.
  destruct (lex_spec a b) as [E | H | H]; [ | | exact H ].
  - assert (E' : (x <=? y) = true) by (apply leb_key; exists a, b; auto). congruence.
  - assert (E' : (x <=? y) = true) by (apply leb_key; exists a, b; auto). congruence.
Qed.

(** ** [Look] *)

Module LookFacts.
Import RainUtils.

Section WithHost.
Variable host : Host.

(** A call at [q >= 0.5] makes no further call. *)
Lemma Look_depth_leaf (depth : nat) (q : float) :
  (q <? 0.5) = false -> Look_depth host (S depth) q = Look_depth host 1 q.
Proof.
  intros Hq. cbn [Look_depth]. rewrite Hq. reflexivity.
Qed.

(** The call [Look(1 - p)] made at [p < 0.5] is such a call. *)
Lemma Look_depth_below_half (depth : nat) (p : float) :
  ((p <=? 0) || (1 <=? p)) = false -> (p <? 0.5) = true ->
  Look_depth host (S depth) (1 - p) = Look_depth host 1 (1 - p).
Proof.
  intros Hguard Hhalf. apply Look_depth_leaf.
  apply orb_false_iff in Hguard as (Hpos & _).
  apply one_minus_below_half; [ | exact Hhalf ].
  apply (ltb_of_not_leb p 0 0.5); [ exact Hhalf | reflexivity | exact Hpos ].
Qed.

(** Two levels of calls always suffice: [Look] returns, and with any
    deeper stack it returns the same number. *)
Lemma Look_depth_enough (depth : nat) (p : float) :
  (2 <= depth)%nat -> Look_depth host depth p = Some (Look host p).
Proof.
  intros Hdepth. destruct depth as [ | [ | depth]]; try lia.
  unfold Look. cbn [Look_depth].
  destruct ((p <=? 0) || (1 <=? p)) eqn:Hguard; [ reflexivity | ].
  destruct (p =? 0.5); [ reflexivity | ].
  destruct (p <? 0.5) eqn:Hhalf; [ | reflexivity ].
  pose proof (Look_depth_below_half depth p Hguard Hhalf) as Hcall.
  cbn [Look_depth] in Hcall. rewrite Hcall.
  rewrite (one_minus_below_half p); [ | | exact Hhalf ].
  - destruct ((1 - p <=? 0) || (1 <=? 1 - p)); [ reflexivity | ].
    destruct (1 - p =? 0.5); reflexivity.
  - apply orb_false_iff in Hguard as (Hpos & _).
    apply (ltb_of_not_leb p 0 0.5); [ exact Hhalf | reflexivity | exact Hpos ].
Qed.


(** [Look] at [p < 0.5] is the negated [Look] at [1 - p]. *)
Lemma Look_below_half (p : float) :
  (0 <? p) = true -> (p <? 0.5) = true -> Look host p = - Look host (1 - p).
Proof.
  intros Hpos Hhalf.
  assert (Hguard : ((p <=? 0) || (1 <=? p)) = false).
  { apply orb_false_iff. split.
    - destruct (p <=? 0) eqn:E; [ | reflexivity ].
      assert (Hcontra : (0 <? 0) = true) by (apply (ltb_leb_trans 0 p 0); assumption).
      discriminate.
    - destruct (1 <=? p) eqn:E; [ | reflexivity ].
      assert (Hcontra : (1 <? 0.5) = true)
        by (apply ltb_asym in Hhalf;
            assert (H1 : (0.5 <? 1) = true) by reflexivity;
            pose proof (ltb_leb_trans 0.5 1 p H1 E) as H2; congruence).
      discriminate. }
  assert (Hne : (p =? 0.5) = false).
  { destruct (p =? 0.5) eqn:E; [ | reflexivity ].
    apply eqb_key in E as (k & Ha & Hb).
    apply ltb_key in Hhalf as (a & b & Ha' & Hb' & Hlt).
    rewrite Ha in Ha'. rewrite Hb in Hb'. lex_lia. }
  unfold Look at 1. cbn [Look_depth]. rewrite Hguard, Hne, Hhalf.
  pose proof (Look_depth_enough 2 (1 - p) (le_n 2)) as Hq.
  pose proof (Look_depth_below_half 1 p Hguard Hhalf) as Hcall.
  rewrite Hcall in Hq. cbn [Look_depth] in Hq. cbn [Look_depth]. rewrite Hq.
  reflexivity.
Qed.

(** [Look] at [p > 0.5] is the negated [Look] at [1 - p] as well. *)
Lemma Look_above_half (p : float) :
  (0.5 <? p) = true -> (p <? 1) = true -> Look host p = - Look host (1 - p).
Proof.
  intros Hhalf Hone.
  destruct (one_minus_above_half p Hhalf Hone) as (Hq0 & Hq1 & Hqne & Hqlt & Hback).
  assert (Hqpos : (0 <? 1 - p) = true)
    by (apply (ltb_of_not_leb (1 - p) 0 0.5); [ exact Hqlt | reflexivity | exact Hq0 ]).
  pose proof (Look_below_half (1 - p) Hqpos Hqlt) as Hq.
  rewrite Hback in Hq. rewrite Hq, opp_involutive. reflexivity.
Qed.

(** C4, as amended: [Look] returns NaN for [p <= 0] and for [p >= 1]
    and 0 at 0.5; for every [p] of (0, 1), [Look(p)] and [-Look(1 - p)]
    are the same number, equal under [==] or both NaN; they are NaN when
    [1 - p] rounds to 1.  [Look] always returns, with two nested calls at
    most. *)
Theorem Look_antisymmetry :
  (forall p, ((p <=? 0) || (1 <=? p)) = true -> Look host p = nan)
  /\ Look host 0.5 = 0
  /\ (forall p, (0 <? p) = true -> (p <? 1) = true ->
        sameNumber (Look host p) (- Look host (1 - p)) = true)
  /\ (forall p, (0 <? p) = true -> (p <? 0.5) = true -> (1 <=? 1 - p) = true ->
        Look host p = nan /\ - Look host (1 - p) = nan)
  /\ (forall depth p, (2 <= depth)%nat -> Look_depth host depth p = Some (Look host p)).
Proof.
  split; [ | split; [ | split; [ | split ] ] ].
  - intros p Hguard. unfold Look. cbn [Look_depth]. rewrite Hguard. reflexivity.
  - reflexivity.
  - intros p Hpos Hone.
    destruct (p =? 0.5) eqn:Heq.
    + assert (Hp : p = 0.5).
      { apply Prim2SF_inj. apply eqb_key in Heq as (k & Ha & Hb).
        change (Prim2SF 0.5) with (S754_finite false 4503599627370496 (-53)) in *.
        cbn [key] in Hb. injection Hb as <-.
        destruct (Prim2SF p) as [ s | s | | s m e ]; cbn [key] in Ha;
          try discriminate; try (destruct s; discriminate).
        destruct s; injection Ha as ? ?; [ lia | ]. subst. reflexivity. }
      subst p. reflexivity.
    + destruct (p <? 0.5) eqn:Hhalf.
      * rewrite <- (Look_below_half p Hpos Hhalf). apply sameNumber_refl.
      * rewrite <- (Look_above_half p); [ apply sameNumber_refl | | exact Hone ].
        apply (ltb_total 0 p 0.5 0.5); [ exact Hpos | reflexivity | exact Hhalf | exact Heq ].
  - intros p Hpos Hhalf Hround.
    assert (Hq : Look host (1 - p) = nan).
    { unfold Look. cbn [Look_depth]. rewrite Hround, orb_true_r. reflexivity. }
    rewrite (Look_below_half p Hpos Hhalf), Hq. split; reflexivity.
  - apply Look_depth_enough.
Qed.

End WithHost.

(** C4, as stated, fails at p = 1e-20: [1 - p] rounds to 1, [Look(p)] is
    NaN and [==] does not hold between NaN and NaN. *)
Lemma tiny_probability_breaks_antisymmetry :
  (0 <? 1e-20, 1e-20 <? 1, 1 - 1e-20,
   Look SampleHost.host 1e-20,
   Look SampleHost.host 1e-20 =? - Look SampleHost.host (1 - 1e-20))
  = (true, true, 1, nan, false).
Proof. vm_compute. reflexivity. Qed.

End LookFacts.

(** ** Frequency analysis *)

Module FreqFacts.
Import FrequencyAnalysis.

Section WithHost.
Variable host : Host.

(** The loop of [statistics] keeps the two sums apart: its first
    accumulator is the sum of the squared deviations. *)
Lemma sumDiffs_squares mean X :
  fst (RainUtils.sumDiffs host mean X) = sumSquares host mean X.
Proof.
  unfold RainUtils.sumDiffs, sumSquares.
  generalize 0 at 1 3 as sq. generalize 0 as cu. revert X.
  induction X as [ | val X IH]; intros cu sq; cbn [fold_left]; [ reflexivity | ].
  apply IH.
Qed.

(** The mean and the standard deviation that [statistics] reports. *)
Lemma statistics_moments y :
  RainUtils.M (RainUtils.statistics host y)
  = (if (length y =? 0)%nat then 0 else sampleMean y)
  /\ RainUtils.SD (RainUtils.statistics host y)
     = (if (1 <? length y)%nat then sampleStd host y else 0).
Proof.
  unfold RainUtils.statistics.
  destruct (Nat.eqb_spec (length y) 0) as [Hn | Hn].
  - rewrite Hn. split; reflexivity.
  - unfold RainUtils.summary.
    pose proof (sumDiffs_squares (sampleMean y) y) as Hsq.
    unfold sampleMean in Hsq at 1.
    destruct (RainUtils.sumDiffs host _ y) as [sumSqDiff sumCubeDiff].
    cbn [fst] in Hsq. cbn [RainUtils.M RainUtils.SD]. split; [ reflexivity | ].
    destruct (1 <? length y)%nat; [ | reflexivity ].
    unfold sampleStd. rewrite Hsq. reflexivity.
Qed.

(** C5: for the Normal distribution [freq] returns
    [Kt = Look(1 - 1/T)] and [Qest = mean + Kt * std], where [mean] and
    [std] are the mean and the (n - 1)-denominator standard deviation of
    the sample itself (0 for an empty sample, and [std = 0] for a sample of
    one value, as [statistics] has it). *)
Theorem freq_normal y T :
  let Kt := RainUtils.Look host (1 - 1.0 / T) in
  let mean := if (length y =? 0)%nat then 0 else sampleMean y in
  let std := if (1 <? length y)%nat then sampleStd host y else 0 in
  freq host DistributionType.Normal y T
  = Returned {| Kt := Kt; Qest := mean + Kt * std |}.
Proof.
  cbn zeta. unfold freq, estimate.
  change (requiresLog DistributionType.Normal) with false. cbn match.
  change (DistributionType.Normal =? DistributionType.Normal)%Z with true. cbn match.
  unfold _calculateNormal.
  destruct (statistics_moments y) as (-> & ->). reflexivity.
Qed.


(** [Look] at the cumulative probability of T = 1. *)
Lemma Look_at_T1 : RainUtils.Look host (1 - 1.0 / 1) = nan.
Proof. reflexivity. Qed.

Lemma Extreme_at_T1 : RainUtils.Extreme host 1 = neg_infinity.
Proof. reflexivity. Qed.

(** The Wilson-Hilferty expression of [_calculatePearsonType3] at a NaN
    variate. *)
Lemma calculatePearsonType3_nan mean std cs tau :
  _calculatePearsonType3 mean std cs nan tau = {| Kt := nan; Qest := nan |}.
Proof.
  unfold _calculatePearsonType3. cbn zeta.
  rewrite !add_nan_l, !sub_nan_l, !add_nan_l, mul_nan_r, add_nan_r, add_nan_l.
  reflexivity.
Qed.

(** C10: at the return period T = 1 [freq] returns, with [Kt] and
    [Qest] NaN for Normal, LogNormal, PearsonIII and LogPearsonIII, and
    with [Kt] -Infinity for ExtremeValueI. *)
Theorem freq_at_T1 y :
  freq host DistributionType.Normal y 1 = Returned {| Kt := nan; Qest := nan |}
  /\ freq host DistributionType.LogNormal y 1 = Returned {| Kt := nan; Qest := nan |}
  /\ freq host DistributionType.PearsonType3 y 1 = Returned {| Kt := nan; Qest := nan |}
  /\ freq host DistributionType.LogPearsonType3 y 1
     = Returned {| Kt := nan; Qest := nan |}
  /\ exists q, freq host DistributionType.ExtremeValueType1 y 1
               = Returned {| Kt := neg_infinity; Qest := q |}.
Proof.
  unfold freq, estimate. cbn zeta. rewrite Look_at_T1.
  repeat split.
  - cbn. unfold _calculateNormal. rewrite mul_nan_l, add_nan_r. reflexivity.
  - cbn. unfold _calculateLogNormal, _calculateNormal. cbn.
    rewrite mul_nan_l, add_nan_r. reflexivity.
  - cbn. rewrite calculatePearsonType3_nan. reflexivity.
  - cbn. unfold _calculateLogPearsonType3. rewrite calculatePearsonType3_nan. reflexivity.
  - cbn -[RainUtils.Extreme]. unfold _calculateExtremeValueType1.
    rewrite Extreme_at_T1. eexists. reflexivity.
Qed.

End WithHost.

(** *** The three Wilson-Hilferty frequency factors *)

(** The expression of the two [_getPearson3Kt] at a NaN variate. *)
Lemma ChiSquare_getPearson3Kt_nan skew : ChiSquareTest._getPearson3Kt nan skew = nan.
Proof.
  unfold ChiSquareTest._getPearson3Kt. cbn zeta.
  rewrite !add_nan_l, !sub_nan_l, !add_nan_l. reflexivity.
Qed.

(** Over [binary64] the expressions of [WilsonHilferty] are the functions
    of the sources. *)
Lemma calculatePearsonType3_binary64 mean std cs z tau :
  Kt (_calculatePearsonType3 mean std cs z tau)
  = WilsonHilferty._calculatePearsonType3_Kt binary64 cs z.
Proof. reflexivity. Qed.

Lemma ChiSquare_getPearson3Kt_binary64 z skew :
  ChiSquareTest._getPearson3Kt z skew = WilsonHilferty._getPearson3Kt binary64 z skew.
Proof. reflexivity. Qed.

Lemma KSTest_getPearson3Kt_ChiSquare z skew :
  KSTest._getPearson3Kt z skew = ChiSquareTest._getPearson3Kt z skew.
Proof.
  unfold KSTest._getPearson3Kt.
  destruct (Number.isNaN z) eqn:Hz; [ | reflexivity ].
  apply isNaN_spec in Hz. subst z. symmetry. apply ChiSquare_getPearson3Kt_nan.
Qed.




End FreqFacts.

(** ** The KS test *)

Module KSFacts.
Import KSTest.

Lemma for_each_app {S : Type} (body : nat -> S -> outcome S) (l1 l2 : list nat) :
  forall s, for_each body (l1 ++ l2) s
            = s' <- for_each body l1 s ;; for_each body l2 s'.
Proof.
  induction l1 as [ | i l1 IH]; intros s; cbn [app for_each bind]; [ reflexivity | ].
  destruct (body i s) as [s1 | m]; cbn [bind]; [ apply IH | reflexivity ].
Qed.

Lemma nth_snoc_last {A : Type} (l : list A) (x d : A) (j : nat) :
  length l = j -> nth j (l ++ [x]) d = x.
Proof. intros <-. rewrite app_nth2 by lia. rewrite Nat.sub_diag. reflexivity. Qed.

Lemma existsb_agree {A : Type} (f g : A -> bool) (l : list A) :
  (forall x, In x l -> f x = g x) -> existsb f l = existsb g l.
Proof.
  induction l as [ | x l IH]; intros H; cbn [existsb]; [ reflexivity | ].
  rewrite H by (left; reflexivity). rewrite IH; [ reflexivity | ].
  intros y Hy. apply H. right. exact Hy.
Qed.

Lemma markOf_spec observed low high :
  markOf observed low high = (expectedMark observed low high, violation observed low high).
Proof.
  unfold markOf, expectedMark, violation, belowBand, aboveBand.
  destruct (negb (Number.isNaN low) && (observed <? low));
    destruct (negb (Number.isNaN high) && (high <? observed)); reflexivity.
Qed.

Lemma sorted_by_length compare (arr : list float) :
  length (Array.sorted_by compare arr) = length arr.
Proof.
  assert (Hins : forall a l, length (Array.insert compare a l) = S (length l)).
  { intros a l. induction l as [ | b l IH]; cbn [Array.insert length]; [ reflexivity | ].
    destruct (0 <? compare a b); cbn [length]; congruence. }
  induction arr as [ | a arr IH]; cbn [Array.sorted_by fold_right length]; [ reflexivity | ].
  fold (Array.sorted_by compare arr). rewrite Hins, IH. reflexivity.
Qed.

Section WithHost.
Variable host : Host.

(** What one iteration appends. *)
Lemma rankStep_returned d N sortedData mean std skew i s s' :
  rankStep host d N sortedData mean std skew i s = Returned s' ->
  exists zEst zLow zHigh px,
    obs s' = obs s /\ Ca s' = Ca s
    /\ est s' = est s ++ [zEst] /\ prob s' = prob s ++ [px]
    /\ lowerBound s' = lowerBound s ++ [zLow] /\ upperBound s' = upperBound s ++ [zHigh]
    /\ mark s' = mark s ++ [expectedMark (Array.get sortedData (i - 1)) zLow zHigh]
    /\ fitted s' = (if violation (Array.get sortedData (i - 1)) zLow zHigh
                    then false else fitted s).
Proof.
  unfold rankStep. cbn zeta.
  destruct (bounds host d mean std skew _ _ _) as [[[zEst zLow] zHigh] | m];
    cbn [bind]; [ | discriminate ].
  destruct (requiresLog d); rewrite markOf_spec; intros [= <-]; cbn;
    eexists _, _, _, _; repeat split; reflexivity.
Qed.

(** Once [fitted] is false an iteration leaves it false. *)
Lemma rankStep_keeps_unfitted d N sortedData mean std skew i s s' :
  rankStep host d N sortedData mean std skew i s = Returned s' ->
  fitted s = false -> fitted s' = false.
Proof.
  intros H Hs. apply rankStep_returned in H as (? & zLow & zHigh & ? & H).
  destruct H as (_ & _ & _ & _ & _ & _ & _ & ->).
  rewrite Hs. destruct (violation _ _ _); reflexivity.
Qed.

Lemma rankLoop_keeps_unfitted d N sortedData mean std skew ranks : forall s s',
  for_each (rankStep host d N sortedData mean std skew) ranks s = Returned s' ->
  fitted s = false -> fitted s' = false.
Proof.
  induction ranks as [ | i ranks IH]; intros s s' H Hs; cbn [for_each] in H.
  - injection H as <-. exact Hs.
  - destruct (rankStep host d N sortedData mean std skew i s) as [s1 | m] eqn:Hstep;
      cbn [bind] in H; [ | discriminate ].
    apply (IH s1 s' H). eapply rankStep_keeps_unfitted; eassumption.
Qed.

(** The state after the ranks 1..j. *)
Lemma ranks_invariant d N sortedData mean std skew s0 j : forall s,
  lowerBound s0 = [] -> upperBound s0 = [] -> mark s0 = [] -> fitted s0 = true ->
  obs s0 = sortedData ->
  for_each (rankStep host d N sortedData mean std skew) (seq 1 j) s0 = Returned s ->
  obs s = sortedData
  /\ length (lowerBound s) = j /\ length (upperBound s) = j /\ length (mark s) = j
  /\ (forall i, (i < j)%nat ->
        nth i (mark s) EmptyString
        = expectedMark (Array.get (obs s) i) (Array.get (lowerBound s) i)
            (Array.get (upperBound s) i))
  /\ fitted s = negb (someViolation s j).
Proof.
  intros s Hl Hu Hm Hf Ho. revert s.
  induction j as [ | j IH]; intros s H.
  - cbn [seq for_each] in H. injection H as <-.
    rewrite Hl, Hu, Hm, Hf. repeat split; auto. intros i Hi. lia.
  - rewrite seq_S, for_each_app in H.
    destruct (for_each _ (seq 1 j) s0) as [s1 | m]; cbn [bind] in H; [ | discriminate ].
    destruct (IH s1 eq_refl) as (O1 & L1 & U1 & M1 & K1 & F1).
    cbn [for_each] in H.
    destruct (rankStep host d N sortedData mean std skew (1 + j) s1) as [s2 | m] eqn:Hstep;
      cbn [bind] in H; [ | discriminate ].
    injection H as <-.
    apply rankStep_returned in Hstep
      as (zEst & zLow & zHigh & px & O2 & _ & _ & _ & L2 & U2 & M2 & F2).
    replace (1 + j - 1)%nat with j in * by lia.
    repeat split.
    + congruence.
    + rewrite L2, length_app. cbn. lia.
    + rewrite U2, length_app. cbn. lia.
    + rewrite M2, length_app. cbn. lia.
    + intros i Hi. unfold Array.get. rewrite O2, L2, U2, M2.
      destruct (Nat.eq_dec i j) as [-> | Hne].
      * rewrite !nth_snoc_last by assumption. rewrite O1. reflexivity.
      * rewrite !app_nth1 by lia. apply K1. lia.
    + rewrite F2, F1. unfold someViolation. rewrite seq_S, existsb_app.
      cbn [existsb Nat.add]. rewrite orb_false_r.
      assert (Hprev :
        existsb (fun i => violation (Array.get (obs s2) i) (Array.get (lowerBound s2) i)
                            (Array.get (upperBound s2) i)) (seq 0 j)
        = existsb (fun i => violation (Array.get (obs s1) i) (Array.get (lowerBound s1) i)
                              (Array.get (upperBound s1) i)) (seq 0 j)).
      { apply existsb_agree. intros i Hi. apply in_seq in Hi.
        unfold Array.get. rewrite O2, L2, U2. rewrite !app_nth1 by lia. reflexivity. }
      rewrite Hprev. clear Hprev.
      assert (Hj : violation (Array.get (obs s2) j) (Array.get (lowerBound s2) j)
                     (Array.get (upperBound s2) j)
                   = violation (Array.get sortedData j) zLow zHigh).
      { unfold Array.get. rewrite O2, L2, U2, O1.
        rewrite !nth_snoc_last by assumption. reflexivity. }
      rewrite Hj.
      destruct (violation (Array.get sortedData j) zLow zHigh); [ | rewrite orb_false_r; reflexivity ].
      rewrite orb_true_r. reflexivity.
Qed.


(** C3: in a result of [runTest], [fitted] is false exactly when some
    observation lies strictly below its lower bound or strictly above its
    upper bound, the bound not being NaN; the mark is 'G' without a
    violation, '+' above the band and '-' below it (and not above); a NaN
    bound is no violation; and an iteration that finds [fitted] false
    leaves it false. *)
Theorem ks_fitted_marks this d data r :
  runTest host this d data = Returned r ->
  let N := length data in
  (length (obs r) = N /\ length (lowerBound r) = N
   /\ length (upperBound r) = N /\ length (mark r) = N)
  /\ (fitted r = false <->
      exists i, (i < N)%nat
        /\ violation (Array.get (obs r) i) (Array.get (lowerBound r) i)
             (Array.get (upperBound r) i) = true)
  /\ (forall i, (i < N)%nat ->
        nth i (mark r) EmptyString
        = expectedMark (Array.get (obs r) i) (Array.get (lowerBound r) i)
            (Array.get (upperBound r) i))
  /\ (forall observed, belowBand observed nan = false /\ aboveBand observed nan = false)
  /\ (forall N' sortedData mean std skew ranks s s',
        for_each (rankStep host d N' sortedData mean std skew) ranks s = Returned s' ->
        fitted s = false -> fitted s' = false).
Proof.
  intros H N. unfold runTest in H. fold N in H.
  destruct (N =? 0)%nat; [ discriminate | ].
  unfold rankLoop in H.
  eapply ranks_invariant in H; try reflexivity.
  destruct H as (Ho & Hl & Hu & Hm & Hmarks & Hf).
  repeat split; try assumption.
  - rewrite Ho. unfold sortDescending. apply sorted_by_length.
  - intros Hfit. rewrite Hfit in Hf. symmetry in Hf. apply negb_false_iff in Hf.
    unfold someViolation in Hf. apply existsb_exists in Hf as (i & Hi & Hv).
    apply in_seq in Hi. exists i. split; [ lia | exact Hv ].
  - intros (i & Hi & Hv). rewrite Hf. apply negb_false_iff.
    unfold someViolation. apply existsb_exists. exists i.
    split; [ apply in_seq; lia | exact Hv ].
  - intros N' sortedData mean std skew ranks s s'. apply rankLoop_keeps_unfitted.
Qed.

End WithHost.

(** The bands of ten observations, nine of them small, under the Normal
    distribution at the 95% level. *)
Lemma ks_fitted_marks_witness :
  exists r,
    runTest SampleHost.host {| confidenceLevelIndex := 2; alpha := 0.895 |}
      DistributionType.Normal [1; 2; 3; 4; 5; 6; 7; 8; 9; 1000] = Returned r
    /\ mark r = ["G"; "-"; "-"; "-"; "G"; "G"; "G"; "G"; "+"; "+"]%string
    /\ (fitted r = false <->
        exists i, (i < 10)%nat
          /\ violation (Array.get (obs r) i) (Array.get (lowerBound r) i)
               (Array.get (upperBound r) i) = true).
Proof.
  eexists. split; [ vm_compute; reflexivity | ].
  split; [ reflexivity | ].
  refine (proj1 (proj2 (ks_fitted_marks SampleHost.host
                          {| confidenceLevelIndex := 2; alpha := 0.895 |}
                          DistributionType.Normal
                          [1; 2; 3; 4; 5; 6; 7; 8; 9; 1000] _ _))).
  vm_compute. reflexivity.
Defined.

End KSFacts.

(** ** Chi-Square: the arrays of the result object *)

Module Chi2Facts.
Import ChiSquareTest.

Lemma countBin_lo data i r : lo (countBin data i r) = lo r.
Proof.
  unfold countBin. revert r.
  induction data as [ | v data IH]; intros r; cbn [fold_left]; [ reflexivity | ].
  destruct (_ && _); rewrite IH; reflexivity.
Qed.

Lemma countBin_hi data i r : hi (countBin data i r) = hi r.
Proof.
  unfold countBin. revert r.
  induction data as [ | v data IH]; intros r; cbn [fold_left]; [ reflexivity | ].
  destruct (_ && _); rewrite IH; reflexivity.
Qed.

Lemma countBin_e data i r : e (countBin data i r) = e r.
Proof.
  unfold countBin. revert r.
  induction data as [ | v data IH]; intros r; cbn [fold_left]; [ reflexivity | ].
  destruct (_ && _); rewrite IH; reflexivity.
Qed.

(** One pass over the data adds to cell [i] the number of values inside
    bin [i] and leaves the other cells alone. *)
Lemma countBin_o data i r :
  (i < length (o r))%nat ->
  length (o (countBin data i r)) = length (o r)
  /\ nth i (o (countBin data i r)) 0%nat
     = (nth i (o r) 0 + countIn (Array.get (lo r) i) (Array.get (hi r) i) data)%nat
  /\ forall j, j <> i -> nth j (o (countBin data i r)) 0%nat = nth j (o r) 0%nat.
Proof.
  unfold countBin, countIn. revert r.
  induction data as [ | v data IH]; intros r Hi; cbn [fold_left filter].
  - cbn. repeat split; auto; lia.
  - fold (inBin (Array.get (lo r) i) (Array.get (hi r) i) v).
    destruct (inBin (Array.get (lo r) i) (Array.get (hi r) i) v).
    + assert (Hlen : length (o (with_o r (increment (o r) i))) = length (o r))
        by (cbn [with_o o]; unfold increment; apply set_length; exact Hi).
      destruct (IH (with_o r (increment (o r) i))) as (IH1 & IH2 & IH3);
        [ rewrite Hlen; exact Hi | ].
      cbn [with_o o lo hi] in *.
      repeat split.
      * rewrite IH1. unfold increment. apply set_length. exact Hi.
      * rewrite IH2. unfold increment. rewrite nth_set_same by exact Hi.
        cbn [length]. lia.
      * intros j Hj. rewrite IH3 by exact Hj. unfold increment.
        apply nth_set_other; assumption.
    + apply IH. exact Hi.
Qed.

Lemma countFrequencies_lo data r k : lo (_countFrequencies data r k) = lo r.
Proof.
  unfold _countFrequencies. generalize (seq 1 (Z.to_nat k)) as bins. intros bins.
  revert r. induction bins as [ | i bins IH]; intros r; cbn [fold_left]; [ reflexivity | ].
  rewrite IH. apply countBin_lo.
Qed.

Lemma countFrequencies_hi data r k : hi (_countFrequencies data r k) = hi r.
Proof.
  unfold _countFrequencies. generalize (seq 1 (Z.to_nat k)) as bins. intros bins.
  revert r. induction bins as [ | i bins IH]; intros r; cbn [fold_left]; [ reflexivity | ].
  rewrite IH. apply countBin_hi.
Qed.

Lemma countFrequencies_e data r k : e (_countFrequencies data r k) = e r.
Proof.
  unfold _countFrequencies. generalize (seq 1 (Z.to_nat k)) as bins. intros bins.
  revert r. induction bins as [ | i bins IH]; intros r; cbn [fold_left]; [ reflexivity | ].
  rewrite IH. apply countBin_e.
Qed.

(** The passes over distinct bins, each inside the array. *)
Lemma countBins_o data bins : forall r,
  NoDup bins -> (forall i, In i bins -> (i < length (o r))%nat) ->
  let r' := fold_left (fun results i => countBin data i results) bins r in
  length (o r') = length (o r)
  /\ (forall i, In i bins ->
        nth i (o r') 0%nat
        = (nth i (o r) 0 + countIn (Array.get (lo r) i) (Array.get (hi r) i) data)%nat)
  /\ (forall j, ~ In j bins -> nth j (o r') 0%nat = nth j (o r) 0%nat).
Proof.
  induction bins as [ | b bins IH]; intros r Hnd Hin; cbn [fold_left].
  - repeat split; auto. intros i [].
  - inversion Hnd as [ | ? ? Hb Hnd']; subst.
    destruct (countBin_o data b r) as (L1 & S1 & O1); [ apply Hin; left; reflexivity | ].
    destruct (IH (countBin data b r) Hnd') as (L2 & S2 & O2).
    { intros i Hi. rewrite L1. apply Hin. right. exact Hi. }
    cbn zeta in *. repeat split.
    + rewrite L2. exact L1.
    + intros i [<- | Hi].
      * rewrite O2 by exact Hb. exact S1.
      * rewrite S2 by exact Hi. rewrite countBin_lo, countBin_hi.
        rewrite O1; [ reflexivity | ]. intros ->. contradiction.
    + intros j Hj. rewrite O2 by (intros Hj'; apply Hj; right; exact Hj').
      apply O1. intros ->. apply Hj. left. reflexivity.
Qed.

Section WithHost.
Variable host : Host.

Lemma edgeStep_o d k mean std skew r i :
  o (edgeStep host d k mean std skew r i) = o r.
Proof. unfold edgeStep. destruct (_ <? k)%Z, (1 <? i)%nat; reflexivity. Qed.

Lemma edgeStep_e d k mean std skew r i :
  e (edgeStep host d k mean std skew r i) = e r.
Proof. unfold edgeStep. destruct (_ <? k)%Z, (1 <? i)%nat; reflexivity. Qed.

Lemma edges_o d k mean std skew bins : forall r,
  o (fold_left (edgeStep host d k mean std skew) bins r) = o r.
Proof.
  induction bins as [ | i bins IH]; intros r; cbn [fold_left]; [ reflexivity | ].
  rewrite IH. apply edgeStep_o.
Qed.

Lemma edges_e d k mean std skew bins : forall r,
  e (fold_left (edgeStep host d k mean std skew) bins r) = e r.
Proof.
  induction bins as [ | i bins IH]; intros r; cbn [fold_left]; [ reflexivity | ].
  rewrite IH. apply edgeStep_e.
Qed.

(** After the first [j] iterations of the loop of [_divideIntoBins] the
    arrays have kept their lengths, [lo[1]] is untouched and the bins
    2..j are contiguous: [lo[i]] is [hi[i - 1]]. *)
Lemma edges_contiguous d k mean std skew r0 j :
  (j < length (lo r0))%nat -> length (hi r0) = length (lo r0) ->
  let r := fold_left (edgeStep host d k mean std skew) (seq 1 j) r0 in
  length (lo r) = length (lo r0) /\ length (hi r) = length (hi r0)
  /\ Array.get (lo r) 1 = Array.get (lo r0) 1
  /\ forall i, (2 <= i <= j)%nat -> Array.get (lo r) i = Array.get (hi r) (i - 1).
Proof.
  intros Hj Hlen. induction j as [ | j IH]; cbn zeta.
  - cbn [seq fold_left]. repeat split; auto. intros i Hi. lia.
  - rewrite seq_S, fold_left_app. cbn [fold_left].
    destruct IH as (L1 & L2 & B & C); [ lia | ].
    set (r := fold_left (edgeStep host d k mean std skew) (seq 1 j) r0) in *.
    replace (1 + j)%nat with (S j) by lia.
    unfold edgeStep.
    set (v := upperEdge host d mean std skew _ _). clearbody v.
    assert (Hin : (S j < length (hi r))%nat) by lia.
    assert (Hin' : (S j < length (lo r))%nat) by lia.
    destruct (Z.of_nat (S j) <? k)%Z; destruct (Nat.ltb_spec 1 (S j)) as [H1 | H1];
      cbn [with_lo with_hi lo hi]; unfold Array.get in *;
      (split; [ | split; [ | split ] ]);
      rewrite ?set_length by assumption; try assumption;
      try (rewrite nth_set_other by (assumption || lia); assumption);
      intros i Hi; try lia;
      (destruct (Nat.eq_dec i (S j)) as [-> | Hne];
       [ rewrite ?nth_set_same by assumption; reflexivity
       | rewrite ?nth_set_other by (assumption || lia); apply C; lia ]).
Qed.


(** The arrays after [_divideIntoBins]: the counter of bin [i] is the
    number of values strictly between edge [i - 1] and edge [i]. *)
Lemma fillBins_counts values stats k d r :
  fillBins host values stats k d = Returned r ->
  length (o r) = Z.to_nat (k + 1)
  /\ e r = repeat 0 (Z.to_nat (k + 1))
  /\ forall i, (1 <= i <= Z.to_nat k)%nat ->
       nth i (o r) 0%nat = countIn (edge r (i - 1)) (edge r i) values.
Proof.
  unfold fillBins.
  destruct (_createChi2Results k) as [r0 | ] eqn:Hcreate; cbn [bind]; [ | discriminate ].
  unfold _createChi2Results in Hcreate.
  destruct (Z.ltb_spec (k + 1) 0) as [ | Hk]; cbn [orb] in Hcreate; [ discriminate | ].
  destruct (2 ^ 32 <=? k + 1)%Z; [ discriminate | ].
  injection Hcreate as <-. cbn [lo hi o e with_lo].
  set (cells := Z.to_nat (k + 1)).
  set (r1 := with_lo _ _).
  set (r2 := fold_left _ _ r1).
  set (r3 := with_hi r2 _).
  intros [= <-].
  rewrite countFrequencies_e.
  assert (Ho3 : o r3 = repeat 0%nat cells).
  { unfold r3. cbn [with_hi o]. unfold r2. rewrite edges_o. reflexivity. }
  assert (He3 : e r3 = repeat 0 cells).
  { unfold r3. cbn [with_hi e]. unfold r2. rewrite edges_e. reflexivity. }
  destruct (countBins_o values (seq 1 (Z.to_nat k)) r3) as (L & Hsum & _).
  { apply seq_NoDup. }
  { intros i Hi. apply in_seq in Hi. rewrite Ho3, repeat_length. unfold cells. lia. }
  cbn zeta in L, Hsum. fold (_countFrequencies values r3 k) in L, Hsum.
  split; [ rewrite L, Ho3, repeat_length; reflexivity | ].
  split; [ exact He3 | ].
  intros i Hi.
  rewrite Hsum by (apply in_seq; lia).
  rewrite Ho3. rewrite nth_repeat. cbn [Nat.add].
  assert (Hcells : cells = S (Z.to_nat k)) by (unfold cells; lia).
  assert (Hlo1 : length (lo r1) = cells).
  { unfold r1. cbn [lo with_lo]. rewrite set_length; rewrite repeat_length; lia. }
  destruct (edges_contiguous d k (RainUtils.M stats) (RainUtils.SD stats)
              (RainUtils.Cs stats) r1 (Z.to_nat k)) as (L1 & L2 & _ & C).
  { lia. }
  { unfold r1. cbn [lo hi with_lo]. rewrite set_length; rewrite repeat_length; lia. }
  fold r2 in L1, L2, C.
  assert (Hhi2 : length (hi r2) = cells).
  { rewrite L2. unfold r1. cbn [hi with_lo]. apply repeat_length. }
  assert (Hhi3 : forall j, (j < Z.to_nat k)%nat ->
                   Array.get (hi r3) j = Array.get (hi r2) j).
  { intros j Hj. unfold r3. cbn [with_hi hi]. unfold set_at.
    destruct (Z.ltb_spec k 0); [ reflexivity | ].
    unfold Array.get. apply nth_set_other; lia. }
  f_equal.
  - unfold edge. rewrite countFrequencies_lo, countFrequencies_hi.
    destruct i as [ | [ | i]]; [ lia | reflexivity | ].
    cbn [Nat.sub]. rewrite Hhi3 by lia.
    change (lo r3) with (lo r2). rewrite C by lia. reflexivity.
  - unfold edge. rewrite countFrequencies_hi.
    destruct i; [ lia | reflexivity ].
Qed.

(** The loop of [_calculateChiSquare] writes [e] only. *)
Lemma expected_frame n k bins : forall st,
  let st' := fold_left (expectedStep host n k) bins st in
  lo (fst st') = lo (fst st) /\ hi (fst st') = hi (fst st) /\ o (fst st') = o (fst st).
Proof.
  induction bins as [ | i bins IH]; intros st; cbn [fold_left]; [ auto | ].
  destruct (IH (expectedStep host n k st i)) as (-> & -> & ->).
  destruct st as [r c]. cbn. auto.
Qed.

(** ... and every cell it has passed holds [n / intervalCount]. *)
Lemma expected_cells n k bins : forall st,
  (forall i, In i bins -> (i < length (e (fst st)))%nat) ->
  let st' := fold_left (expectedStep host n k) bins st in
  length (e (fst st')) = length (e (fst st))
  /\ forall i, In i bins \/ Array.get (e (fst st)) i = Number.of_nat n / Number.of_Z k ->
       Array.get (e (fst st')) i = Number.of_nat n / Number.of_Z k.
Proof.
  induction bins as [ | b bins IH]; intros st Hin; cbn [fold_left].
  - cbn zeta. split; [ reflexivity | ]. intros i [[] | H]. exact H.
  - assert (Hb : (b < length (e (fst st)))%nat) by (apply Hin; left; reflexivity).
    assert (Hlen : length (e (fst (expectedStep host n k st b))) = length (e (fst st))).
    { destruct st as [r c]. cbn. apply set_length. exact Hb. }
    destruct (IH (expectedStep host n k st b)) as (L & C).
    { intros i Hi. rewrite Hlen. apply Hin. right. exact Hi. }
    cbn zeta in *. split; [ congruence | ].
    intros i Hi. apply C.
    destruct (Nat.eq_dec i b) as [-> | Hne].
    + right. destruct st as [r c]. cbn. unfold Array.get. apply nth_set_same. exact Hb.
    + destruct Hi as [[-> | Hi] | Hi]; [ contradiction | left; exact Hi | right ].
      destruct st as [r c]. cbn in *. unfold Array.get in *.
      rewrite nth_set_other by assumption. exact Hi.
Qed.

(** The statistic that the loop of [_calculateChiSquare] accumulates. *)
Lemma expected_sum n k bins : forall st,
  (forall i, In i bins -> (i < length (e (fst st)))%nat) ->
  snd (fold_left (expectedStep host n k) bins st)
  = fold_left
      (fun acc i =>
         acc + Math.pow host (Number.of_nat (nth i (o (fst st)) 0%nat)
                              - Number.of_nat n / Number.of_Z k) 2
               / (Number.of_nat n / Number.of_Z k))
      bins (snd st).
Proof.
  induction bins as [ | b bins IH]; intros st Hin; cbn [fold_left]; [ reflexivity | ].
  assert (Hb : (b < length (e (fst st)))%nat) by (apply Hin; left; reflexivity).
  rewrite IH.
  - destruct st as [r c]. cbn [expectedStep fst snd with_e o e].
    unfold Array.get. rewrite nth_set_same by exact Hb. reflexivity.
  - intros i Hi. destruct st as [r c]. cbn [expectedStep fst with_e e].
    rewrite set_length by exact Hb. apply Hin. right. exact Hi.
Qed.

Lemma fold_left_agree {A B : Type} (f g : A -> B -> A) (l : list B) : forall a,
  (forall a x, In x l -> f a x = g a x) -> fold_left f l a = fold_left g l a.
Proof.
  induction l as [ | x l IH]; intros a H; cbn [fold_left]; [ reflexivity | ].
  rewrite H by (left; reflexivity). apply IH. intros a' y Hy. apply H. right. exact Hy.
Qed.

(** What [evaluate] returns, read off its last statements. *)
Lemma evaluate_returned n k ci d r0 r :
  evaluate host n k ci d r0 = Returned r ->
  let st := fold_left (expectedStep host n k) (seq 1 (Z.to_nat k)) (r0, 0) in
  lo r = lo r0 /\ hi r = hi r0 /\ o r = o r0 /\ e r = e (fst st)
  /\ ObsChi2Value r = snd st
  /\ criticalValueOf (degreesOfFreedom d k) ci = Some (EstChi2Value r)
  /\ fitted r = (ObsChi2Value r <? EstChi2Value r).
Proof.
  unfold evaluate. cbn zeta.
  destruct (expected_frame n k (seq 1 (Z.to_nat k)) (r0, 0)) as (F1 & F2 & F3).
  cbn zeta in *.
  destruct (fold_left (expectedStep host n k) (seq 1 (Z.to_nat k)) (r0, 0)) as [r1 chi2Stat].
  cbn [fst snd] in *.
  destruct (criticalValueOf (degreesOfFreedom d k) ci) as [criticalValue | ];
    [ | discriminate ].
  intros [= <-]. cbn. auto 10.
Qed.


Lemma calculateChiSquare_returned data k ci d r :
  _calculateChiSquare host data k ci d = Returned r ->
  let values := if requiresLog d then map (logOrZero host) data else data in
  exists r0,
    fillBins host values (RainUtils.statistics host values) k d = Returned r0
    /\ evaluate host (length data) k ci d r0 = Returned r.
Proof.
  unfold _calculateChiSquare, _divideIntoBins. cbn zeta.
  destruct (fillBins host _ _ k d) as [r0 | ]; cbn [bind]; [ | discriminate ].
  intros H. exists r0. auto.
Qed.

(** C7: in a result computed with [intervalCount = k] over a sample of
    size n, [expectedCount[i]] is [n / k] for every bin [i] of 1..k. *)
Theorem expected_count_uniform data k ci d r :
  _calculateChiSquare host data k ci d = Returned r ->
  forall i, (1 <= i <= Z.to_nat k)%nat ->
  Array.get (e r) i = Number.of_nat (length data) / Number.of_Z k.
Proof.
  intros H i Hi.
  apply calculateChiSquare_returned in H as (r0 & Hfill & Heval).
  apply fillBins_counts in Hfill as (_ & He0 & _).
  apply evaluate_returned in Heval as (_ & _ & _ & -> & _).
  destruct (expected_cells (length data) k (seq 1 (Z.to_nat k)) (r0, 0)) as (_ & C).
  - intros j Hj. apply in_seq in Hj. cbn [fst]. rewrite He0, repeat_length. lia.
  - apply C. left. apply in_seq. lia.
Qed.

(** C2: the degrees of freedom are [intervalCount - 1] minus the number
    of estimated parameters, at least 1; the critical value is the table
    entry of row [df - 1] when [df] is within the 20 rows and +Infinity
    beyond; the observed statistic is the sum over the bins 1..k, in this
    order and from 0, of [(o - e)^2 / e], where [o] is the number of
    (transformed) observations strictly inside the bin, as stored in
    [observedCount], and [e] is [n / intervalCount], as stored in
    [expectedCount]; [fitted] is the comparison of that sum with the
    critical value, [statistic < critical]. *)
Theorem chi2_critical_value data k ci d r :
  supported d ->
  _calculateChiSquare host data k ci d = Returned r ->
  let df := Z.max 1 (k - 1 - estimatedParameters d) in
  let values := if requiresLog d then map (logOrZero host) data else data in
  let expected := Number.of_nat (length data) / Number.of_Z k in
  let observed i := countIn (edge r (i - 1)) (edge r i) values in
  let statistic :=
    fold_left
      (fun chi2Stat i =>
         chi2Stat + Math.pow host (Number.of_nat (observed i) - expected) 2 / expected)
      (seq 1 (Z.to_nat k)) 0 in
  degreesOfFreedom d k = df
  /\ (if (df <=? 20)%Z then Chi2Table_at (df - 1) ci else Some infinity)
     = Some (EstChi2Value r)
  /\ fitted r = (ObsChi2Value r <? EstChi2Value r)
  /\ (forall i, (1 <= i <= Z.to_nat k)%nat ->
        nth i (o r) 0%nat = observed i /\ Array.get (e r) i = expected)
  /\ ObsChi2Value r = statistic
  /\ fitted r = (statistic <? EstChi2Value r).
Proof.
  intros Hd H df values expected observed statistic.
  apply calculateChiSquare_returned in H as (r0 & Hfill & Heval).
  fold values in Hfill.
  apply fillBins_counts in Hfill as (_ & He0 & Hcount).
  apply evaluate_returned in Heval as (Hlo & Hhi & Ho & He & Hobs & Hcrit & Hfit).
  assert (Hdf : degreesOfFreedom d k = df).
  { unfold df, degreesOfFreedom, estimatedParameters, supported in *.
    assert (Hcases : d = 1%Z \/ d = 2%Z \/ d = 3%Z \/ d = 4%Z \/ d = 5%Z) by lia.
    destruct Hcases as [-> | [-> | [-> | [-> | ->]]]]; cbn; f_equal; lia. }
  assert (Hedge : forall j, edge r j = edge r0 j)
    by (intros [ | j]; unfold edge; rewrite ?Hlo, ?Hhi; reflexivity).
  assert (Hin : forall i, In i (seq 1 (Z.to_nat k)) -> (i < length (e (fst (r0, 0))))%nat).
  { intros j Hj. apply in_seq in Hj. cbn [fst]. rewrite He0, repeat_length. lia. }
  assert (Hcells : forall i, (1 <= i <= Z.to_nat k)%nat ->
            nth i (o r) 0%nat = observed i /\ Array.get (e r) i = expected).
  { intros i Hi. split.
    - unfold observed. rewrite Ho, Hcount, !Hedge by lia. reflexivity.
    - destruct (expected_cells (length data) k (seq 1 (Z.to_nat k)) (r0, 0) Hin) as (_ & C).
      rewrite He. apply C. left. apply in_seq. lia. }
  assert (Hstat : ObsChi2Value r = statistic).
  { rewrite Hobs, expected_sum by exact Hin. cbn [fst snd].
    apply fold_left_agree. intros acc i Hi. apply in_seq in Hi.
    destruct (Hcells i) as (Hoi & _); [ lia | ].
    rewrite <- Ho, Hoi. reflexivity. }
  split; [ exact Hdf | ].
  split.
  { rewrite Hdf in Hcrit. unfold criticalValueOf in Hcrit.
    replace (0 <? df)%Z with true in Hcrit by (symmetry; apply Z.ltb_lt; unfold df; lia).
    exact Hcrit. }
  split; [ exact Hfit | ].
  split; [ exact Hcells | ].
  split; [ exact Hstat | ].
  rewrite <- Hstat. exact Hfit.
Qed.

End WithHost.

(** C6: a confidence-level index outside [0, 4] makes the [KSTest]
    constructor throw, while [chi2Test] returns the three-field object
    with [fitted = false] and the message naming the valid range. *)
Theorem invalid_confidence_index idx :
  (idx < 0 \/ 4 < idx)%Z ->
  KSTest.constructor (Some idx) = Thrown "Invalid confidenceLevelIndex."
  /\ forall host d data,
       chi2Test host d data idx =
       Returned (InvalidIndex (Number.toString idx)
                   "Confidence index is invalid! Must be between [0, 4]" false).
Proof.
  intros Hidx.
  assert (Hguard : ((idx <? 0) || (5 <=? idx))%Z = true).
  { apply orb_true_iff. rewrite Z.ltb_lt, Z.leb_le. lia. }
  split.
  - unfold KSTest.constructor. change (Z.of_nat (length KSTest.KSalpha)) with 5%Z.
    rewrite Hguard. reflexivity.
  - intros host d data. unfold chi2Test.
    change (Z.of_nat (length ConfidenceLevelString)) with 5%Z.
    rewrite Hguard. reflexivity.
Qed.

(** *** Counting the observations bin by bin and value by value *)

Lemma list_sum_map_add {A : Type} (f g : A -> nat) (l : list A) :
  list_sum (map (fun x => (f x + g x)%nat) l)
  = (list_sum (map f l) + list_sum (map g l))%nat.
Proof. induction l as [ | x l IH]; simpl; lia. Qed.

Lemma list_sum_map_zero {A : Type} (f : A -> nat) (l : list A) :
  (forall x, In x l -> f x = 0%nat) -> list_sum (map f l) = 0%nat.
Proof.
  induction l as [ | x l IH]; intros H; simpl; [ reflexivity | ].
  rewrite H by (left; reflexivity). rewrite IH; [ reflexivity | ].
  intros y Hy. apply H. right. exact Hy.
Qed.

(** The counts of the bins add up to the number of pairs of a value and a
    bin that holds it. *)
Lemma counts_by_value (E : nat -> float) (bins : list nat) (values : list float) :
  list_sum (map (fun i => countIn (E (i - 1)%nat) (E i) values) bins)
  = list_sum
      (map (fun v => list_sum (map (fun i => indicator (inBin (E (i - 1)%nat) (E i) v)) bins))
         values).
Proof.
  induction values as [ | v values IH]; simpl.
  - apply list_sum_map_zero. reflexivity.
  - rewrite <- IH, <- list_sum_map_add. f_equal. apply map_ext. intros i.
    unfold countIn. cbn [filter]. destruct (inBin _ _ v); reflexivity.
Qed.

(** Along non-decreasing edges a value below one edge is below the next
    ones. *)
Lemma below_later_edges (E : nat -> float) (v : float) (a n : nat) :
  (forall i, (a <= i < a + n)%nat -> (E i <=? E (S i)) = true) ->
  (v <? E a) = true ->
  forall i, (a <= i <= a + n)%nat -> (v <? E i) = true.
Proof.
  intros Hsorted Ha i Hi.
  replace i with (a + (i - a))%nat by lia.
  assert (Hd : (i - a <= n)%nat) by lia. revert Hd.
  generalize (i - a)%nat as m. clear i Hi.
  induction m as [ | m IH]; intros Hm.
  - rewrite Nat.add_0_r. exact Ha.
  - replace (a + S m)%nat with (S (a + m)) by lia.
    apply ltb_leb_trans with (y := E (a + m)%nat); [ apply IH; lia | ].
    apply Hsorted. lia.
Qed.

(** Along non-decreasing edges a value above one edge is above the
    earlier ones. *)
Lemma above_earlier_edges (E : nat -> float) (v : float) (a n : nat) :
  (forall i, (a <= i < a + n)%nat -> (E i <=? E (S i)) = true) ->
  (E (a + n)%nat <? v) = true ->
  forall i, (a <= i <= a + n)%nat -> (E i <? v) = true.
Proof.
  intros Hsorted Ha i Hi.
  replace i with (a + n - (a + n - i))%nat by lia.
  assert (Hd : (a + n - i <= n)%nat) by lia. revert Hd.
  generalize (a + n - i)%nat as m. clear i Hi.
  induction m as [ | m IH]; intros Hm.
  - rewrite Nat.sub_0_r. exact Ha.
  - apply leb_ltb_trans with (y := E (a + n - m)%nat); [ | apply IH; lia ].
    replace (a + n - m)%nat with (S (a + n - S m)) by lia.
    apply Hsorted. lia.
Qed.

(** Along edges that are non-decreasing between the first and the last
    one, a value is in one bin at most. *)
Lemma in_one_bin_at_most (E : nat -> float) (v : float) (n : nat) : forall a,
  (forall i, (a < i)%nat -> (S i < a + n)%nat -> (E i <=? E (S i)) = true) ->
  (list_sum (map (fun i => indicator (inBin (E (i - 1)%nat) (E i) v)) (seq (S a) n))
   <= 1)%nat.
Proof.
  induction n as [ | n IH]; intros a Hsorted; [ cbn; lia | ].
  cbn [seq map]. change (list_sum (?x :: ?l)) with (x + list_sum l)%nat.
  replace (S a - 1)%nat with a by lia.
  destruct (inBin (E a) (E (S a)) v) eqn:Hin; cbn [indicator].
  - rewrite list_sum_map_zero; [ lia | ].
    intros i Hi. apply in_seq in Hi. unfold inBin in *.
    apply andb_true_iff in Hin as (_ & Hnext).
    assert (Hv : (v <? E (i - 1)%nat) = true).
    { apply (below_later_edges E v (S a) (n - 1)); [ | exact Hnext | lia ].
      intros j Hj. apply Hsorted; lia. }
    apply ltb_asym in Hv. rewrite Hv. reflexivity.
  - cbn [Nat.add]. apply IH. intros i Hi Hi'. apply Hsorted; lia.
Qed.

(** ... and a value strictly between the first and the last edge, and
    strictly below or above every edge in between, is in exactly one. *)
Lemma in_one_bin_exactly (E : nat -> float) (v : float) (n : nat) : forall a,
  (forall i, (a < i)%nat -> (S i < a + n)%nat -> (E i <=? E (S i)) = true) ->
  (E a <? v) = true -> (v <? E (a + n)%nat) = true ->
  (forall i, (a < i < a + n)%nat -> (v <? E i) = true \/ (E i <? v) = true) ->
  list_sum (map (fun i => indicator (inBin (E (i - 1)%nat) (E i) v)) (seq (S a) n))
  = 1%nat.
Proof.
  induction n as [ | n IH]; intros a Hsorted Hlow Hhigh Hinner.
  - rewrite Nat.add_0_r in Hhigh. apply ltb_asym in Hlow. congruence.
  - cbn [seq map]. change (list_sum (?x :: ?l)) with (x + list_sum l)%nat.
    replace (S a - 1)%nat with a by lia.
    unfold inBin at 1. rewrite Hlow. cbn [andb].
    destruct (v <? E (S a)) eqn:Hnext; cbn [indicator].
    + rewrite list_sum_map_zero; [ reflexivity | ].
      intros i Hi. apply in_seq in Hi. unfold inBin.
      assert (Hv : (v <? E (i - 1)%nat) = true).
      { apply (below_later_edges E v (S a) (n - 1)); [ | exact Hnext | lia ].
        intros j Hj. apply Hsorted; lia. }
      apply ltb_asym in Hv. rewrite Hv. reflexivity.
    + destruct n as [ | n].
      * replace (a + 1)%nat with (S a) in Hhigh by lia. congruence.
      * cbn [Nat.add]. apply IH.
        -- intros i Hi Hi'. apply Hsorted; lia.
        -- destruct (Hinner (S a)) as [Hb | Ha]; [ lia | congruence | exact Ha ].
        -- replace (S a + S n)%nat with (a + S (S n))%nat by lia. exact Hhigh.
        -- intros i Hi. apply Hinner. lia.
Qed.

(** A value equal to an edge between the first and the last one is in no
    bin. *)
Lemma on_edge_in_no_bin (E : nat -> float) (v : float) (a n i : nat) :
  (forall i, (a < i)%nat -> (S i < a + n)%nat -> (E i <=? E (S i)) = true) ->
  (a < i < a + n)%nat -> (v =? E i) = true ->
  forall j, In j (seq (S a) n) -> inBin (E (j - 1)%nat) (E j) v = false.
Proof.
  intros Hsorted Hi Htie j Hj. apply in_seq in Hj.
  apply eqb_not_ltb in Htie as (Hbelow & Habove).
  unfold inBin. apply andb_false_iff.
  destruct (Nat.le_gt_cases j i) as [Hle | Hgt].
  - right. destruct (v <? E j) eqn:Hv; [ | reflexivity ].
    rewrite (below_later_edges E v j (i - j)) in Hbelow; [ discriminate | | exact Hv | lia ].
    intros m Hm. apply Hsorted; lia.
  - left. destruct (E (j - 1)%nat <? v) eqn:Hv; [ | reflexivity ].
    rewrite (above_earlier_edges E v i (j - 1 - i)) in Habove; [ discriminate | | | lia ].
    + intros m Hm. apply Hsorted; lia.
    + replace (i + (j - 1 - i))%nat with (j - 1)%nat by lia. exact Hv.
Qed.

(** Indicators that add up to 1 at most add up to the indicator of
    "some". *)
Lemma indicator_existsb {A : Type} (f : A -> bool) (l : list A) :
  (list_sum (map (fun x => indicator (f x)) l) <= 1)%nat ->
  list_sum (map (fun x => indicator (f x)) l) = indicator (existsb f l).
Proof.
  induction l as [ | x l IH]; cbn [map existsb]; [ reflexivity | ].
  change (list_sum (?y :: ?m)) with (y + list_sum m)%nat.
  destruct (f x); cbn [indicator orb]; intros H.
  - lia.
  - apply IH. exact H.
Qed.

Lemma list_sum_indicator {A : Type} (f : A -> bool) (l : list A) :
  list_sum (map (fun x => indicator (f x)) l) = length (filter f l).
Proof.
  induction l as [ | x l IH]; cbn [map filter]; [ reflexivity | ].
  change (list_sum (?y :: ?m)) with (y + list_sum m)%nat.
  rewrite IH. destruct (f x); reflexivity.
Qed.

Lemma filter_all {A : Type} (f : A -> bool) (l : list A) :
  (forall x, In x l -> f x = true) -> length (filter f l) = length l.
Proof.
  induction l as [ | x l IH]; intros H; cbn [filter]; [ reflexivity | ].
  rewrite H by (left; reflexivity). cbn [length]. rewrite IH; [ reflexivity | ].
  intros y Hy. apply H. right. exact Hy.
Qed.

Lemma filter_misses {A : Type} (f : A -> bool) (l : list A) (x : A) :
  In x l -> f x = false -> (length (filter f l) < length l)%nat.
Proof.
  induction l as [ | y l IH]; intros Hin Hx; [ destruct Hin | ].
  cbn [filter length]. destruct Hin as [-> | Hin].
  - rewrite Hx. pose proof (filter_length_le f l). lia.
  - specialize (IH Hin Hx). destruct (f y); cbn [length]; lia.
Qed.

Section WithHost.
Variable host : Host.

(** The sum of the observed counts is the number of pairs of an
    observation and a bin that strictly contains it. *)
Lemma observedTotal_pairs data k ci d r :
  _calculateChiSquare host data k ci d = Returned r ->
  let values := if requiresLog d then map (logOrZero host) data else data in
  observedTotal r (Z.to_nat k)
  = list_sum
      (map (fun v =>
              list_sum (map (fun i => indicator (inBin (edge r (i - 1)) (edge r i) v))
                          (seq 1 (Z.to_nat k))))
         values).
Proof.
  intros H values.
  apply calculateChiSquare_returned in H as (r0 & Hfill & Heval).
  fold values in Hfill.
  apply fillBins_counts in Hfill as (_ & _ & Hcount).
  apply evaluate_returned in Heval as (Hlo & Hhi & Ho & _).
  rewrite <- (counts_by_value (edge r)).
  unfold observedTotal. f_equal. apply map_ext_in. intros i Hi. apply in_seq in Hi.
  rewrite Ho, Hcount by lia.
  assert (Hedge : forall j, edge r j = edge r0 j)
    by (intros [ | j]; unfold edge; rewrite ?Hlo, ?Hhi; reflexivity).
  rewrite !Hedge. reflexivity.
Qed.

(** C1, as amended. Edge 0 is [lo[1]] and edge i is [hi[i]]; an
    observation is counted when it lies strictly inside one of the bins
    1..k. When the edges between the first and the last one, [hi[1]] to
    [hi[k - 1]], are non-decreasing:
    - the observed counts sum to the number of counted (transformed)
      observations;
    - they sum to n when every observation lies strictly between the first
      and the last edge and strictly below or above every edge in between;
    - an observation equal to an edge in between is counted in no bin;
    - with such an observation in the sample the counts sum to less than
      n. *)
Theorem observed_counts_sum data k ci d r :
  _calculateChiSquare host data k ci d = Returned r ->
  let values := if requiresLog d then map (logOrZero host) data else data in
  let counted v :=
    existsb (fun i => inBin (edge r (i - 1)) (edge r i) v) (seq 1 (Z.to_nat k)) in
  (forall i, (0 < i)%nat -> (S i < Z.to_nat k)%nat -> (edge r i <=? edge r (S i)) = true) ->
  observedTotal r (Z.to_nat k) = length (filter counted values)
  /\ ((forall v, In v values ->
         (edge r 0 <? v) = true /\ (v <? edge r (Z.to_nat k)) = true
         /\ forall i, (0 < i < Z.to_nat k)%nat ->
              (v <? edge r i) = true \/ (edge r i <? v) = true) ->
      observedTotal r (Z.to_nat k) = length data)
  /\ (forall v i, (0 < i < Z.to_nat k)%nat -> (v =? edge r i) = true -> counted v = false)
  /\ ((exists v i, In v values /\ (0 < i < Z.to_nat k)%nat /\ (v =? edge r i) = true) ->
      (observedTotal r (Z.to_nat k) < length data)%nat).
Proof.
  intros H values counted Hsorted.
  assert (Hlen : length data = length values).
  { unfold values. destruct (requiresLog d); [ rewrite length_map | ]; reflexivity. }
  assert (Htotal : observedTotal r (Z.to_nat k) = length (filter counted values)).
  { rewrite (observedTotal_pairs data k ci d r H). fold values.
    rewrite <- list_sum_indicator. f_equal. apply map_ext. intros v.
    apply (indicator_existsb (fun i => inBin (edge r (i - 1)) (edge r i) v)).
    apply (in_one_bin_at_most (edge r) v (Z.to_nat k) 0). exact Hsorted. }
  assert (Hties : forall v i, (0 < i < Z.to_nat k)%nat -> (v =? edge r i) = true ->
                    counted v = false).
  { intros v i Hi Htie. unfold counted.
    destruct (existsb _ _) eqn:Hex; [ | reflexivity ].
    apply existsb_exists in Hex as (j & Hj & Hin).
    rewrite (on_edge_in_no_bin (edge r) v 0 (Z.to_nat k) i) in Hin;
      [ discriminate | exact Hsorted | exact Hi | exact Htie | exact Hj ]. }
  split; [ exact Htotal | ].
  split; [ | split; [ exact Hties | ] ].
  - intros Hinside. rewrite Htotal, Hlen. apply filter_all. intros v Hv.
    destruct (Hinside v Hv) as (Hlow & Hhigh & Hinner).
    pose proof (in_one_bin_exactly (edge r) v (Z.to_nat k) 0 Hsorted Hlow Hhigh Hinner)
      as Hone.
    rewrite (indicator_existsb (fun i => inBin (edge r (i - 1)) (edge r i) v)) in Hone
      by (rewrite Hone; lia).
    fold (counted v) in Hone. destruct (counted v); [ reflexivity | discriminate ].
  - intros (v & i & Hv & Hi & Htie).
    rewrite Htotal, Hlen. apply (filter_misses counted values v Hv).
    exact (Hties v i Hi Htie).
Qed.

End WithHost.

End Chi2Facts.

(** ** Chi-Square: concrete runs *)

Module Chi2Examples.
Import ChiSquareTest.

(** C1, as stated, fails on a sample of two equal values: both lie on
    the edge between the two bins and are counted in neither. *)
Lemma observed_counts_miss_ties :
  match chi2Test SampleHost.host DistributionType.Normal [5; 5] 2 with
  | Returned (Tested r) => Some (lo r, hi r, o r, observedTotal r 2, length [5; 5])
  | _ => None
  end = Some ([0; 3; 5], [0; 5; 7], [0; 0; 0]%nat, 0%nat, 2%nat).
Proof. vm_compute. reflexivity. Qed.

(** The same on every host: the run never reaches the approximated part
    of [Math.pow] or [Math.log] before the counts are taken. *)
Lemma ties_uncounted_on_any_host host :
  match _calculateChiSquare host [5; 5] 2 2 DistributionType.Normal with
  | Returned r => Some (lo r, hi r, o r)
  | Thrown _ => None
  end = Some ([0; 3; 5], [0; 5; 7], [0; 0; 0]%nat).
Proof. vm_compute. reflexivity. Qed.

Lemma observed_counts_sum_witness :
  (exists r,
     _calculateChiSquare SampleHost.host nineDryYears 4 2 DistributionType.Normal
     = Returned r
     /\ (forall i, (0 < i)%nat -> (S i < 4)%nat -> (edge r i <=? edge r (S i)) = true)
     /\ (edge r 1 <? edge r 0) = true
     /\ o r = [0; 0; 9; 0; 1]%nat
     /\ observedTotal r 4 = 10%nat)
  /\ (exists r,
        _calculateChiSquare SampleHost.host [5; 5] 2 2 DistributionType.Normal = Returned r
        /\ (5 =? edge r 1) = true
        /\ (observedTotal r 2 < 2)%nat).
Proof.
  split.
  - eexists. split; [ vm_compute; reflexivity | ].
    match goal with |- ?A /\ _ => assert (Hsorted : A) end.
    { intros i Hi Hi'. do 3 (destruct i as [ | i]; [ vm_compute; try reflexivity; lia | ]).
      lia. }
    split; [ exact Hsorted | ].
    split; [ vm_compute; reflexivity | ].
    split; [ reflexivity | ].
    refine (proj1 (proj2 (Chi2Facts.observed_counts_sum SampleHost.host nineDryYears 4 2
                            DistributionType.Normal _ _ Hsorted)) _).
    + vm_compute. reflexivity.
    + intros v Hv. vm_compute in Hv.
      repeat (destruct Hv as [<- | Hv];
              [ split; [ vm_compute; reflexivity | split; [ vm_compute; reflexivity | ] ];
                intros i Hi;
                do 4 (destruct i as [ | i];
                      [ first [ lia | left; vm_compute; reflexivity
                              | right; vm_compute; reflexivity ] | ]);
                vm_compute in Hi; lia | ]).
      destruct Hv.
  - eexists. split; [ vm_compute; reflexivity | ].
    match goal with |- ?A /\ _ => assert (Htie : A) end.
    { vm_compute. reflexivity. }
    split; [ exact Htie | ].
    refine (proj2 (proj2 (proj2 (Chi2Facts.observed_counts_sum SampleHost.host [5; 5] 2 2
                                   DistributionType.Normal _ _ _))) _).
    + vm_compute. reflexivity.
    + intros i Hi Hi'. vm_compute in Hi'. lia.
    + exists 5, 1%nat. split; [ left; reflexivity | ]. split; [ vm_compute; lia | exact Htie ].
Defined.

Lemma expected_count_uniform_witness :
  exists r,
    _calculateChiSquare SampleHost.host tenYears 4 2 DistributionType.Normal = Returned r
    /\ e r = [0; 2.5; 2.5; 2.5; 2.5]
    /\ Array.get (e r) 3 = Number.of_nat 10 / Number.of_Z 4.
Proof.
  eexists. split; [ vm_compute; reflexivity | ]. split; [ reflexivity | ].
  eapply (Chi2Facts.expected_count_uniform SampleHost.host tenYears 4 2
            DistributionType.Normal).
  - vm_compute. reflexivity.
  - vm_compute. lia.
Defined.

Lemma chi2_critical_value_witness :
  exists r,
    _calculateChiSquare SampleHost.host tenYears 7 2 DistributionType.Normal = Returned r
    /\ degreesOfFreedom DistributionType.Normal 7 = 4%Z
    /\ Chi2Table_at 3 2 = Some (EstChi2Value r)
    /\ fitted r = (ObsChi2Value r <? EstChi2Value r)
    /\ (forall i, (1 <= i <= 7)%nat ->
          nth i (o r) 0%nat = countIn (edge r (i - 1)) (edge r i) tenYears
          /\ Array.get (e r) i = Number.of_nat 10 / Number.of_Z 7)
    /\ ObsChi2Value r
       = fold_left
           (fun chi2Stat i =>
              chi2Stat
              + Math.pow SampleHost.host
                  (Number.of_nat (countIn (edge r (i - 1)) (edge r i) tenYears)
                   - Number.of_nat 10 / Number.of_Z 7) 2
                / (Number.of_nat 10 / Number.of_Z 7))
           (seq 1 7) 0
    /\ fitted r
       = (fold_left
            (fun chi2Stat i =>
               chi2Stat
               + Math.pow SampleHost.host
                   (Number.of_nat (countIn (edge r (i - 1)) (edge r i) tenYears)
                    - Number.of_nat 10 / Number.of_Z 7) 2
                 / (Number.of_nat 10 / Number.of_Z 7))
            (seq 1 7) 0
          <? EstChi2Value r).
Proof.
  eexists. split; [ vm_compute; reflexivity | ].
  eapply (Chi2Facts.chi2_critical_value SampleHost.host tenYears 7 2
            DistributionType.Normal).
  - unfold supported, DistributionType.Normal. lia.
  - vm_compute. reflexivity.
Defined.

Lemma invalid_confidence_index_witness :
  KSTest.constructor (Some 7%Z) = Thrown "Invalid confidenceLevelIndex."
  /\ forall host d data,
       chi2Test host d data 7 =
       Returned (InvalidIndex "7" "Confidence index is invalid! Must be between [0, 4]"
                   false).
Proof. apply (Chi2Facts.invalid_confidence_index 7). lia. Defined.

End Chi2Examples.

(** ** Array objects: what the calls do to the store *)

Module MemFacts.
Import Mem.

Lemma bindM_returned {A B : Type} (c : M A) (k : A -> M B) (st st' : store) (a : A) :
  c st = (Returned a, st') -> bindM c k st = k a st'.
Proof. intros H. unfold bindM. rewrite H. reflexivity. Qed.

Lemma load_at (st : store) (r : ref) (elements : list float) :
  nth_error st r = Some elements -> load r st = (Returned elements, st).
Proof. intros H. unfold load. rewrite H. reflexivity. Qed.

Lemma nth_error_new (st : store) (elements : list float) :
  nth_error (st ++ [elements]) (length st) = Some elements.
Proof. rewrite nth_error_app2 by lia. rewrite Nat.sub_diag. reflexivity. Qed.

Lemma nth_error_old (st new : store) (r : ref) (elements : list float) :
  nth_error st r = Some elements -> nth_error (st ++ new) r = Some elements.
Proof.
  intros H. rewrite nth_error_app1; [ exact H | ].
  apply nth_error_Some. congruence.
Qed.

(** Sorting a copy: the store gains the sorted array and nothing else
    changes. *)
Lemma sort_copy_at compare (st : store) (arr : ref) (elements : list float) :
  nth_error st arr = Some elements ->
  (copy <~ Array_slice arr ;; Array_sort compare copy) st
  = (Returned (length st), st ++ [Array.sorted_by compare elements]).
Proof.
  intros H. unfold Array_slice, Array_sort.
  rewrite (bindM_returned _ _ st (st ++ [elements]) (length st)).
  2:{ rewrite (bindM_returned _ _ st st elements) by (apply load_at; exact H).
      reflexivity. }
  rewrite (bindM_returned _ _ _ (st ++ [elements]) elements)
    by (apply load_at, nth_error_new).
  unfold bindM, overwrite, ret.
  rewrite length_app. cbn [length].
  destruct (Nat.ltb_spec (length st) (length st + 1)) as [_ | Hge]; [ | lia ].
  rewrite firstn_app, Nat.sub_diag, firstn_all, firstn_O, app_nil_r.
  rewrite skipn_all2 by (rewrite length_app; cbn [length]; lia).
  reflexivity.
Qed.

Section WithHost.
Variable host : Host.

Lemma sort_at (st : store) (arr : ref) (elements : list float) :
  nth_error st arr = Some elements ->
  sort arr st = (Returned (length st), st ++ [RainUtils.sort elements]).
Proof. apply sort_copy_at. Qed.

Lemma sortDescending_at (st : store) (data : ref) (elements : list float) :
  nth_error st data = Some elements ->
  sortDescending data st = (Returned (length st), st ++ [KSTest.sortDescending elements]).
Proof. apply sort_copy_at. Qed.

Lemma statistics_at (st : store) (X : ref) (elements : list float) :
  nth_error st X = Some elements ->
  statistics host X st
  = (Returned (RainUtils.statistics host elements),
     st ++ (if (length elements =? 0)%nat then [] else [RainUtils.sort elements])).
Proof.
  intros H. unfold statistics, RainUtils.statistics.
  rewrite (bindM_returned _ _ st st elements) by (apply load_at; exact H).
  destruct (length elements =? 0)%nat.
  - unfold ret. rewrite app_nil_r. reflexivity.
  - rewrite (bindM_returned _ _ _ _ _ (sort_at st X elements H)).
    rewrite (bindM_returned _ _ _ _ (RainUtils.sort elements))
      by (apply load_at, nth_error_new).
    reflexivity.
Qed.

Lemma transformed_at d (st : store) (data : ref) (elements : list float) :
  nth_error st data = Some elements ->
  exists r new,
    transformed host d data st = (Returned r, st ++ new)
    /\ nth_error (st ++ new) r
       = Some (if requiresLog d then map (logOrZero host) elements else elements).
Proof.
  intros H. unfold transformed. destruct (requiresLog d).
  - exists (length st), [map (logOrZero host) elements]. split.
    + unfold Array_map.
      rewrite (bindM_returned _ _ st st elements) by (apply load_at; exact H).
      reflexivity.
    + apply nth_error_new.
  - exists data, []. rewrite app_nil_r. split; [ reflexivity | exact H ].
Qed.


Lemma freq_at d T (st : store) (y : ref) (elements : list float) :
  nth_error st y = Some elements ->
  exists new,
    freq host d y T st = (FrequencyAnalysis.freq host d elements T, st ++ new).
Proof.
  intros H. unfold freq, FrequencyAnalysis.freq. cbn zeta.
  set (x := if requiresLog d then map (logOrZero host) elements else elements).
  assert (Hx : (if requiresLog d then Array_map (logOrZero host) y else Array_slice y) st
               = (Returned (length st), st ++ [x])).
  { unfold x, Array_map, Array_slice. destruct (requiresLog d);
      rewrite (bindM_returned _ _ st st elements) by (apply load_at; exact H);
      reflexivity. }
  rewrite (bindM_returned _ _ _ _ _ Hx).
  rewrite (bindM_returned _ _ _ _ _ (statistics_at _ _ x (nth_error_new st x))).
  unfold lift. rewrite <- app_assoc. eexists. reflexivity.
Qed.

Lemma runTest_at this d (st : store) (data : ref) (elements : list float) :
  nth_error st data = Some elements ->
  exists new,
    runTest host this d data st = (KSTest.runTest host this d elements, st ++ new).
Proof.
  intros H. unfold runTest, KSTest.runTest. cbn zeta.
  rewrite (bindM_returned _ _ st st elements) by (apply load_at; exact H).
  destruct (length elements =? 0)%nat.
  { exists []. rewrite app_nil_r. reflexivity. }
  rewrite (bindM_returned _ _ _ _ _ (sortDescending_at st data elements H)).
  set (sorted := KSTest.sortDescending elements).
  destruct (transformed_at d (st ++ [sorted]) (length st) sorted (nth_error_new st sorted))
    as (r & new1 & Hrun & Hr).
  rewrite (bindM_returned _ _ _ _ _ Hrun).
  rewrite (bindM_returned _ _ _ _ _ (statistics_at _ _ _ Hr)).
  erewrite bindM_returned
    by (apply load_at, nth_error_old, nth_error_old, nth_error_new).
  unfold lift. rewrite <- !app_assoc. eexists. reflexivity.
Qed.

Lemma calculateChiSquare_at k ci d (st : store) (data : ref) (elements : list float) :
  nth_error st data = Some elements ->
  exists new,
    _calculateChiSquare host data k ci d st
    = (ChiSquareTest._calculateChiSquare host elements k ci d, st ++ new).
Proof.
  intros H. unfold _calculateChiSquare, ChiSquareTest._calculateChiSquare.
  unfold _divideIntoBins, ChiSquareTest._divideIntoBins. cbn zeta.
  destruct (transformed_at d st data elements H) as (r & new1 & Hrun & Hr).
  set (values := if requiresLog d then map (logOrZero host) elements else elements) in *.
  set (after := (st ++ new1)
                ++ (if (length values =? 0)%nat then [] else [RainUtils.sort values])).
  assert (Hbins :
    (transformedData <~ transformed host d data ;;
     stats <~ statistics host transformedData ;;
     values <~ load transformedData ;;
     lift (ChiSquareTest.fillBins host values stats k d)) st
    = (ChiSquareTest.fillBins host values (RainUtils.statistics host values) k d, after)).
  { rewrite (bindM_returned _ _ _ _ _ Hrun).
    rewrite (bindM_returned _ _ _ _ _ (statistics_at _ _ _ Hr)).
    erewrite bindM_returned by (apply load_at, nth_error_old, Hr).
    reflexivity. }
  exists (new1 ++ (if (length values =? 0)%nat then [] else [RainUtils.sort values])).
  rewrite app_assoc. fold after.
  destruct (ChiSquareTest.fillBins host values (RainUtils.statistics host values) k d)
    as [results | m] eqn:Hfill.
  - rewrite (bindM_returned _ _ _ _ _ Hbins).
    erewrite bindM_returned
      by (apply load_at; unfold after; apply nth_error_old, nth_error_old, H).
    reflexivity.
  - unfold bindM at 1. rewrite Hbins. reflexivity.
Qed.

Lemma chi2Test_at d ci (st : store) (data : ref) (elements : list float) :
  nth_error st data = Some elements ->
  exists new,
    chi2Test host d data ci st = (ChiSquareTest.chi2Test host d elements ci, st ++ new).
Proof.
  intros H. unfold chi2Test, ChiSquareTest.chi2Test. cbn zeta.
  destruct (_ || _).
  { exists []. rewrite app_nil_r. reflexivity. }
  rewrite (bindM_returned _ _ _ _ _ (sort_at st data elements H)).
  set (sorted := RainUtils.sort elements).
  erewrite bindM_returned by (apply load_at, nth_error_old, H).
  destruct (Number.to_Z (ChiSquareTest.sturges host (length elements))) as [k | ].
  - destruct (calculateChiSquare_at k ci d (st ++ [sorted]) (length st) sorted
                (nth_error_new st sorted)) as (new & Hrun).
    exists ([sorted] ++ new). rewrite app_assoc.
    destruct (ChiSquareTest._calculateChiSquare host sorted k ci d) as [results | m].
    + rewrite (bindM_returned _ _ _ _ _ Hrun). reflexivity.
    + unfold bindM. rewrite Hrun. reflexivity.
  - destruct (transformed_at d (st ++ [sorted]) (length st) sorted (nth_error_new st sorted))
      as (r & new1 & Hrun & Hr).
    rewrite (bindM_returned _ _ _ _ _ Hrun).
    rewrite (bindM_returned _ _ _ _ _ (statistics_at _ _ _ Hr)).
    unfold throw. rewrite <- !app_assoc. eexists. reflexivity.
Qed.

(** A computation that only appends arrays leaves the existing ones. *)
Lemma appends_leaves {A : Type} (c : M A) (st : store) (result : outcome A) :
  (exists new, c st = (result, st ++ new)) ->
  leavesArrays c st /\ fst (c st) = result.
Proof.
  intros (new & E). unfold leavesArrays. rewrite E. split; [ | reflexivity ].
  intros r elements Hr. cbn [snd]. apply nth_error_old. exact Hr.
Qed.

(** C8: the four entry points leave the caller's array, and every other
    array that existed before the call, with the same elements in the same
    order, whether they return or throw; the sorts work on copies.  Each
    call returns what the value-level definition computes from the
    elements. *)
Theorem sample_array_unchanged (st : store) (data : ref) (elements : list float) :
  nth_error st data = Some elements ->
  (leavesArrays (statistics host data) st
   /\ fst (statistics host data st) = Returned (RainUtils.statistics host elements))
  /\ (forall d T,
        leavesArrays (freq host d data T) st
        /\ fst (freq host d data T st) = FrequencyAnalysis.freq host d elements T)
  /\ (forall this d,
        leavesArrays (runTest host this d data) st
        /\ fst (runTest host this d data st) = KSTest.runTest host this d elements)
  /\ (forall d ci,
        leavesArrays (chi2Test host d data ci) st
        /\ fst (chi2Test host d data ci st) = ChiSquareTest.chi2Test host d elements ci).
Proof.
  intros H. split; [ | split; [ | split ] ].
  - apply appends_leaves. eexists. apply statistics_at. exact H.
  - intros d T. apply appends_leaves, freq_at. exact H.
  - intros this d. apply appends_leaves, runTest_at. exact H.
  - intros d ci. apply appends_leaves, chi2Test_at. exact H.
Qed.

End WithHost.

(** The store after a KS run on the array [[3; 1; 2]]: the array is as it
    was and the sorted copy is a new array. *)
Lemma sample_array_unchanged_witness :
  leavesArrays
    (runTest SampleHost.host {| KSTest.confidenceLevelIndex := 2; KSTest.alpha := 0.895 |}
       DistributionType.Normal 0%nat) [[3; 1; 2]]
  /\ snd (runTest SampleHost.host
            {| KSTest.confidenceLevelIndex := 2; KSTest.alpha := 0.895 |}
            DistributionType.Normal 0%nat [[3; 1; 2]])
     = [[3; 1; 2]; [3; 2; 1]; [1; 2; 3]].
Proof.
  split; [ | vm_compute; reflexivity ].
  apply (proj1 (proj2 (proj2 (sample_array_unchanged SampleHost.host [[3; 1; 2]] 0%nat
                                [3; 1; 2] eq_refl)))).
Defined.

End MemFacts.

(** ** Runs on the sample host *)

Module Runs.

(** Ten equal observations against the Normal distribution at 95%: every
    mark is 'G' and the fit is accepted. *)
Example ks_constant_sample :
  (this <- KSTest.constructor (Some 2%Z) ;;
   r <- KSTest.runTest SampleHost.host this DistributionType.Normal (repeat 100 10) ;;
   Returned (KSTest.fitted r, KSTest.mark r))
  = Returned (true, repeat "G"%string 10).
Proof. vm_compute. reflexivity. Qed.

(** The 100-year estimate of the twelve-year sample under Log-Pearson III
    is a positive number of the magnitude of the sample. *)
Example freq_log_pearson3 :
  (r <- FrequencyAnalysis.freq SampleHost.host DistributionType.LogPearsonType3
          twelveYears 100 ;;
   Returned (210 <? FrequencyAnalysis.Qest r, FrequencyAnalysis.Qest r <? 300))
  = Returned (true, true).
Proof. vm_compute. reflexivity. Qed.

(** The Chi-Square test of the same sample at 95%: Sturges' formula gives
    five bins, and the counts, here, add up to twelve. *)
Example chi2_twelve_years :
  match ChiSquareTest.chi2Test SampleHost.host DistributionType.LogPearsonType3
          twelveYears 2 with
  | Returned (ChiSquareTest.Tested r) =>
      Some (ChiSquareTest.o r, ChiSquareTest.e r, ChiSquareTest.fitted r)
  | _ => None
  end = Some ([0; 3; 2; 2; 3; 2]%nat, [0; 2.4; 2.4; 2.4; 2.4; 2.4], true).
Proof. vm_compute. reflexivity. Qed.

(** An empty sample: [statistics] reports zeros, [runTest] throws, and
    [chi2Test] fails on the length of its arrays. *)
Example empty_sample :
  RainUtils.statistics SampleHost.host [] = RainUtils.emptySummary
  /\ KSTest.runTest SampleHost.host {| KSTest.confidenceLevelIndex := 2; KSTest.alpha := 0.895 |}
       DistributionType.Normal [] = Thrown "Input data array cannot be empty."
  /\ ChiSquareTest.chi2Test SampleHost.host DistributionType.Normal [] 2
     = Thrown "Invalid array length".
Proof. repeat split; vm_compute; reflexivity. Qed.

End Runs.

(** * Further properties *)

(** ** The sign of a difference *)

Local Open Scope Z_scope.

(** A right shift to the canonical exponent keeps a positive mantissa
    positive. *)
Lemma shr_fexp_pos (m e : Z) (l : location) :
  0 < m -> -1074 <= e ->
  0 < shr_m (fst (shr_fexp prec emax m e l)) /\ -1074 <= snd (shr_fexp prec emax m e l).
Proof.
  intros Hm He. unfold shr_fexp. rewrite fexp64.
  set (d := Zdigits2 m).
  pose proof (Zdigits2_bounds m Hm) as (Hlow & _). fold d in Hlow.
  pose proof (Zdigits2_pos m Hm) as Hd. fold d in Hd.
  assert (Hrec : shr_m (shr_record_of_loc m l) = m) by (destruct l as [ | [ | | ]]; reflexivity).
  destruct (Z.le_gt_cases (Z.max (d + e - 53) (-1074) - e) 0) as [Hn | Hn].
  - destruct (Z.max (d + e - 53) (-1074) - e) as [ | p | p] eqn:E; try lia;
      cbn [shr fst snd]; rewrite Hrec; lia.
  - rewrite shr_nat by lia. cbn [fst snd].
    rewrite shr_iter_m by (rewrite Hrec; lia). rewrite Hrec, Z2Nat.id by lia.
    split; [ | lia ].
    set (n := Z.max (d + e - 53) (-1074) - e) in *.
    assert (Hpow : 2 ^ n <= 2 ^ (d - 1)) by (apply Z.pow_le_mono_r; lia).
    assert (Hpos : 0 < 2 ^ n) by (apply Z.pow_pos_nonneg; lia).
    apply Z.div_str_pos. lia.
Qed.

(** The sign of a rounded number is the sign of the number. *)
Lemma round_aux_sign (s : bool) (m e : Z) (l : location) :
  0 < m -> -1074 <= e ->
  (exists m' e', binary_round_aux prec emax s m e l = S754_finite s m' e')
  \/ binary_round_aux prec emax s m e l = S754_infinity s.
Proof.
  intros Hm He. unfold binary_round_aux.
  pose proof (shr_fexp_pos m e l Hm He) as (H1 & He1).
  destruct (shr_fexp prec emax m e l) as (mrs', e'). cbn [fst snd] in H1, He1.
  set (m2 := round_nearest_even (shr_m mrs') (loc_of_shr_record mrs')).
  assert (Hm2 : 0 < m2).
  { unfold m2. destruct (round_nearest_even_cases (shr_m mrs') (loc_of_shr_record mrs'))
      as [-> | ->]; lia. }
  pose proof (shr_fexp_pos m2 e' loc_Exact Hm2 He1) as (H2 & _).
  destruct (shr_fexp prec emax m2 e' loc_Exact) as (mrs'', e''). cbn [fst] in H2.
  destruct (shr_m mrs'') as [ | p | p]; try lia.
  destruct (e'' <=? emax - prec); [ left; eauto | right; reflexivity ].
Qed.

Lemma round_sign (s : bool) (m : positive) (e : Z) :
  -1074 <= e ->
  (exists m' e', binary_round prec emax s m e = S754_finite s m' e')
  \/ binary_round prec emax s m e = S754_infinity s.
Proof.
  intros He. unfold binary_round. rewrite fexp64.
  set (t := Z.max (Zpos (digits2_pos m) + e - 53) (-1074)).
  destruct (Z.le_gt_cases t e) as [Ht | Ht].
  - rewrite shl_align_down by exact Ht. apply round_aux_sign; lia.
  - rewrite shl_align_up by lia. apply round_aux_sign; lia.
Qed.

(** Two valid mantissas with different exponents: the one with the larger
    exponent is the larger number. *)
Lemma canonical_order (ma mb : positive) (ea eb : Z) :
  Z.max (Zpos (digits2_pos ma) + ea - 53) (-1074) = ea -> Zpos ma < 2 ^ 53 ->
  Z.max (Zpos (digits2_pos mb) + eb - 53) (-1074) = eb ->
  ea < eb -> Zpos ma < Zpos mb * 2 ^ (eb - ea).
Proof.
  intros Ha Hma Hb Hlt.
  assert (Hd : Zpos (digits2_pos mb) = 53) by lia.
  pose proof (digits2_pos_bounds mb) as (Hlow & _). rewrite Hd in Hlow.
  change (2 ^ (53 - 1)) with (2 ^ 52) in Hlow.
  assert (Hpow : 2 ^ 1 <= 2 ^ (eb - ea)) by (apply Z.pow_le_mono_r; lia).
  change (2 ^ 1) with 2 in Hpow.
  change (2 ^ 53) with (2 * 2 ^ 52) in Hma. nia.
Qed.

Lemma magnitude_order (ma mb : positive) (ea eb : Z) :
  Z.max (Zpos (digits2_pos ma) + ea - 53) (-1074) = ea -> Zpos ma < 2 ^ 53 ->
  Z.max (Zpos (digits2_pos mb) + eb - 53) (-1074) = eb -> Zpos mb < 2 ^ 53 ->
  Zpos ma * 2 ^ (ea - Z.min ea eb) < Zpos mb * 2 ^ (eb - Z.min ea eb)
  <-> ea < eb \/ (ea = eb /\ Zpos ma < Zpos mb).
Proof.
  intros Ha Hma Hb Hmb.
  destruct (Z.lt_trichotomy ea eb) as [Hlt | [Heq | Hgt]].
  - rewrite Z.min_l, Z.sub_diag, Z.pow_0_r, Z.mul_1_r by lia.
    pose proof (canonical_order ma mb ea eb Ha Hma Hb Hlt). lia.
  - subst eb. rewrite Z.min_l, Z.sub_diag, Z.pow_0_r, !Z.mul_1_r by lia. lia.
  - rewrite Z.min_r, Z.sub_diag, Z.pow_0_r, Z.mul_1_r by lia.
    pose proof (canonical_order mb ma eb ea Hb Hmb Ha Hgt). lia.
Qed.

(** The sign of a normalized number is the sign of its mantissa. *)
Lemma normalize_key (D e : Z) :
  -1074 <= e ->
  exists k1 k2 k3,
    key (binary_normalize prec emax D e false) = Some (k1, k2, k3)
    /\ (0 < k1 <-> 0 < D) /\ (k1 < 0 <-> D < 0).
Proof.
  intros He. destruct D as [ | p | p]; cbn [binary_normalize].
  - exists 0, 0, 0. split; [ reflexivity | lia ].
  - destruct (round_sign false p e He) as [(m' & e' & ->) | ->]; cbn [key];
      eexists _, _, _; (split; [ reflexivity | lia ]).
  - destruct (round_sign true p e He) as [(m' & e' & ->) | ->]; cbn [key];
      eexists _, _, _; (split; [ reflexivity | lia ]).
Qed.

Local Close Scope Z_scope.

(** The numbers above zero. *)
Lemma positive_key (x : float) :
  (0 <? x) = true <->
  exists k2 k3 k1, key (Prim2SF x) = Some (k1, k2, k3) /\ (0 < k1)%Z.
Proof.
  rewrite ltb_key. change (Prim2SF 0) with (S754_zero false). cbn [key]. split.
  - intros (a & ((k1, k2), k3) & Ha & Hb & Hlt). injection Ha as <-.
    exists k2, k3, k1. split; [ exact Hb | ].
    destruct (Prim2SF x) as [ s | [ | ] | | [ | ] m e ]; cbn [key] in Hb;
      try discriminate; injection Hb as <- <- <-; cbn [lexlt] in Hlt; lia.
  - intros (k2 & k3 & k1 & Hk & Hpos). exists (0, 0, 0)%Z, (k1, k2, k3).
    repeat split; [ exact Hk | ]. cbn [lexlt]. lia.
Qed.

Ltac sub_case :=
  unfold SF64sub; cbn [SFsub key negb]; split;
  [ intros (k2 & k3 & k1 & [= <- <- <-] & Hpos);
    first [ lia | eexists _, _; repeat split; cbn [lexlt]; lia ]
  | intros (ka & kb & [= <-] & [= <-] & Hlt); cbn [lexlt] in Hlt;
    first [ lia | eexists _, _, _; split; [ reflexivity | lia ] ] ].

(** [a - b > 0] is [a > b], whatever the rounding, for numbers that are
    not NaN: the comparison function [(a, b) => a - b] orders like [<]. *)
Lemma sub_pos (a b : float) :
  Number.isNaN a = false -> Number.isNaN b = false -> (0 <? a - b) = (b <? a).
Proof.
  intros Ha Hb.
  assert (Hna : Prim2SF a <> S754_nan).
  { intros E. assert (a = nan) by (apply Prim2SF_inj; exact E). subst. discriminate. }
  assert (Hnb : Prim2SF b <> S754_nan).
  { intros E. assert (b = nan) by (apply Prim2SF_inj; exact E). subst. discriminate. }
  clear Ha Hb.
  apply eq_true_iff_eq. rewrite positive_key, ltb_key, sub_spec.
  destruct (Prim2SF a) as [ sa | sa | | sa ma ea ] eqn:Ea; try congruence;
  destruct (Prim2SF b) as [ sb | sb | | sb mb eb ] eqn:Eb; try congruence;
    clear Hna Hnb;
    try solve [ destruct sa, sb; sub_case ].
  destruct (valid_finite a sa ma ea Ea) as (Hca & Hma).
  destruct (valid_finite b sb mb eb Eb) as (Hcb & Hmb).
  pose proof (magnitude_order ma mb ea eb Hca Hma Hcb Hmb) as Hab.
  pose proof (magnitude_order mb ma eb ea Hcb Hmb Hca Hma) as Hba.
  rewrite (Z.min_comm eb ea) in Hba.
  unfold SF64sub. cbn [SFsub].
  set (ez := Z.min ea eb) in *.
  assert (Hez : (-1074 <= ez)%Z) by (unfold ez; lia).
  rewrite !shl_align_down by (unfold ez; lia). cbn [fst].
  assert (HA : (0 < Zpos ma * 2 ^ (ea - ez))%Z).
  { apply Z.mul_pos_pos; [ lia | apply Z.pow_pos_nonneg; unfold ez; lia ]. }
  assert (HB : (0 < Zpos mb * 2 ^ (eb - ez))%Z).
  { apply Z.mul_pos_pos; [ lia | apply Z.pow_pos_nonneg; unfold ez; lia ]. }
  rewrite !Z2Pos.id by assumption.
  set (A := (Zpos ma * 2 ^ (ea - ez))%Z) in *.
  set (B := (Zpos mb * 2 ^ (eb - ez))%Z) in *.
  destruct (normalize_key (cond_Zopp sa A - cond_Zopp sb B) ez Hez)
    as (k1 & k2 & k3 & -> & Hsign & _).
  clearbody A B. clear Ea Eb Hca Hcb.
  destruct sa, sb; cbn [key cond_Zopp] in *; (split;
    [ intros (k2' & k3' & k1' & [= <- <- <-] & Hpos);
      apply Hsign in Hpos; eexists _, _; (split; [ reflexivity | split; [ reflexivity | ] ]);
      cbn [lexlt]; lia
    | intros (ka & kb & [= <-] & [= <-] & Hlt); cbn [lexlt] in Hlt;
      exists k2, k3, k1; (split; [ reflexivity | ]); apply Hsign; lia ]).
Qed.

(** The numbers below zero. *)
Lemma negative_key (x : float) :
  (x <? 0) = true <->
  exists k2 k3 k1, key (Prim2SF x) = Some (k1, k2, k3) /\ (k1 < 0)%Z.
Proof.
  rewrite ltb_key. change (Prim2SF 0) with (S754_zero false). cbn [key]. split.
  - intros (((k1, k2), k3) & b & Ha & Hb & Hlt). injection Hb as <-.
    exists k2, k3, k1. split; [ exact Ha | ].
    destruct (Prim2SF x) as [ s | [ | ] | | [ | ] m e ]; cbn [key] in Ha;
      try discriminate; injection Ha as <- <- <-; cbn [lexlt] in Hlt; lia.
  - intros (k2 & k3 & k1 & Hk & Hneg). exists (k1, k2, k3), (0, 0, 0)%Z.
    repeat split; [ exact Hk | ]. cbn [lexlt]. lia.
Qed.

Ltac sub_case_neg :=
  unfold SF64sub; cbn [SFsub key negb]; split;
  [ intros (k2 & k3 & k1 & [= <- <- <-] & Hneg);
    first [ lia | eexists _, _; repeat split; cbn [lexlt]; lia ]
  | intros (ka & kb & [= <-] & [= <-] & Hlt); cbn [lexlt] in Hlt;
    first [ lia | eexists _, _, _; split; [ reflexivity | lia ] ] ].

(** [a - b < 0] is [a < b], for numbers that are not NaN. *)
Lemma sub_neg (a b : float) :
  Number.isNaN a = false -> Number.isNaN b = false -> (a - b <? 0) = (a <? b).
Proof.
  intros Ha Hb.
  assert (Hna : Prim2SF a <> S754_nan).
  { intros E. assert (a = nan) by (apply Prim2SF_inj; exact E). subst. discriminate. }
  assert (Hnb : Prim2SF b <> S754_nan).
  { intros E. assert (b = nan) by (apply Prim2SF_inj; exact E). subst. discriminate. }
  clear Ha Hb.
  apply eq_true_iff_eq. rewrite negative_key, ltb_key, sub_spec.
  destruct (Prim2SF a) as [ sa | sa | | sa ma ea ] eqn:Ea; try congruence;
  destruct (Prim2SF b) as [ sb | sb | | sb mb eb ] eqn:Eb; try congruence;
    clear Hna Hnb;
    try solve [ destruct sa, sb; sub_case_neg ].
  destruct (valid_finite a sa ma ea Ea) as (Hca & Hma).
  destruct (valid_finite b sb mb eb Eb) as (Hcb & Hmb).
  pose proof (magnitude_order ma mb ea eb Hca Hma Hcb Hmb) as Hab.
  pose proof (magnitude_order mb ma eb ea Hcb Hmb Hca Hma) as Hba.
  rewrite (Z.min_comm eb ea) in Hba.
  unfold SF64sub. cbn [SFsub].
  set (ez := Z.min ea eb) in *.
  assert (Hez : (-1074 <= ez)%Z) by (unfold ez; lia).
  rewrite !shl_align_down by (unfold ez; lia). cbn [fst].
  assert (HA : (0 < Zpos ma * 2 ^ (ea - ez))%Z).
  { apply Z.mul_pos_pos; [ lia | apply Z.pow_pos_nonneg; unfold ez; lia ]. }
  assert (HB : (0 < Zpos mb * 2 ^ (eb - ez))%Z).
  { apply Z.mul_pos_pos; [ lia | apply Z.pow_pos_nonneg; unfold ez; lia ]. }
  rewrite !Z2Pos.id by assumption.
  set (A := (Zpos ma * 2 ^ (ea - ez))%Z) in *.
  set (B := (Zpos mb * 2 ^ (eb - ez))%Z) in *.
  destruct (normalize_key (cond_Zopp sa A - cond_Zopp sb B) ez Hez)
    as (k1 & k2 & k3 & -> & _ & Hsign).
  clearbody A B. clear Ea Eb Hca Hcb.
  destruct sa, sb; cbn [key cond_Zopp] in *; (split;
    [ intros (k2' & k3' & k1' & [= <- <- <-] & Hneg);
      apply Hsign in Hneg; eexists _, _; (split; [ reflexivity | split; [ reflexivity | ] ]);
      cbn [lexlt]; lia
    | intros (ka & kb & [= <-] & [= <-] & Hlt); cbn [lexlt] in Hlt;
      exists k2, k3, k1; (split; [ reflexivity | ]); apply Hsign; lia ]).
Qed.

(** ** Sorting *)

(** A number that is not NaN has a key. *)
Lemma number_key (x : float) :
  Number.isNaN x = false -> exists k, key (Prim2SF x) = Some k.
Proof.
  intros H. destruct (key (Prim2SF x)) as [k | ] eqn:E; [ eauto | exfalso ].
  assert (Hx : x = nan).
  { apply Prim2SF_inj. destruct (Prim2SF x) as [ s | [ | ] | | [ | ] m e ]; try discriminate.
    reflexivity. }
  subst x. discriminate.
Qed.

Lemma float_le_of_lt (x y : float) : (x <? y) = true -> (x <=? y) = true.
Proof.
  intros H. apply ltb_key in H as (a & b & Ha & Hb & Hlt).
  apply leb_key. exists a, b. auto.
Qed.

Lemma float_le_of_not_lt (x y : float) :
  Number.isNaN x = false -> Number.isNaN y = false ->
  (y <? x) = false -> (x <=? y) = true.
Proof.
  intros Hx Hy H.
  destruct (number_key x Hx) as (a & Ha). destruct (number_key y Hy) as (b & Hb).
  apply leb_key. exists a, b. repeat split; try assumption.
  destruct (lex_spec a b) as [E | Hlt | Hgt]; auto.
  assert (E : (y <? x) = true) by (apply ltb_key; exists b, a; auto). congruence.
Qed.

Lemma float_le_trans (x y z : float) :
  (x <=? y) = true -> (y <=? z) = true -> (x <=? z) = true.
Proof.
  intros H1 H2. apply leb_key in H1 as (a & b & Ha & Hb & Hab).
  apply leb_key in H2 as (b' & c & Hb' & Hc & Hbc).
  rewrite Hb in Hb'. apply leb_key. exists a, c. repeat split; try assumption.
  destruct Hab as [E1 | L1], Hbc as [E2 | L2]; lex_lia; right; lia.
Qed.

Lemma float_le_antisym (x y : float) :
  (x <=? y) = true -> (y <=? x) = true -> (x =? y) = true.
Proof.
  intros H1 H2. apply leb_key in H1 as (a & b & Ha & Hb & Hab).
  apply leb_key in H2 as (b' & a' & Hb' & Ha' & Hba).
  rewrite Hb in Hb'. rewrite Ha in Ha'.
  apply eqb_key. exists a. split; [ assumption | ].
  rewrite Hb. f_equal.
  destruct Hab as [E1 | L1], Hba as [E2 | L2]; lex_lia.
Qed.

Lemma float_le_refl (x : float) : Number.isNaN x = false -> (x <=? x) = true.
Proof.
  intros Hx. destruct (number_key x Hx) as (a & Ha).
  apply leb_key. exists a, a. auto.
Qed.

Module SortFacts.

Lemma insert_perm compare (a : float) (l : list float) :
  Permutation (Array.insert compare a l) (a :: l).
Proof.
  induction l as [ | b l IH]; cbn [Array.insert]; [ reflexivity | ].
  destruct (0 <? compare a b); [ | reflexivity ].
  rewrite IH. apply perm_swap.
Qed.

Lemma sorted_by_perm compare (arr : list float) :
  Permutation (Array.sorted_by compare arr) arr.
Proof.
  induction arr as [ | a arr IH]; cbn [Array.sorted_by fold_right]; [ reflexivity | ].
  fold (Array.sorted_by compare arr). rewrite insert_perm. constructor. exact IH.
Qed.

Lemma numbers_perm (l l' : list float) : Permutation l l' -> numbers l -> numbers l'.
Proof. intros HP H. unfold numbers in *. eapply Permutation_Forall; eassumption. Qed.

Section Order.
Variable compare : float -> float -> float.
Variable R : float -> float -> Prop.
Hypothesis after : forall a b,
  Number.isNaN a = false -> Number.isNaN b = false -> (0 <? compare a b) = true -> R b a.
Hypothesis before : forall a b,
  Number.isNaN a = false -> Number.isNaN b = false -> (0 <? compare a b) = false -> R a b.
Hypothesis R_trans : forall a b c, R a b -> R b c -> R a c.

Lemma insert_sorted (a : float) (l : list float) :
  Number.isNaN a = false -> numbers l ->
  StronglySorted R l -> StronglySorted R (Array.insert compare a l).
Proof.
  intros Ha Hl Hs. induction l as [ | b l IH]; cbn [Array.insert].
  - repeat constructor.
  - apply StronglySorted_inv in Hs as (Hs & Hb).
    apply Forall_cons_iff in Hl as (Hnb & Hl).
    destruct (0 <? compare a b) eqn:E.
    + constructor; [ apply IH; assumption | ].
      eapply Permutation_Forall; [ symmetry; apply insert_perm | ].
      constructor; [ apply after; assumption | exact Hb ].
    + constructor; [ constructor; assumption | ].
      assert (Hab : R a b) by (apply before; assumption).
      constructor; [ exact Hab | ].
      eapply Forall_impl; [ | exact Hb ]. intros c Hc. eapply R_trans; eassumption.
Qed.

Lemma sorted_by_sorted (arr : list float) :
  numbers arr -> StronglySorted R (Array.sorted_by compare arr).
Proof.
  intros H. induction arr as [ | a arr IH]; cbn [Array.sorted_by fold_right].
  - constructor.
  - fold (Array.sorted_by compare arr).
    apply Forall_cons_iff in H as (Ha & H).
    apply insert_sorted; [ exact Ha | | apply IH; exact H ].
    eapply numbers_perm; [ symmetry; apply sorted_by_perm | exact H ].
Qed.

End Order.

Lemma sort_sorted (arr : list float) :
  numbers arr -> StronglySorted le (RainUtils.sort arr).
Proof.
  intros H. apply sorted_by_sorted; [ | | | exact H ]; unfold le.
  - intros a b Ha Hb Hgt. rewrite sub_pos in Hgt by assumption. apply float_le_of_lt. exact Hgt.
  - intros a b Ha Hb Hgt. rewrite sub_pos in Hgt by assumption.
    apply float_le_of_not_lt; assumption.
  - intros a b c. apply float_le_trans.
Qed.

Lemma sortDescending_sorted (data : list float) :
  numbers data -> StronglySorted ge (KSTest.sortDescending data).
Proof.
  intros H. apply sorted_by_sorted; [ | | | exact H ]; unfold ge.
  - intros a b Ha Hb Hgt. rewrite sub_pos in Hgt by assumption. apply float_le_of_lt. exact Hgt.
  - intros a b Ha Hb Hgt. rewrite sub_pos in Hgt by assumption.
    apply float_le_of_not_lt; assumption.
  - intros a b c H1 H2. eapply float_le_trans; eassumption.
Qed.

(** X1: [RainUtils.sort] returns the elements of its argument, each as
    often as the argument holds it, in ascending order when none of them
    is NaN. *)
Theorem sort_ascending (arr : list float) :
  numbers arr ->
  Permutation (RainUtils.sort arr) arr /\ StronglySorted le (RainUtils.sort arr).
Proof.
  intros H. split; [ apply sorted_by_perm | apply sort_sorted; exact H ].
Qed.

Lemma sort_ascending_witness :
  numbers [3; 1; 2]
  /\ Permutation (RainUtils.sort [3; 1; 2]) [3; 1; 2]
  /\ StronglySorted le (RainUtils.sort [3; 1; 2]).
Proof.
  assert (H : numbers [3; 1; 2]) by (repeat constructor).
  split; [ exact H | exact (sort_ascending [3; 1; 2] H) ].
Defined.

(** X2: [KSTest.sortDescending] returns the elements of its argument,
    each as often as the argument holds it, in descending order when none
    of them is NaN. *)
Theorem sortDescending_descending (data : list float) :
  numbers data ->
  Permutation (KSTest.sortDescending data) data
  /\ StronglySorted ge (KSTest.sortDescending data).
Proof.
  intros H. split; [ apply sorted_by_perm | apply sortDescending_sorted; exact H ].
Qed.

Lemma sortDescending_descending_witness :
  numbers [3; 1; 2]
  /\ Permutation (KSTest.sortDescending [3; 1; 2]) [3; 1; 2]
  /\ StronglySorted ge (KSTest.sortDescending [3; 1; 2]).
Proof.
  assert (H : numbers [3; 1; 2]) by (repeat constructor).
  split; [ exact H | exact (sortDescending_descending [3; 1; 2] H) ].
Defined.

End SortFacts.

(** ** The extremes of [statistics] *)

Module StatisticsFacts.

Lemma sorted_first (l : list float) :
  numbers l -> StronglySorted le l ->
  forall x, In x l -> le (nth 0 l nan) x.
Proof.
  intros Hn Hs x Hx. destruct l as [ | a l]; [ contradiction | ]. cbn [nth].
  apply StronglySorted_inv in Hs as (_ & Ha).
  destruct Hx as [<- | Hx].
  - apply float_le_refl. apply Forall_inv in Hn. exact Hn.
  - rewrite Forall_forall in Ha. apply Ha. exact Hx.
Qed.

Lemma sorted_last (l : list float) :
  numbers l -> StronglySorted le l ->
  forall x, In x l -> le x (nth (length l - 1) l nan).
Proof.
  intros Hn Hs. induction Hs as [ | a l Hs IH Ha]; intros x Hx; [ contradiction | ].
  apply Forall_cons_iff in Hn as (Hna & Hn).
  destruct l as [ | b l].
  - destruct Hx as [<- | []]. cbn. apply float_le_refl. exact Hna.
  - replace (length (a :: b :: l) - 1)%nat with (S (length (b :: l) - 1))
      by (cbn [length]; lia).
    cbn [nth].
    assert (Hlast : forall y, In y (b :: l) -> le y (nth (length (b :: l) - 1) (b :: l) nan))
      by (apply IH; exact Hn).
    destruct Hx as [<- | Hx]; [ | apply Hlast; exact Hx ].
    rewrite Forall_forall in Ha.
    unfold le in *. eapply float_le_trans; [ apply Ha; left; reflexivity | ].
    apply Hlast. left. reflexivity.
Qed.

Section WithHost.
Variable host : Host.

Lemma statistics_Xmin (X : list float) :
  X <> [] -> RainUtils.Xmin (RainUtils.statistics host X) = Array.get (RainUtils.sort X) 0.
Proof.
  intros HX. unfold RainUtils.statistics.
  destruct X as [ | x X]; [ contradiction | ]. cbn [length Nat.eqb].
  unfold RainUtils.summary.
  destruct (RainUtils.sumDiffs host _ _) as [sq cube]. reflexivity.
Qed.

Lemma statistics_Xmax (X : list float) :
  X <> [] ->
  RainUtils.Xmax (RainUtils.statistics host X) = Array.get (RainUtils.sort X) (length X - 1).
Proof.
  intros HX. unfold RainUtils.statistics.
  destruct X as [ | x X]; [ contradiction | ]. cbn [length Nat.eqb].
  unfold RainUtils.summary.
  destruct (RainUtils.sumDiffs host _ _) as [sq cube]. reflexivity.
Qed.

(** The first and the last element of the sorted copy. *)
Lemma sort_extremes (X : list float) :
  X <> [] -> numbers X ->
  In (Array.get (RainUtils.sort X) 0) X
  /\ In (Array.get (RainUtils.sort X) (length X - 1)) X
  /\ forall x, In x X ->
       le (Array.get (RainUtils.sort X) 0) x
       /\ le x (Array.get (RainUtils.sort X) (length X - 1)).
Proof.
  intros HX Hn.
  assert (HP : Permutation (RainUtils.sort X) X) by apply SortFacts.sorted_by_perm.
  assert (Hs : StronglySorted le (RainUtils.sort X)) by (apply SortFacts.sort_sorted; exact Hn).
  assert (Hn' : numbers (RainUtils.sort X))
    by (eapply SortFacts.numbers_perm; [ symmetry; exact HP | exact Hn ]).
  assert (Hlen : length (RainUtils.sort X) = length X) by (apply Permutation_length; exact HP).
  assert (Hpos : (0 < length X)%nat) by (destruct X; [ contradiction | cbn; lia ]).
  unfold Array.get. repeat split.
  - eapply Permutation_in; [ exact HP | ]. apply nth_In. lia.
  - eapply Permutation_in; [ exact HP | ]. apply nth_In. lia.
  - apply sorted_first; try assumption. eapply Permutation_in; [ symmetry; exact HP | exact H ].
  - rewrite <- Hlen. apply sorted_last; try assumption.
    eapply Permutation_in; [ symmetry; exact HP | exact H ].
Qed.

(** X3: for a sample that is not empty and holds no NaN, [Xmin] and
    [Xmax] of [statistics] are observations of the sample, and every
    observation lies between them. *)
Theorem statistics_extremes (X : list float) :
  X <> [] -> numbers X ->
  let stats := RainUtils.statistics host X in
  In (RainUtils.Xmin stats) X /\ In (RainUtils.Xmax stats) X
  /\ forall x, In x X -> le (RainUtils.Xmin stats) x /\ le x (RainUtils.Xmax stats).
Proof.
  intros HX Hn stats. unfold stats.
  rewrite statistics_Xmin, statistics_Xmax by exact HX.
  apply sort_extremes; assumption.
Qed.

End WithHost.

Lemma statistics_extremes_witness :
  [3; 1; 2] <> @nil float /\ numbers [3; 1; 2]
  /\ RainUtils.Xmin (RainUtils.statistics SampleHost.host [3; 1; 2]) = 1
  /\ RainUtils.Xmax (RainUtils.statistics SampleHost.host [3; 1; 2]) = 3
  /\ forall x, In x [3; 1; 2] ->
       le (RainUtils.Xmin (RainUtils.statistics SampleHost.host [3; 1; 2])) x
       /\ le x (RainUtils.Xmax (RainUtils.statistics SampleHost.host [3; 1; 2])).
Proof.
  assert (HX : [3; 1; 2] <> @nil float) by discriminate.
  assert (Hn : numbers [3; 1; 2]) by (repeat constructor).
  split; [ exact HX | split; [ exact Hn | ] ].
  split; [ reflexivity | split; [ reflexivity | ] ].
  exact (proj2 (proj2 (statistics_extremes SampleHost.host [3; 1; 2] HX Hn))).
Defined.

End StatisticsFacts.

(** ** [calculateStatistics] against [RainUtils.statistics] *)

Module CalculateStatisticsFacts.
Import Statistics.

Lemma positive_zero (x : float) : Math.isPositiveZero x = true -> x = 0.
Proof.
  unfold Math.isPositiveZero. rewrite classify_spec. intros H.
  apply Prim2SF_inj. change (Prim2SF 0) with (S754_zero false).
  unfold SF64classify, SFclassify in H.
  destruct (Prim2SF x) as [ [ | ] | [ | ] | | [ | ] m e ]; try discriminate; try reflexivity;
    destruct (Z.pos (digits2_pos m) =? prec)%Z; discriminate.
Qed.

Lemma negative_zero (x : float) : Math.isNegativeZero x = true -> x = (-0).
Proof.
  unfold Math.isNegativeZero. rewrite classify_spec. intros H.
  apply Prim2SF_inj. change (Prim2SF (-0)) with (S754_zero true).
  unfold SF64classify, SFclassify in H.
  destruct (Prim2SF x) as [ [ | ] | [ | ] | | [ | ] m e ]; try discriminate; try reflexivity;
    destruct (Z.pos (digits2_pos m) =? prec)%Z; discriminate.
Qed.

Lemma neg_infinity_least (x : float) : Number.isNaN x = false -> le neg_infinity x.
Proof.
  intros Hx. destruct (number_key x Hx) as (k & Hk).
  apply leb_key. change (Prim2SF neg_infinity) with (S754_infinity true). cbn [key].
  eexists _, k. repeat split; [ exact Hk | ].
  destruct (Prim2SF x) as [ [ | ] | [ | ] | | [ | ] m e ]; cbn [key] in Hk;
    try discriminate; injection Hk as <-; cbn [lexlt]; auto; right; lia.
Qed.

Lemma infinity_greatest (x : float) : Number.isNaN x = false -> le x infinity.
Proof.
  intros Hx. destruct (number_key x Hx) as (k & Hk).
  apply leb_key. change (Prim2SF infinity) with (S754_infinity false). cbn [key].
  eexists k, _. repeat split; [ exact Hk | ].
  destruct (Prim2SF x) as [ [ | ] | [ | ] | | [ | ] m e ]; cbn [key] in Hk;
    try discriminate; injection Hk as <-; cbn [lexlt]; auto; right; lia.
Qed.

(** What [Math.max] returns on numbers: an upper bound that is the
    starting value or one of the arguments. *)
Lemma max_from_spec (values : list float) : forall highest,
  Number.isNaN highest = false -> numbers values ->
  let r := Math.max_from highest values in
  le highest r /\ (forall x, In x values -> le x r) /\ (r = highest \/ In r values).
Proof.
  induction values as [ | number rest IH]; intros highest Hh Hn; cbn [Math.max_from].
  - cbn zeta. split; [ apply float_le_refl; exact Hh | ]. split; [ intros x [] | left; reflexivity ].
  - apply Forall_cons_iff in Hn as (Hx & Hn). rewrite Hx.
    set (h1 := if Math.isPositiveZero number && Math.isNegativeZero highest then 0 else highest).
    set (h2 := if h1 <? number then number else h1).
    assert (H1 : Number.isNaN h1 = false /\ le highest h1 /\ (h1 = highest \/ h1 = number)).
    { unfold h1. destruct (Math.isPositiveZero number) eqn:Ep; cbn [andb];
        [ | repeat split; [ exact Hh | apply float_le_refl; exact Hh | left; reflexivity ] ].
      destruct (Math.isNegativeZero highest) eqn:En;
        [ | repeat split; [ exact Hh | apply float_le_refl; exact Hh | left; reflexivity ] ].
      apply positive_zero in Ep. apply negative_zero in En. subst.
      repeat split; auto. }
    destruct H1 as (Hn1 & Hle1 & Hor1).
    assert (H2 : Number.isNaN h2 = false /\ le h1 h2 /\ le number h2
                 /\ (h2 = h1 \/ h2 = number)).
    { unfold h2. destruct (h1 <? number) eqn:E.
      - repeat split; [ exact Hx | apply float_le_of_lt; exact E | apply float_le_refl; exact Hx
                      | right; reflexivity ].
      - repeat split; [ exact Hn1 | apply float_le_refl; exact Hn1
                      | apply float_le_of_not_lt; assumption | left; reflexivity ]. }
    destruct H2 as (Hn2 & Hle2 & Hle2' & Hor2).
    destruct (IH h2 Hn2 Hn) as (Hr & Hall & Hin). cbn zeta in *.
    fold h1. fold h2. unfold le in *.
    split; [ eapply float_le_trans; [ exact Hle1 | eapply float_le_trans; [ exact Hle2 | exact Hr ] ] | ].
    split.
    + intros x [<- | Hxr]; [ eapply float_le_trans; [ exact Hle2' | exact Hr ] | apply Hall; exact Hxr ].
    + destruct Hin as [-> | Hin]; [ | right; right; exact Hin ].
      destruct Hor2 as [-> | ->]; [ | right; left; reflexivity ].
      destruct Hor1 as [-> | ->]; [ left; reflexivity | right; left; reflexivity ].
Qed.

Lemma min_from_spec (values : list float) : forall lowest,
  Number.isNaN lowest = false -> numbers values ->
  let r := Math.min_from lowest values in
  le r lowest /\ (forall x, In x values -> le r x) /\ (r = lowest \/ In r values).
Proof.
  induction values as [ | number rest IH]; intros lowest Hh Hn; cbn [Math.min_from].
  - cbn zeta. split; [ apply float_le_refl; exact Hh | ]. split; [ intros x [] | left; reflexivity ].
  - apply Forall_cons_iff in Hn as (Hx & Hn). rewrite Hx.
    set (h1 := if Math.isNegativeZero number && Math.isPositiveZero lowest then -0 else lowest).
    set (h2 := if number <? h1 then number else h1).
    assert (H1 : Number.isNaN h1 = false /\ le h1 lowest /\ (h1 = lowest \/ h1 = number)).
    { unfold h1. destruct (Math.isNegativeZero number) eqn:Ep; cbn [andb];
        [ | repeat split; [ exact Hh | apply float_le_refl; exact Hh | left; reflexivity ] ].
      destruct (Math.isPositiveZero lowest) eqn:En;
        [ | repeat split; [ exact Hh | apply float_le_refl; exact Hh | left; reflexivity ] ].
      apply negative_zero in Ep. apply positive_zero in En. subst.
      repeat split; auto. }
    destruct H1 as (Hn1 & Hle1 & Hor1).
    assert (H2 : Number.isNaN h2 = false /\ le h2 h1 /\ le h2 number
                 /\ (h2 = h1 \/ h2 = number)).
    { unfold h2. destruct (number <? h1) eqn:E.
      - repeat split; [ exact Hx | apply float_le_of_lt; exact E | apply float_le_refl; exact Hx
                      | right; reflexivity ].
      - repeat split; [ exact Hn1 | apply float_le_refl; exact Hn1
                      | apply float_le_of_not_lt; assumption | left; reflexivity ]. }
    destruct H2 as (Hn2 & Hle2 & Hle2' & Hor2).
    destruct (IH h2 Hn2 Hn) as (Hr & Hall & Hin). cbn zeta in *.
    fold h1. fold h2. unfold le in *.
    split; [ eapply float_le_trans; [ exact Hr | eapply float_le_trans; [ exact Hle2 | exact Hle1 ] ] | ].
    split.
    + intros x [<- | Hxr]; [ eapply float_le_trans; [ exact Hr | exact Hle2' ] | apply Hall; exact Hxr ].
    + destruct Hin as [-> | Hin]; [ | right; right; exact Hin ].
      destruct Hor2 as [-> | ->]; [ | right; left; reflexivity ].
      destruct Hor1 as [-> | ->]; [ left; reflexivity | right; left; reflexivity ].
Qed.

Section WithHost.
Variable host : Host.

(** X4: [calculateStatistics] is [null] on an empty array; on any other
    array its mean, standard deviation and coefficient of variation are
    those of [RainUtils.statistics], bit for bit, and when no element is
    NaN its maximum and minimum equal [Xmax] and [Xmin]. *)
Theorem calculateStatistics_agrees (dataArray : list float) :
  dataArray <> [] ->
  calculateStatistics host [] = None
  /\ exists s,
       calculateStatistics host dataArray = Some s
       /\ mean s = RainUtils.M (RainUtils.statistics host dataArray)
       /\ stdDev s = RainUtils.SD (RainUtils.statistics host dataArray)
       /\ cv s = RainUtils.Cv (RainUtils.statistics host dataArray)
       /\ (numbers dataArray ->
           (max s =? RainUtils.Xmax (RainUtils.statistics host dataArray)) = true
           /\ (min s =? RainUtils.Xmin (RainUtils.statistics host dataArray)) = true).
Proof.
  intros HX. split; [ reflexivity | ].
  pose proof (StatisticsFacts.sort_extremes dataArray HX) as Hext.
  unfold calculateStatistics, RainUtils.statistics in *.
  destruct (Nat.eqb_spec (length dataArray) 0) as [Hlen | Hlen];
    [ destruct dataArray; [ contradiction | discriminate ] | ].
  eexists. split; [ reflexivity | ]. cbn [max min mean stdDev cv].
  unfold RainUtils.summary in *.
  set (m := fold_left (fun acc val => acc + val) dataArray 0
            / Number.of_nat (length dataArray)) in *.
  pose proof (FreqFacts.sumDiffs_squares host m dataArray) as Hsq. unfold sumSquares in Hsq.
  destruct (RainUtils.sumDiffs host m dataArray) as [sumSqDiff sumCubeDiff].
  cbn [fst] in Hsq. cbn [RainUtils.M RainUtils.SD RainUtils.Cv RainUtils.Xmin RainUtils.Xmax] in *.
  rewrite <- Hsq.
  split; [ reflexivity | ]. split; [ reflexivity | ].
  split; [ destruct (m =? 0); reflexivity | ].
  intros Hn. destruct (Hext Hn) as (Hmin & Hmax & Hall). clear Hext.
  assert (Hpos : exists x, In x dataArray)
    by (destruct dataArray as [ | x l]; [ contradiction | exists x; left; reflexivity ]).
  destruct Hpos as (x0 & Hx0).
  split.
  - destruct (max_from_spec dataArray neg_infinity eq_refl Hn) as (_ & Hub & Hor).
    fold (Math.max dataArray) in Hub, Hor. unfold le in *.
    apply float_le_antisym; [ | apply Hub; exact Hmax ].
    destruct Hor as [-> | Hin]; [ | apply Hall; exact Hin ].
    apply neg_infinity_least. unfold numbers in Hn. rewrite Forall_forall in Hn.
    apply Hn. exact Hmax.
  - destruct (min_from_spec dataArray infinity eq_refl Hn) as (_ & Hlb & Hor).
    fold (Math.min dataArray) in Hlb, Hor. unfold le in *.
    apply float_le_antisym; [ apply Hlb; exact Hmin | ].
    destruct Hor as [-> | Hin]; [ | apply Hall; exact Hin ].
    apply infinity_greatest. unfold numbers in Hn. rewrite Forall_forall in Hn.
    apply Hn. exact Hmin.
Qed.

End WithHost.

Lemma calculateStatistics_agrees_witness :
  [3; 1; 2] <> @nil float
  /\ exists s,
       calculateStatistics SampleHost.host [3; 1; 2] = Some s
       /\ mean s = RainUtils.M (RainUtils.statistics SampleHost.host [3; 1; 2])
       /\ max s = 3.
Proof.
  assert (HX : [3; 1; 2] <> @nil float) by discriminate.
  split; [ exact HX | ].
  destruct (proj2 (calculateStatistics_agrees SampleHost.host [3; 1; 2] HX))
    as (s & Hs & Hmean & _).
  exists s. split; [ exact Hs | split; [ exact Hmean | ] ].
  vm_compute in Hs. injection Hs as <-. reflexivity.
Defined.

End CalculateStatisticsFacts.

(** ** The KS test: when it returns, and the ranks *)

Lemma sub_zero (x : float) : x - 0 = x.
Proof.
  apply Prim2SF_inj. rewrite sub_spec. change (Prim2SF 0) with (S754_zero false).
  destruct (Prim2SF x) as [ [ | ] | [ | ] | | [ | ] m e ]; reflexivity.
Qed.

Module KSRanks.
Import KSTest.

(** The Weibull plotting position. *)
Lemma plottingPosition_Weibull (rank n : float) :
  _plottingPosition 3 rank n = rank / (n + 1).
Proof.
  unfold _plottingPosition. cbn [Z.eqb Pos.eqb].
  change (2.0 * 0.0) with 0. rewrite !sub_zero. reflexivity.
Qed.

Section WithHost.
Variable host : Host.

Lemma bounds_supported d mean std skew px probLower probUpper :
  supported d -> exists zs, bounds host d mean std skew px probLower probUpper = Returned zs.
Proof.
  unfold supported. intros Hd.
  assert (Hcases : d = 1%Z \/ d = 2%Z \/ d = 3%Z \/ d = 4%Z \/ d = 5%Z) by lia.
  destruct Hcases as [-> | [-> | [-> | [-> | ->]]]]; eexists; reflexivity.
Qed.

Lemma bounds_unsupported d mean std skew px probLower probUpper :
  ~ supported d ->
  bounds host d mean std skew px probLower probUpper
  = Thrown ("Unsupported distribution type: " ++ Number.toString d).
Proof.
  unfold supported, bounds. intros Hd.
  unfold DistributionType.Normal, DistributionType.LogNormal, DistributionType.PearsonType3,
    DistributionType.LogPearsonType3, DistributionType.ExtremeValueType1.
  destruct (Z.eqb_spec d 1); [ lia | ]. destruct (Z.eqb_spec d 2); [ lia | ].
  destruct (Z.eqb_spec d 3); [ lia | ]. destruct (Z.eqb_spec d 4); [ lia | ].
  destruct (Z.eqb_spec d 5); [ lia | ]. reflexivity.
Qed.

Lemma rankStep_supported d N sortedData mean std skew i s :
  supported d -> exists s', rankStep host d N sortedData mean std skew i s = Returned s'.
Proof.
  intros Hd. unfold rankStep. cbn zeta.
  destruct (bounds_supported d mean std skew
              (_plottingPosition 3 (Number.of_nat i) (Number.of_nat N))
              ((Number.of_nat i - 1.0) / Number.of_nat N + Ca s)
              (Number.of_nat i / Number.of_nat N - Ca s) Hd) as ([[zEst zLow] zHigh] & ->).
  cbn [bind]. destruct (requiresLog d); destruct (markOf _ _ _); eexists; reflexivity.
Qed.

Lemma rankLoop_supported d N sortedData mean std skew ranks : forall s,
  supported d ->
  exists s', for_each (rankStep host d N sortedData mean std skew) ranks s = Returned s'.
Proof.
  induction ranks as [ | i ranks IH]; intros s Hd; cbn [for_each].
  - eexists; reflexivity.
  - destruct (rankStep_supported d N sortedData mean std skew i s Hd) as (s1 & ->).
    cbn [bind]. apply IH. exact Hd.
Qed.

(** X5: [runTest] throws on an empty sample, whatever the distribution
    code; on any other sample it throws for a code outside
    [DistributionType], naming the code, and returns for the five codes. *)
Theorem runTest_outcome (this : KSTest) (d : Z) (data : list float) :
  runTest host this d [] = Thrown "Input data array cannot be empty."
  /\ (data <> [] -> ~ supported d ->
      runTest host this d data
      = Thrown ("Unsupported distribution type: " ++ Number.toString d))
  /\ (data <> [] -> supported d -> exists r, runTest host this d data = Returned r).
Proof.
  split; [ reflexivity | ]. split.
  - intros Hdata Hd. unfold runTest.
    destruct data as [ | x data]; [ contradiction | ].
    cbn [length Nat.eqb]. unfold rankLoop. cbn [seq for_each].
    unfold rankStep at 1. cbn zeta. rewrite bounds_unsupported by exact Hd. reflexivity.
  - intros Hdata Hd. unfold runTest.
    destruct data as [ | x data]; [ contradiction | ].
    cbn [length Nat.eqb]. unfold rankLoop. apply rankLoop_supported. exact Hd.
Qed.

(** One iteration appends the plotting position of its rank. *)
Lemma rankStep_prob d N sortedData mean std skew i s s' :
  rankStep host d N sortedData mean std skew i s = Returned s' ->
  Ca s' = Ca s /\ obs s' = obs s
  /\ length (est s') = S (length (est s))
  /\ prob s' = prob s ++ [Number.of_nat i / (Number.of_nat N + 1)].
Proof.
  unfold rankStep. cbn zeta. rewrite plottingPosition_Weibull.
  destruct (bounds host d mean std skew _ _ _) as [[[zEst zLow] zHigh] | m];
    cbn [bind]; [ | discriminate ].
  destruct (requiresLog d); destruct (markOf _ _ _); intros [= <-]; cbn;
    rewrite length_app; cbn; repeat split; lia.
Qed.

Lemma ranks_prob d N sortedData mean std skew s0 j : forall s,
  est s0 = [] -> prob s0 = [] ->
  for_each (rankStep host d N sortedData mean std skew) (seq 1 j) s0 = Returned s ->
  Ca s = Ca s0 /\ obs s = obs s0 /\ length (est s) = j /\ length (prob s) = j
  /\ forall i, (i < j)%nat ->
       nth i (prob s) nan = Number.of_nat (S i) / (Number.of_nat N + 1).
Proof.
  intros s He Hp. revert s. induction j as [ | j IH]; intros s H.
  - cbn [seq for_each] in H. injection H as <-. rewrite He, Hp.
    repeat split; auto. intros i Hi. lia.
  - rewrite seq_S, KSFacts.for_each_app in H.
    destruct (for_each _ (seq 1 j) s0) as [s1 | m]; cbn [bind] in H; [ | discriminate ].
    destruct (IH s1 eq_refl) as (C1 & O1 & E1 & P1 & K1).
    cbn [for_each] in H.
    destruct (rankStep host d N sortedData mean std skew (1 + j) s1) as [s2 | m] eqn:Hstep;
      cbn [bind] in H; [ | discriminate ].
    injection H as <-.
    apply rankStep_prob in Hstep as (C2 & O2 & E2 & P2).
    repeat split; try congruence.
    + rewrite P2, length_app. cbn. lia.
    + intros i Hi. rewrite P2. destruct (Nat.eq_dec i j) as [-> | Hne].
      * rewrite KSFacts.nth_snoc_last by assumption. reflexivity.
      * rewrite app_nth1 by lia. apply K1. lia.
Qed.

(** X6: in a result of [runTest] over N observations, [obs] holds the
    observations, in descending order when none is NaN; [est] and [prob]
    have N cells; the plotting position of the observation at index i (the
    rank i + 1) is the Weibull one, [(i + 1) / (N + 1)]; and [Ca] is
    [alpha / (sqrt N - 0.01 + 0.85 / sqrt N)]. *)
Theorem ks_ranks (this : KSTest) (d : Z) (data : list float) (r : KSResult) :
  runTest host this d data = Returned r ->
  let N := length data in
  Permutation (obs r) data
  /\ (numbers data -> StronglySorted ge (obs r))
  /\ length (est r) = N /\ length (prob r) = N
  /\ (forall i, (i < N)%nat ->
        nth i (prob r) nan = Number.of_nat (S i) / (Number.of_nat N + 1))
  /\ Ca r = alpha this
            / (Math.sqrt (Number.of_nat N) - 0.01 + 0.85 / Math.sqrt (Number.of_nat N)).
Proof.
  intros H N. unfold runTest in H. fold N in H.
  destruct (N =? 0)%nat; [ discriminate | ].
  unfold rankLoop in H.
  apply ranks_prob in H as (HC & HO & HE & HP & HK); try reflexivity.
  cbn [Ca obs] in HC, HO. rewrite HO.
  split; [ apply SortFacts.sorted_by_perm | ].
  split; [ apply SortFacts.sortDescending_sorted | ].
  repeat split; assumption.
Qed.

End WithHost.

Lemma ks_ranks_witness :
  exists r,
    runTest SampleHost.host {| confidenceLevelIndex := 2; alpha := 0.895 |}
      DistributionType.Normal [2; 3; 1] = Returned r
    /\ obs r = [3; 2; 1]
    /\ prob r = [0.25; 0.5; 0.75]
    /\ Permutation (obs r) [2; 3; 1]
    /\ (forall i, (i < 3)%nat ->
          nth i (prob r) nan = Number.of_nat (S i) / (Number.of_nat 3 + 1)).
Proof.
  eexists. split; [ vm_compute; reflexivity | ].
  split; [ reflexivity | ]. split; [ reflexivity | ].
  refine ((fun H => conj (proj1 H) (proj1 (proj2 (proj2 (proj2 (proj2 H))))))
            (ks_ranks SampleHost.host {| confidenceLevelIndex := 2; alpha := 0.895 |}
               DistributionType.Normal [2; 3; 1] _ _)).
  vm_compute. reflexivity.
Defined.

End KSRanks.

(** ** Frequency analysis: codes, edge probabilities and the logarithm *)

Module FreqEdges.
Import FrequencyAnalysis.

Section WithHost.
Variable host : Host.

(** X7: [freq] returns for the five codes of [DistributionType] and throws
    for every other code, naming it, whatever the sample and the return
    period. *)
Theorem freq_outcome (d : Z) (y : list float) (T : float) :
  (supported d -> exists r, freq host d y T = Returned r)
  /\ (~ supported d ->
      freq host d y T = Thrown ("不支援的分佈型態: " ++ Number.toString d)).
Proof.
  unfold supported, freq, estimate. split; intros Hd.
  - assert (Hcases : d = 1%Z \/ d = 2%Z \/ d = 3%Z \/ d = 4%Z \/ d = 5%Z) by lia.
    destruct Hcases as [-> | [-> | [-> | [-> | ->]]]]; eexists; reflexivity.
  - unfold DistributionType.Normal, DistributionType.LogNormal,
      DistributionType.PearsonType3, DistributionType.LogPearsonType3,
      DistributionType.ExtremeValueType1.
    destruct (Z.eqb_spec d 1); [ lia | ]. destruct (Z.eqb_spec d 2); [ lia | ].
    destruct (Z.eqb_spec d 3); [ lia | ]. destruct (Z.eqb_spec d 4); [ lia | ].
    destruct (Z.eqb_spec d 5); [ lia | ]. reflexivity.
Qed.

(** The logarithm step takes an observation that is not above 1e-6 for
    the observation 1. *)
Lemma logOrZero_floor (v : float) :
  (1e-6 <? v) = false -> logOrZero host v = logOrZero host 1.
Proof. intros H. unfold logOrZero. rewrite H. reflexivity. Qed.

(** X8: under the two logarithmic distributions [freq] gives an
    observation that is not above 1e-6 (zero, a negative number, NaN) the
    logarithm 0: replacing such observations by 1 changes nothing. *)
Theorem freq_log_floor (d : Z) (y y' : list float) (T : float) :
  requiresLog d = true ->
  Forall2 (fun v w => w = v \/ ((1e-6 <? v) = false /\ w = 1)) y y' ->
  freq host d y T = freq host d y' T.
Proof.
  intros Hd H. unfold freq. rewrite Hd.
  assert (E : map (logOrZero host) y = map (logOrZero host) y').
  { induction H as [ | v w y y' Hvw H IH]; cbn [map]; [ reflexivity | ].
    rewrite IH. f_equal.
    destruct Hvw as [-> | (Hv & ->)]; [ reflexivity | apply logOrZero_floor; exact Hv ]. }
  rewrite E. reflexivity.
Qed.

(** X9: [Extreme] at the ends of the probabilities: +Infinity at 0,
    -Infinity at 1, and NaN above 1 and on NaN. *)
Theorem Extreme_edges (px : float) :
  (1 <? px) = true ->
  RainUtils.Extreme host px = nan
  /\ RainUtils.Extreme host 0 = infinity
  /\ RainUtils.Extreme host 1 = neg_infinity
  /\ RainUtils.Extreme host nan = nan.
Proof.
  intros Hpx. repeat split; try reflexivity.
  unfold RainUtils.Extreme.
  assert (Hn : Number.isNaN px = false).
  { apply ltb_key in Hpx as (a & b & _ & Hb & _).
    unfold Number.isNaN. apply negb_false_iff. apply eqb_key. exists b. auto. }
  assert (Hneg : (1 - px <? 0) = true) by (rewrite sub_neg by auto; exact Hpx).
  assert (Hlog : Math.log host (1 - px) = nan).
  { unfold Math.log.
    assert (Hd : Number.isNaN (1 - px) = false).
    { apply ltb_key in Hneg as (a & b & Ha & _ & _).
      unfold Number.isNaN. apply negb_false_iff. apply eqb_key. exists a. auto. }
    rewrite Hd.
    assert (H1 : (1 - px =? infinity) = false).
    { destruct (1 - px =? infinity) eqn:E; [ | reflexivity ].
      apply eqb_key in E as (k & Hk & Hi). apply ltb_key in Hneg as (a & b & Ha & Hb & Hlt).
      rewrite Hk in Ha. change (Prim2SF infinity) with (S754_infinity false) in Hi.
      change (Prim2SF 0) with (S754_zero false) in Hb. cbn [key] in *. lex_lia. }
    assert (H2 : (1 - px =? 1) = false).
    { destruct (1 - px =? 1) eqn:E; [ | reflexivity ].
      apply eqb_key in E as (k & Hk & Hi). apply ltb_key in Hneg as (a & b & Ha & Hb & Hlt).
      rewrite Hk in Ha. change (Prim2SF 1) with (S754_finite false 4503599627370496 (-52)) in Hi.
      change (Prim2SF 0) with (S754_zero false) in Hb. cbn [key] in *. lex_lia. }
    assert (H3 : (1 - px =? 0) = false).
    { destruct (1 - px =? 0) eqn:E; [ | reflexivity ].
      apply eqb_key in E as (k & Hk & Hi). apply ltb_key in Hneg as (a & b & Ha & Hb & Hlt).
      rewrite Hk in Ha. rewrite Hi in Hb. lex_lia. }
    rewrite H1, H2, H3, Hneg. reflexivity. }
  rewrite Hlog. reflexivity.
Qed.

End WithHost.

Lemma freq_log_floor_witness :
  requiresLog DistributionType.LogNormal = true
  /\ freq SampleHost.host DistributionType.LogNormal [0; 10; 100] 10
     = freq SampleHost.host DistributionType.LogNormal [1; 10; 100] 10.
Proof.
  split; [ reflexivity | ].
  apply (freq_log_floor SampleHost.host DistributionType.LogNormal
           [0; 10; 100] [1; 10; 100] 10 eq_refl).
  constructor; [ right; split; reflexivity | ].
  constructor; [ left; reflexivity | ].
  constructor; [ left; reflexivity | constructor ].
Defined.

Lemma Extreme_edges_witness :
  (1 <? 2) = true /\ RainUtils.Extreme SampleHost.host 2 = nan.
Proof.
  split; [ reflexivity | ].
  exact (proj1 (Extreme_edges SampleHost.host 2 eq_refl)).
Defined.

End FreqEdges.

(** ** Return periods *)

Lemma not_lt_of_le (x y : float) : le x y -> (y <? x) = false.
Proof.
  unfold le. intros H. destruct (y <? x) eqn:E; [ exfalso | reflexivity ].
  apply leb_key in H as (a & b & Ha & Hb & Hab).
  apply ltb_key in E as (b' & a' & Hb' & Ha' & Hlt).
  rewrite Ha in Ha'. rewrite Hb in Hb'. destruct Hab as [E | Hab]; lex_lia.
Qed.

Lemma ltb_nan_r (x : float) : (x <? nan) = false.
Proof.
  destruct (x <? nan) eqn:E; [ exfalso | reflexivity ].
  apply ltb_key in E as (a & b & _ & Hb & _). discriminate.
Qed.

Lemma ltb_nan_l (x : float) : (nan <? x) = false.
Proof.
  destruct (nan <? x) eqn:E; [ exfalso | reflexivity ].
  apply ltb_key in E as (a & b & Ha & _ & _). discriminate.
Qed.

Module ReturnPeriodFacts.
Import FindReturnPeriod.

(** Where the loop of [findReturnPeriod] stops. *)
Lemma search_spec (value : float) (q : list float) (n : nat) : forall fuel i,
  (n <= fuel + i)%nat ->
  let k := search value q n fuel i in
  (i <= k)%nat
  /\ (forall j, (i <= j < k)%nat -> (value <? Array.get q j) = false)
  /\ (((k + 1 < n)%nat /\ (value <? Array.get q k) = true)
      \/ (~ (k + 1 < n)%nat /\ (k = i \/ (k + 1)%nat = n))).
Proof.
  induction fuel as [ | fuel IH]; intros i Hfuel; cbn [search]; cbn zeta.
  - split; [ lia | ]. split; [ intros j Hj; lia | right; lia ].
  - destruct (Z.ltb_spec (Z.of_nat i) (Z.of_nat n - 1)) as [Hguard | Hguard].
    + destruct (value <? Array.get q i) eqn:E.
      * split; [ lia | ]. split; [ intros j Hj; lia | left; split; [ lia | exact E ] ].
      * destruct (IH (S i)) as (Hk & Hbefore & Hstop); [ lia | ]. cbn zeta in *.
        split; [ lia | ]. split.
        -- intros j Hj. destruct (Nat.eq_dec j i) as [-> | Hne]; [ exact E | ].
           apply Hbefore. lia.
        -- destruct Hstop as [Hstop | (Hguard' & Hor)]; [ left; exact Hstop | ].
           right. split; [ exact Hguard' | right; lia ].
    + split; [ lia | ]. split; [ intros j Hj; lia | right; lia ].
Qed.

Lemma number_cell (q : list float) (i : nat) :
  numbers q -> (i < length q)%nat -> Number.isNaN (Array.get q i) = false.
Proof.
  intros Hq Hi. unfold numbers in Hq. rewrite Forall_forall in Hq.
  apply Hq. apply nth_In. exact Hi.
Qed.

(** X10: for estimates [q] that hold no NaN, two of them at least, and a
    value between the first and the last, [findReturnPeriod] returns the
    label [RpStr[k]] of an index k of 1..n-1 with
    [q[k - 1] <= value <= q[k]]. *)
Theorem findReturnPeriod_bracket (value : float) (q : list float) :
  numbers q -> Number.isNaN value = false -> (2 <= length q)%nat ->
  le (Array.get q 0) value -> le value (Array.get q (length q - 1)) ->
  exists k,
    (1 <= k <= length q - 1)%nat
    /\ findReturnPeriod value q = label k
    /\ le (Array.get q (k - 1)) value /\ le value (Array.get q k).
Proof.
  intros Hq Hv Hn Hlow Hhigh. unfold findReturnPeriod.
  rewrite (not_lt_of_le _ _ Hlow).
  unfold at_index.
  destruct (Z.ltb_spec (Z.of_nat (length q) - 1) 0) as [ | _]; [ lia | ].
  replace (Z.to_nat (Z.of_nat (length q) - 1)) with (length q - 1)%nat by lia.
  rewrite (not_lt_of_le _ _ Hhigh). cbn zeta.
  destruct (search_spec value q (length q) (length q) 1) as (Hk & Hbefore & Hstop); [ lia | ].
  cbn zeta in *. set (k := search value q (length q) (length q) 1) in *.
  assert (Hkn : (k <= length q - 1)%nat) by (destruct Hstop as [ | ]; lia).
  exists k. split; [ lia | ]. split; [ reflexivity | ]. split.
  - destruct (Nat.eq_dec k 1) as [-> | Hne]; [ exact Hlow | ].
    apply float_le_of_not_lt; [ apply number_cell; [ exact Hq | lia ] | exact Hv | ].
    apply Hbefore. lia.
  - destruct Hstop as [(_ & Hlt) | (Hguard & _)].
    + apply float_le_of_lt. exact Hlt.
    + replace k with (length q - 1)%nat by lia. exact Hhigh.
Qed.

(** Every index up to 10 has a label in [RpStr]. *)
Lemma label_defined (k : nat) :
  (k <= 10)%nat -> exists s, nth_error RpStr k = Some s /\ label k = (s ++ "年")%string.
Proof.
  intros Hk. unfold label.
  destruct (nth_error RpStr k) as [s | ] eqn:E; [ exists s; auto | exfalso ].
  apply nth_error_None in E. cbn [RpStr length] in E. lia.
Qed.

Lemma findReturnPeriod_index (value : float) (q : list float) :
  exists k, (k <= Nat.max 1 (length q))%nat /\ findReturnPeriod value q = label k.
Proof.
  unfold findReturnPeriod.
  destruct (value <? Array.get q 0); [ exists 0%nat; split; [ lia | reflexivity ] | ].
  destruct (at_index q (Z.of_nat (length q) - 1) <? value);
    [ exists (length q); split; [ lia | reflexivity ] | ].
  cbn zeta.
  destruct (search_spec value q (length q) (length q) 1) as (Hk & _ & Hstop); [ lia | ].
  cbn zeta in *. eexists. split; [ | reflexivity ].
  destruct Hstop as [ | ]; lia.
Qed.

(** X11: for at most ten estimates (the ten return periods of the
    application) the text that [findReturnPeriod] returns is an entry of
    [RpStr] followed by the year sign, never the text of [undefined]; for
    no estimates at all it is the second entry. *)
Theorem findReturnPeriod_label (value : float) (q : list float) :
  (length q <= 10)%nat ->
  (exists k s, nth_error RpStr k = Some s /\ findReturnPeriod value q = (s ++ "年")%string)
  /\ findReturnPeriod value [] = "1.11~2年"%string.
Proof.
  intros Hq. split.
  2: { unfold findReturnPeriod, at_index, Array.get. cbn [length nth Z.of_nat Z.sub Z.ltb].
       cbn. rewrite ltb_nan_r, ltb_nan_l. reflexivity. }
  destruct (findReturnPeriod_index value q) as (k & Hk & ->).
  destruct (label_defined k) as (s & Hs & ->); [ lia | ].
  exists k, s. auto.
Qed.

Section WithHost.
Variable host : Host.

(** [freq] returns for the five codes of [DistributionType], so the
    [catch] of the click handler is not entered for them: the estimates
    are the [Qest] of the results of [freq], period by period. *)
Lemma estimates_returned (distType : Z) (rainData periods : list float) :
  supported distType ->
  exists results,
    Forall2
      (fun period result =>
         FrequencyAnalysis.freq host distType rainData period = Returned result)
      periods results
    /\ map
         (fun period =>
            match FrequencyAnalysis.freq host distType rainData period with
            | Returned result => FrequencyAnalysis.Qest result
            | Thrown _ => infinity
            end)
         periods
       = map FrequencyAnalysis.Qest results.
Proof.
  intros Hd.
  assert (Hfreq : forall period, exists result,
            FrequencyAnalysis.freq host distType rainData period = Returned result).
  { intros period. unfold supported in Hd.
    unfold FrequencyAnalysis.freq, FrequencyAnalysis.estimate.
    assert (Hcases : distType = 1%Z \/ distType = 2%Z \/ distType = 3%Z
                     \/ distType = 4%Z \/ distType = 5%Z) by lia.
    destruct Hcases as [-> | [-> | [-> | [-> | ->]]]]; eexists; reflexivity. }
  induction periods as [ | period periods (results & Hall & Hmap)].
  - exists []. split; [ constructor | reflexivity ].
  - destruct (Hfreq period) as (result & Hresult).
    exists (result :: results). split; [ constructor; assumption | ].
    cbn [map]. rewrite Hresult, Hmap. reflexivity.
Qed.

(** X12: the click handler of the return-period finder gives up exactly
    when the rainfall value is NaN or not positive or the sample is empty;
    otherwise it writes five texts, one per distribution, each an entry of
    [RpStr] followed by the year sign. The text of distribution
    [distType], of 1..5, is what [findReturnPeriod] returns for the
    rainfall value and the ten estimates [Qest] that [freq] returns for
    that distribution, the sample and the ten return periods of
    [DEFAULT_RETURN_PERIODS], in this order. *)
Theorem setupReturnPeriodFinder_labels (rainfallValue : float) (rainData : list float) :
  match UIManager.setupReturnPeriodFinder host rainfallValue rainData with
  | None =>
      Number.isNaN rainfallValue = true \/ (rainfallValue <=? 0) = true \/ rainData = []
  | Some rpResults =>
      Number.isNaN rainfallValue = false /\ (rainfallValue <=? 0) = false
      /\ rainData <> []
      /\ length rpResults = 5%nat
      /\ Forall (fun text => exists k s, nth_error RpStr k = Some s
                                         /\ text = (s ++ "年")%string) rpResults
      /\ forall distType, (1 <= distType <= 5)%nat ->
           exists results,
             Forall2
               (fun period result =>
                  FrequencyAnalysis.freq host (Z.of_nat distType) rainData period
                  = Returned result)
               UIManager.DEFAULT_RETURN_PERIODS results
             /\ nth (distType - 1) rpResults ""%string
                = findReturnPeriod rainfallValue (map FrequencyAnalysis.Qest results)
  end.
Proof.
  unfold UIManager.setupReturnPeriodFinder.
  destruct (Number.isNaN rainfallValue); cbn [orb]; [ left; reflexivity | ].
  destruct (rainfallValue <=? 0); [ right; left; reflexivity | ].
  destruct rainData as [ | x rainData]; cbn [length Nat.eqb]; [ right; right; reflexivity | ].
  split; [ reflexivity | ]. split; [ reflexivity | ]. split; [ discriminate | ].
  unfold findRP. rewrite !length_map, length_seq. split; [ reflexivity | ].
  split.
  - apply Forall_forall. intros text Hin.
    apply in_map_iff in Hin as (dist & <- & Hin).
    apply in_map_iff in Hin as (distType & <- & _).
    cbn [estmateResults].
    destruct (findReturnPeriod_index rainfallValue
                (UIManager.estmateResults host (Z.of_nat distType) (x :: rainData)))
      as (k & Hk & ->).
    unfold UIManager.estmateResults in Hk. rewrite length_map in Hk.
    cbn [UIManager.DEFAULT_RETURN_PERIODS length] in Hk.
    destruct (label_defined k) as (s & Hs & ->); [ lia | ].
    exists k, s. auto.
  - intros distType Hd.
    destruct (estimates_returned (Z.of_nat distType) (x :: rainData)
                UIManager.DEFAULT_RETURN_PERIODS) as (results & Hall & Hmap).
    { unfold supported. lia. }
    exists results. split; [ exact Hall | ].
    rewrite <- Hmap. fold (UIManager.estmateResults host (Z.of_nat distType) (x :: rainData)).
    assert (Hcases : distType = 1%nat \/ distType = 2%nat \/ distType = 3%nat
                     \/ distType = 4%nat \/ distType = 5%nat) by lia.
    destruct Hcases as [-> | [-> | [-> | [-> | ->]]]]; reflexivity.
Qed.

End WithHost.

Lemma findReturnPeriod_bracket_witness :
  exists k,
    (1 <= k <= 9)%nat
    /\ findReturnPeriod 35 [10; 20; 30; 40; 50; 60; 70; 80; 90; 100] = label k
    /\ label k = "5~10年"%string.
Proof.
  assert (Hq : numbers [10; 20; 30; 40; 50; 60; 70; 80; 90; 100]) by (repeat constructor).
  destruct (findReturnPeriod_bracket 35 [10; 20; 30; 40; 50; 60; 70; 80; 90; 100]
              Hq eq_refl) as (k & Hk & Hf & _); [ cbn; lia | reflexivity | reflexivity | ].
  exists k. split; [ exact Hk | ]. split; [ exact Hf | ].
  rewrite <- Hf. reflexivity.
Defined.

Lemma findReturnPeriod_label_witness :
  (length [10; 20; 30] <= 10)%nat
  /\ exists k s, nth_error RpStr k = Some s
                 /\ findReturnPeriod 1000 [10; 20; 30] = (s ++ "年")%string.
Proof.
  assert (H : (length [10; 20; 30] <= 10)%nat) by (cbn; lia).
  split; [ exact H | ].
  exact (proj1 (findReturnPeriod_label 1000 [10; 20; 30] H)).
Defined.

End ReturnPeriodFacts.

(** ** Chi-Square: the bins, the statistic and the outcome *)

Module Chi2Shape.
Import ChiSquareTest.

Section WithHost.
Variable host : Host.

(** The edges after [_divideIntoBins]. *)
Lemma fillBins_edges values stats k d r :
  fillBins host values stats k d = Returned r -> (1 <= k)%Z ->
  length (lo r) = Z.to_nat (k + 1) /\ length (hi r) = Z.to_nat (k + 1)
  /\ Array.get (lo r) 1 = RainUtils.Xmin stats - 2.0
  /\ Array.get (hi r) (Z.to_nat k) = RainUtils.Xmax stats + 2.0
  /\ forall i, (2 <= i <= Z.to_nat k)%nat -> Array.get (lo r) i = Array.get (hi r) (i - 1).
Proof.
  unfold fillBins. intros H Hk1.
  destruct (_createChi2Results k) as [r0 | ] eqn:Hcreate; cbn [bind] in H; [ | discriminate ].
  unfold _createChi2Results in Hcreate.
  destruct (Z.ltb_spec (k + 1) 0) as [ | Hk]; cbn [orb] in Hcreate; [ discriminate | ].
  destruct (2 ^ 32 <=? k + 1)%Z; [ discriminate | ].
  injection Hcreate as <-. cbn [lo hi o e with_lo] in H.
  set (cells := Z.to_nat (k + 1)) in *.
  set (r1 := with_lo _ _) in H.
  set (r2 := fold_left _ _ r1) in H.
  set (r3 := with_hi r2 _) in H.
  injection H as <-.
  rewrite Chi2Facts.countFrequencies_lo, Chi2Facts.countFrequencies_hi.
  assert (Hcells : cells = S (Z.to_nat k)) by (unfold cells; lia).
  assert (Hlo1 : length (lo r1) = cells).
  { unfold r1. cbn [lo with_lo]. rewrite set_length; rewrite repeat_length; lia. }
  assert (Hhi1 : length (hi r1) = cells).
  { unfold r1. cbn [hi with_lo]. apply repeat_length. }
  destruct (Chi2Facts.edges_contiguous host d k (RainUtils.M stats) (RainUtils.SD stats)
              (RainUtils.Cs stats) r1 (Z.to_nat k)) as (L1 & L2 & B & C);
    [ lia | lia | ].
  fold r2 in L1, L2, B, C.
  assert (Hset : set_at (hi r2) k (RainUtils.Xmax stats + 2.0)
                 = Array.set nan (hi r2) (Z.to_nat k) (RainUtils.Xmax stats + 2.0)).
  { unfold set_at. destruct (Z.ltb_spec k 0); [ lia | reflexivity ]. }
  unfold r3. cbn [with_hi lo hi]. rewrite Hset. unfold Array.get in *.
  split; [ lia | ]. split; [ rewrite set_length; lia | ].
  split.
  { rewrite B. unfold r1. cbn [with_lo lo]. apply nth_set_same. rewrite repeat_length. lia. }
  split; [ apply nth_set_same; lia | ].
  intros i Hi. rewrite nth_set_other by lia. apply C. lia.
Qed.

(** The four arrays of a result have [intervalCount + 1] cells. *)
Lemma chi2_bins_lengths data k ci d r :
  _calculateChiSquare host data k ci d = Returned r -> (1 <= k)%Z ->
  (length (lo r) = Z.to_nat k + 1 /\ length (hi r) = Z.to_nat k + 1
   /\ length (o r) = Z.to_nat k + 1 /\ length (e r) = Z.to_nat k + 1)%nat.
Proof.
  intros H Hk.
  apply Chi2Facts.calculateChiSquare_returned in H as (r0 & Hfill & Heval).
  pose proof (fillBins_edges _ _ _ _ _ Hfill Hk) as (L1 & L2 & _).
  apply Chi2Facts.fillBins_counts in Hfill as (L3 & He0 & _).
  apply Chi2Facts.evaluate_returned in Heval as (-> & -> & -> & -> & _).
  destruct (Chi2Facts.expected_cells host (length data) k (seq 1 (Z.to_nat k)) (r0, 0))
    as (L4 & _).
  { intros j Hj. apply in_seq in Hj. cbn [fst]. rewrite He0, repeat_length. lia. }
  cbn zeta in L4. cbn [fst] in L4. rewrite He0, repeat_length in L4.
  repeat split; lia.
Qed.

(** X13: the bins of a result computed with [intervalCount = k >= 1]:
    the four arrays have k + 1 cells, the first bin starts 2 below the
    smallest (transformed) observation, the last one ends 2 above the
    largest, and every other bin starts where the one before it ends. *)
Theorem chi2_bins data k ci d r :
  _calculateChiSquare host data k ci d = Returned r -> (1 <= k)%Z ->
  let values := if requiresLog d then map (logOrZero host) data else data in
  let stats := RainUtils.statistics host values in
  (length (lo r) = Z.to_nat k + 1 /\ length (hi r) = Z.to_nat k + 1
   /\ length (o r) = Z.to_nat k + 1 /\ length (e r) = Z.to_nat k + 1)%nat
  /\ Array.get (lo r) 1 = RainUtils.Xmin stats - 2.0
  /\ Array.get (hi r) (Z.to_nat k) = RainUtils.Xmax stats + 2.0
  /\ forall i, (2 <= i <= Z.to_nat k)%nat -> Array.get (lo r) i = Array.get (hi r) (i - 1).
Proof.
  intros H Hk values stats.
  split; [ exact (chi2_bins_lengths data k ci d r H Hk) | ].
  apply Chi2Facts.calculateChiSquare_returned in H as (r0 & Hfill & Heval).
  fold values in Hfill. fold stats in Hfill.
  pose proof (fillBins_edges _ _ _ _ _ Hfill Hk) as (_ & _ & B1 & B2 & C).
  apply Chi2Facts.evaluate_returned in Heval as (-> & -> & _).
  repeat split; assumption.
Qed.

(** X14: [ObsChi2Value] is the sum over the bins 1..k, in this order and
    from 0, of [(o[i] - e[i])^2 / e[i]] over the arrays of the result
    itself: the last column of the report of [getResultsAsString] adds up
    to it. *)
Theorem chi2_statistic data k ci d r :
  _calculateChiSquare host data k ci d = Returned r ->
  ObsChi2Value r
  = fold_left
      (fun chi2Stat i =>
         chi2Stat
         + Math.pow host (Number.of_nat (nth i (o r) 0%nat) - Array.get (e r) i) 2
           / Array.get (e r) i)
      (seq 1 (Z.to_nat k)) 0.
Proof.
  intros H.
  apply Chi2Facts.calculateChiSquare_returned in H as (r0 & Hfill & Heval).
  apply Chi2Facts.fillBins_counts in Hfill as (_ & He0 & _).
  apply Chi2Facts.evaluate_returned in Heval as (_ & _ & Ho & He & -> & _).
  assert (Hin : forall i, In i (seq 1 (Z.to_nat k)) -> (i < length (e (fst (r0, 0))))%nat).
  { intros j Hj. apply in_seq in Hj. cbn [fst]. rewrite He0, repeat_length. lia. }
  rewrite Chi2Facts.expected_sum by exact Hin. cbn [fst snd].
  destruct (Chi2Facts.expected_cells host (length data) k (seq 1 (Z.to_nat k)) (r0, 0) Hin)
    as (_ & Hcells).
  cbn zeta in Hcells. rewrite <- He in Hcells.
  apply Chi2Facts.fold_left_agree. intros acc i Hi.
  rewrite Ho, Hcells by (left; exact Hi). reflexivity.
Qed.

(** Along non-decreasing edges a value is in one bin at most. *)
Lemma in_at_most_one_bin (E : nat -> float) (v : float) (n : nat) : forall a,
  (forall i, (a <= i < a + n)%nat -> (E i <=? E (S i)) = true) ->
  (list_sum (map (fun i => indicator (inBin (E (i - 1)%nat) (E i) v)) (seq (S a) n))
   <= 1)%nat.
Proof.
  induction n as [ | n IH]; intros a Hsorted; [ cbn; lia | ].
  cbn [seq map]. change (list_sum (?x :: ?l)) with (x + list_sum l)%nat.
  replace (S a - 1)%nat with a by lia.
  destruct (inBin (E a) (E (S a)) v) eqn:Hin; cbn [indicator].
  - rewrite Chi2Facts.list_sum_map_zero; [ lia | ].
    intros i Hi. apply in_seq in Hi. unfold inBin in *.
    apply andb_true_iff in Hin as (_ & Hnext).
    assert (Hv : (v <? E (i - 1)%nat) = true).
    { apply (Chi2Facts.below_later_edges E v (S a) n); [ | exact Hnext | lia ].
      intros j Hj. apply Hsorted. lia. }
    apply ltb_asym in Hv. rewrite Hv. reflexivity.
  - cbn [Nat.add]. apply IH. intros i Hi. apply Hsorted. lia.
Qed.

(** X15: no bin counts more observations than the sample holds, and when
    the edges of the bins are non-decreasing no observation is counted
    twice: the observed counts add up to the sample size at most. *)
Theorem observed_counts_bounded data k ci d r :
  _calculateChiSquare host data k ci d = Returned r ->
  (forall i, (i < Z.to_nat k)%nat -> (edge r i <=? edge r (S i)) = true) ->
  (forall i, (1 <= i <= Z.to_nat k)%nat -> (nth i (o r) 0 <= length data)%nat)
  /\ (observedTotal r (Z.to_nat k) <= length data)%nat.
Proof.
  intros H Hsorted.
  set (values := if requiresLog d then map (logOrZero host) data else data).
  assert (Hlen : length data = length values).
  { unfold values. destruct (requiresLog d); [ rewrite length_map | ]; reflexivity. }
  split.
  - intros i Hi.
    pose proof H as H'.
    apply Chi2Facts.calculateChiSquare_returned in H' as (r0 & Hfill & Heval).
    fold values in Hfill.
    apply Chi2Facts.fillBins_counts in Hfill as (_ & _ & Hcount).
    apply Chi2Facts.evaluate_returned in Heval as (_ & _ & -> & _).
    rewrite Hcount by exact Hi. rewrite Hlen. unfold countIn. apply filter_length_le.
  - rewrite (Chi2Facts.observedTotal_pairs host data k ci d r H). fold values.
    rewrite Hlen. generalize values as vs.
    induction vs as [ | v vs IH]; simpl; [ lia | ].
    pose proof (in_at_most_one_bin (edge r) v (Z.to_nat k) 0) as Hone.
    cbn [Nat.add] in Hone. specialize (Hone ltac:(intros i Hi; apply Hsorted; lia)).
    lia.
Qed.

End WithHost.

(** *** When the test returns *)

Lemma table_rows : Forall (fun row => length row = 5%nat) Chi2Table.
Proof. repeat constructor. Qed.

Lemma table_cell (row column : Z) :
  (0 <= row < 20)%Z -> (0 <= column <= 4)%Z -> exists v, Chi2Table_at row column = Some v.
Proof.
  intros Hrow Hcolumn. unfold Chi2Table_at, lookup.
  destruct (Z.ltb_spec row 0); [ lia | ].
  destruct (nth_error Chi2Table (Z.to_nat row)) as [cells | ] eqn:E.
  - assert (Hlen : length cells = 5%nat).
    { pose proof table_rows as H5. rewrite Forall_forall in H5. apply H5.
      eapply nth_error_In. exact E. }
    destruct (Z.ltb_spec column 0); [ lia | ].
    destruct (nth_error cells (Z.to_nat column)) as [v | ] eqn:Ev; [ eauto | ].
    apply nth_error_None in Ev. lia.
  - apply nth_error_None in E. cbn [Chi2Table length] in E. lia.
Qed.

Lemma criticalValue_defined (d k ci : Z) :
  (0 <= ci <= 4)%Z -> exists v, criticalValueOf (degreesOfFreedom d k) ci = Some v.
Proof.
  intros Hci. unfold criticalValueOf.
  assert (Hdf : (1 <= degreesOfFreedom d k)%Z) by (unfold degreesOfFreedom; lia).
  destruct (Z.ltb_spec 0 (degreesOfFreedom d k)); [ | lia ]. cbn [andb].
  change (Z.of_nat (length Chi2Table)) with 20%Z.
  destruct (Z.leb_spec (degreesOfFreedom d k) 20); [ | eauto ].
  apply table_cell; lia.
Qed.

Section WithHost.
Variable host : Host.

Lemma evaluate_returns n k ci d r0 :
  (0 <= ci <= 4)%Z -> exists r, evaluate host n k ci d r0 = Returned r.
Proof.
  intros Hci. unfold evaluate.
  destruct (fold_left _ _ _) as [r1 chi2Stat].
  destruct (criticalValue_defined d k ci Hci) as (v & ->). eauto.
Qed.

Lemma createChi2Results_outcome (k : Z) :
  if ((-1 <=? k) && (k <? 2 ^ 32 - 1))%Z
  then exists r, _createChi2Results k = Returned r
  else _createChi2Results k = Thrown "Invalid array length".
Proof.
  unfold _createChi2Results.
  destruct (Z.leb_spec (-1) k), (Z.ltb_spec k (2 ^ 32 - 1)); cbn [andb];
    destruct (Z.ltb_spec (k + 1) 0), (Z.leb_spec (2 ^ 32) (k + 1)); cbn [orb];
    try lia; eauto.
Qed.

Lemma calculateChiSquare_outcome data k ci d :
  (0 <= ci <= 4)%Z ->
  if ((-1 <=? k) && (k <? 2 ^ 32 - 1))%Z
  then exists r, _calculateChiSquare host data k ci d = Returned r
  else _calculateChiSquare host data k ci d = Thrown "Invalid array length".
Proof.
  intros Hci. unfold _calculateChiSquare, _divideIntoBins, fillBins.
  pose proof (createChi2Results_outcome k) as Hcreate.
  destruct ((-1 <=? k) && (k <? 2 ^ 32 - 1))%Z.
  - destruct Hcreate as (r0 & ->). cbn [bind]. apply evaluate_returns. exact Hci.
  - cbn zeta. rewrite Hcreate. reflexivity.
Qed.

(** X16: with a valid confidence index [chi2Test] checks nothing else:
    it throws the RangeError of [new Array] on an empty sample, and on any
    other sample for which Sturges' formula does not give an array size;
    otherwise it returns a result object, for every distribution code,
    supported or not. *)
Theorem chi2Test_outcome (d : Z) (data : list float) (ci : Z) :
  (0 <= ci <= 4)%Z ->
  chi2Test host d [] ci = Thrown "Invalid array length"
  /\ match Number.to_Z (sturges host (length data)) with
     | Some k =>
         if ((-1 <=? k) && (k <? 2 ^ 32 - 1))%Z
         then exists r,
                chi2Test host d data ci = Returned (Tested r)
                /\ _calculateChiSquare host (RainUtils.sort data) k ci d = Returned r
         else chi2Test host d data ci = Thrown "Invalid array length"
     | None => chi2Test host d data ci = Thrown "Invalid array length"
     end.
Proof.
  intros Hci.
  assert (Hguard : ((ci <? 0) || (Z.of_nat (length ConfidenceLevelString) <=? ci))%Z = false).
  { change (Z.of_nat (length ConfidenceLevelString)) with 5%Z.
    destruct (Z.ltb_spec ci 0), (Z.leb_spec 5 ci); cbn [orb]; try lia; reflexivity. }
  unfold chi2Test. rewrite Hguard. split; [ reflexivity | ].
  destruct (Number.to_Z (sturges host (length data))) as [k | ]; [ | reflexivity ].
  pose proof (calculateChiSquare_outcome (RainUtils.sort data) k ci d Hci) as H.
  destruct ((-1 <=? k) && (k <? 2 ^ 32 - 1))%Z.
  - destruct H as (r & ->). cbn [bind]. eauto.
  - rewrite H. reflexivity.
Qed.

(** *** The report *)

Lemma for_each_returns {S : Type} (body : nat -> S -> outcome S) (indices : list nat) :
  (forall i s, In i indices -> exists s', body i s = Returned s') ->
  forall s, exists s', for_each body indices s = Returned s'.
Proof.
  induction indices as [ | i indices IH]; intros H s; cbn [for_each]; [ eauto | ].
  destruct (H i s) as (s1 & ->); [ left; reflexivity | ]. cbn [bind].
  apply IH. intros j s' Hj. apply H. right. exact Hj.
Qed.

(** A row whose four cells exist is printed. *)
Lemma reportRow_returns r k' i s :
  (i < length (lo r))%nat -> (i < length (hi r))%nat ->
  (i < length (o r))%nat -> (i < length (e r))%nat ->
  exists s', reportRow host (Tested r) k' i s = Returned s'.
Proof.
  intros Hlo Hhi Ho He. unfold reportRow. cbn [array_of cell].
  destruct (nth_error (lo r) i) as [l | ] eqn:El; [ | apply nth_error_None in El; lia ].
  destruct (nth_error (hi r) i) as [h | ] eqn:Eh; [ | apply nth_error_None in Eh; lia ].
  destruct (nth_error (o r) i) as [c | ] eqn:Eo; [ | apply nth_error_None in Eo; lia ].
  destruct (nth_error (e r) i) as [x | ] eqn:Ee; [ | apply nth_error_None in Ee; lia ].
  destruct (i =? 1)%nat; [ | destruct (Z.of_nat i =? k')%Z ]; cbn; eauto.
Qed.

(** A row whose [lo] and [hi] cells are missing throws. *)
Lemma reportRow_throws r k' i s :
  (length (lo r) <= i)%nat -> (length (hi r) <= i)%nat ->
  exists m, reportRow host (Tested r) k' i s = Thrown m.
Proof.
  intros Hlo Hhi. unfold reportRow. cbn [array_of cell].
  destruct (nth_error (lo r) i) as [l | ] eqn:El;
    [ assert (i < length (lo r))%nat by (apply nth_error_Some; congruence); lia | ].
  destruct (nth_error (hi r) i) as [h | ] eqn:Eh;
    [ assert (i < length (hi r))%nat by (apply nth_error_Some; congruence); lia | ].
  destruct (i =? 1)%nat; [ | destruct (Z.of_nat i =? k')%Z ]; cbn; eauto.
Qed.

(** X17: [getResultsAsString] on the result of a test run with
    [intervalCount = k] prints the report when it is called with this k,
    for every distribution code; called with a larger count it returns the
    failure message of its [catch] clause, as it does on the three-field
    object of the invalid-index path. *)
Theorem getResultsAsString_outcome data k ci d r :
  _calculateChiSquare host data k ci d = Returned r -> (1 <= k)%Z ->
  (forall d', exists s,
     report host (Tested r) d' k = Returned s
     /\ getResultsAsString host (Tested r) d' k = s)
  /\ (forall d' k', (k < k')%Z -> getResultsAsString host (Tested r) d' k' = reportFailure)
  /\ (forall level conclusion isFitted d' k',
        getResultsAsString host (InvalidIndex level conclusion isFitted) d' k'
        = reportFailure).
Proof.
  intros H Hk.
  destruct (chi2_bins_lengths host data k ci d r H Hk) as (L1 & L2 & L3 & L4).
  split; [ | split ].
  - intros d'. unfold getResultsAsString, report. cbn zeta.
    match goal with
    | |- context [for_each ?body ?l ?s0] =>
        destruct (for_each_returns body l) with (s := s0) as (s1 & ->)
    end.
    { intros i s Hi. apply in_seq in Hi. apply reportRow_returns; lia. }
    cbn [bind array_of fixed]. eexists. split; reflexivity.
  - intros d' k' Hk'. unfold getResultsAsString, report. cbn zeta.
    replace (Z.to_nat k') with (Z.to_nat k + S (Z.to_nat k' - Z.to_nat k - 1))%nat by lia.
    rewrite seq_app, KSFacts.for_each_app.
    match goal with
    | |- context [for_each ?body (seq 1 (Z.to_nat k)) ?s0] =>
        destruct (for_each_returns body (seq 1 (Z.to_nat k))) with (s := s0) as (s1 & ->)
    end.
    { intros i s Hi. apply in_seq in Hi. apply reportRow_returns; lia. }
    cbn [bind seq for_each].
    destruct (reportRow_throws r k' (1 + Z.to_nat k) s1) as (m & ->); [ lia | lia | ].
    reflexivity.
  - intros level conclusion isFitted d' k'. unfold getResultsAsString, report. cbn zeta.
    destruct (Z.to_nat k') as [ | n]; cbn [seq for_each]; [ reflexivity | ].
    unfold reportRow at 1. cbn. reflexivity.
Qed.

End WithHost.
Lemma chi2_bins_witness :
  exists r,
    _calculateChiSquare SampleHost.host tenYears 4 2 DistributionType.Normal = Returned r
    /\ (1 <= 4)%Z
    /\ length (lo r) = 5%nat
    /\ Array.get (lo r) 1 = -1 /\ Array.get (hi r) 4 = 12
    /\ forall i, (2 <= i <= 4)%nat -> Array.get (lo r) i = Array.get (hi r) (i - 1).
Proof.
  eexists. split; [ vm_compute; reflexivity | ]. split; [ lia | ].
  split; [ reflexivity | ]. split; [ reflexivity | ]. split; [ reflexivity | ].
  refine (proj2 (proj2 (proj2 (chi2_bins SampleHost.host tenYears 4 2
                                 DistributionType.Normal _ _ _)))).
  - vm_compute. reflexivity.
  - lia.
Defined.

Lemma chi2_statistic_witness :
  exists r,
    _calculateChiSquare SampleHost.host tenYears 4 2 DistributionType.Normal = Returned r
    /\ ObsChi2Value r
       = fold_left
           (fun chi2Stat i =>
              chi2Stat
              + Math.pow SampleHost.host
                  (Number.of_nat (nth i (o r) 0%nat) - Array.get (e r) i) 2
                / Array.get (e r) i)
           (seq 1 4) 0.
Proof.
  eexists. split; [ vm_compute; reflexivity | ].
  refine (chi2_statistic SampleHost.host tenYears 4 2 DistributionType.Normal _ _).
  vm_compute. reflexivity.
Defined.

Lemma observed_counts_bounded_witness :
  exists r,
    _calculateChiSquare SampleHost.host tenYears 4 2 DistributionType.Normal = Returned r
    /\ (forall i, (i < 4)%nat -> (edge r i <=? edge r (S i)) = true)
    /\ (observedTotal r 4 <= 10)%nat.
Proof.
  eexists. split; [ vm_compute; reflexivity | ].
  match goal with |- ?A /\ _ => assert (Hsorted : A) end.
  { intros i Hi. do 4 (destruct i as [ | i]; [ vm_compute; reflexivity | ]).
    vm_compute in Hi. lia. }
  split; [ exact Hsorted | ].
  refine (proj2 (observed_counts_bounded SampleHost.host tenYears 4 2
                   DistributionType.Normal _ _ Hsorted)).
  vm_compute. reflexivity.
Defined.

Lemma chi2Test_outcome_witness :
  (0 <= 2 <= 4)%Z
  /\ chi2Test SampleHost.host DistributionType.Normal [] 2 = Thrown "Invalid array length"
  /\ exists r, chi2Test SampleHost.host 9 tenYears 2 = Returned (Tested r).
Proof.
  assert (Hci : (0 <= 2 <= 4)%Z) by lia.
  split; [ exact Hci | ].
  split; [ exact (proj1 (chi2Test_outcome SampleHost.host DistributionType.Normal [] 2 Hci)) | ].
  pose proof (proj2 (chi2Test_outcome SampleHost.host 9 tenYears 2 Hci)) as H.
  vm_compute in H. destruct H as (r & H & _). exists r. exact H.
Defined.

Lemma getResultsAsString_outcome_witness :
  exists r,
    _calculateChiSquare SampleHost.host tenYears 4 2 DistributionType.Normal = Returned r
    /\ (1 <= 4)%Z
    /\ (exists s, report SampleHost.host (Tested r) DistributionType.Normal 4 = Returned s)
    /\ getResultsAsString SampleHost.host (Tested r) DistributionType.Normal 5
       = reportFailure.
Proof.
  eexists. split; [ vm_compute; reflexivity | ]. split; [ lia | ].
  match goal with
  | |- (exists s, report _ (Tested ?r) _ _ = _) /\ _ =>
      destruct (getResultsAsString_outcome SampleHost.host tenYears 4 2
                  DistributionType.Normal r) as (Hprint & Hfail & _);
        [ vm_compute; reflexivity | lia | ]
  end.
  split.
  - destruct (Hprint DistributionType.Normal) as (s & Hs & _). exists s. exact Hs.
  - apply Hfail. lia.
Defined.

End Chi2Shape.

(** ** Frequency analysis: the return periods 0, Infinity and NaN *)

Module FreqPeriods.
Import FrequencyAnalysis.

Section WithHost.
Variable host : Host.

(** A NaN variate makes the four distributions of the normal family
    return NaN twice. *)
Lemma estimate_nan_variate (d : Z) (stats : RainUtils.Stats) (T : float) :
  RainUtils.Look host (1 - 1.0 / T) = nan ->
  (1 <= d <= 4)%Z ->
  estimate host d stats T = Returned {| Kt := nan; Qest := nan |}.
Proof.
  intros Hz Hd. unfold estimate. cbn zeta. rewrite Hz.
  assert (Hcases : d = 1%Z \/ d = 2%Z \/ d = 3%Z \/ d = 4%Z) by lia.
  destruct Hcases as [-> | [-> | [-> | ->]]]; cbn [Z.eqb Pos.eqb DistributionType.Normal
    DistributionType.LogNormal DistributionType.PearsonType3
    DistributionType.LogPearsonType3].
  - unfold _calculateNormal. rewrite mul_nan_l, add_nan_r. reflexivity.
  - unfold _calculateLogNormal, _calculateNormal. cbn [Kt Qest].
    rewrite mul_nan_l, add_nan_r. reflexivity.
  - rewrite FreqFacts.calculatePearsonType3_nan. reflexivity.
  - unfold _calculateLogPearsonType3. rewrite FreqFacts.calculatePearsonType3_nan.
    reflexivity.
Qed.

(** X18: the return periods 0, +Infinity and NaN: [freq] returns, for
    every sample, with [Kt] and [Qest] NaN under the four distributions of
    the normal family; under ExtremeValueI they are NaN at 0 and at NaN,
    and [Kt] is +Infinity at +Infinity. *)
Theorem freq_degenerate_periods (d : Z) (y : list float) :
  (1 <= d <= 4)%Z ->
  (freq host d y 0 = Returned {| Kt := nan; Qest := nan |}
   /\ freq host d y infinity = Returned {| Kt := nan; Qest := nan |}
   /\ freq host d y nan = Returned {| Kt := nan; Qest := nan |})
  /\ freq host DistributionType.ExtremeValueType1 y 0
     = Returned {| Kt := nan; Qest := nan |}
  /\ freq host DistributionType.ExtremeValueType1 y nan
     = Returned {| Kt := nan; Qest := nan |}
  /\ exists q, freq host DistributionType.ExtremeValueType1 y infinity
               = Returned {| Kt := infinity; Qest := q |}.
Proof.
  intros Hd. unfold freq. split; [ | split; [ | split ] ].
  - repeat split; apply estimate_nan_variate; try exact Hd; reflexivity.
  - unfold estimate. cbn -[RainUtils.Extreme]. unfold _calculateExtremeValueType1.
    change (RainUtils.Extreme host (1.0 / 0)) with nan.
    rewrite mul_nan_r, add_nan_r. reflexivity.
  - unfold estimate. cbn -[RainUtils.Extreme]. unfold _calculateExtremeValueType1.
    change (RainUtils.Extreme host (1.0 / nan)) with nan.
    rewrite mul_nan_r, add_nan_r. reflexivity.
  - unfold estimate. cbn -[RainUtils.Extreme]. unfold _calculateExtremeValueType1.
    change (RainUtils.Extreme host (1.0 / infinity)) with infinity.
    eexists. reflexivity.
Qed.

End WithHost.

Lemma freq_degenerate_periods_witness :
  (1 <= 3 <= 4)%Z
  /\ freq SampleHost.host 3 twelveYears 0 = Returned {| Kt := nan; Qest := nan |}.
Proof.
  assert (Hd : (1 <= 3 <= 4)%Z) by lia.
  split; [ exact Hd | ].
  exact (proj1 (proj1 (freq_degenerate_periods SampleHost.host 3 twelveYears Hd))).
Defined.

End FreqPeriods.

(** ** Further runs on the sample host *)

Module MoreRuns.

Definition fifteenYears : list float :=
  [120; 150; 135; 160; 180; 145; 170; 190; 130; 210; 175; 165; 195; 220; 140].

(** The report of the usage notes of [ChiSquareTest.js]: fifteen
    observations, Log-Pearson III, 95%. *)
Example report_fifteen_years :
  match ChiSquareTest.chi2Test SampleHost.host DistributionType.LogPearsonType3
          fifteenYears 2 with
  | Returned results =>
      ChiSquareTest.getResultsAsString SampleHost.host results
        DistributionType.LogPearsonType3 5
  | Thrown message => message
  end
  = (String.concat ChiSquareTest.newline
       ["CHI-SQUARE TEST";
        "Ho: The series is Log-Pearson Type III Distribution.";
        "H1: The series is not Log-Pearson Type III Distribution.";
        "              Class             O.     E.   (O-E)^2/E";
        "--------------------------------------------------------";
        "              <      2.15     4.0     3.0      0.333";
        "          2.15 -     2.19     2.0     3.0      0.333";
        "          2.19 -     2.23     3.0     3.0      0.000";
        "          2.23 -     2.28     2.0     3.0      0.333";
        "       2.28    <              4.0     3.0      0.333";
        "--------------------------------------------------------";
        "Observed Chi2 value = 1.333";
        "Critical Chi2 value (95%) = 3.841";
        "* Goodness of fit: true"] ++ ChiSquareTest.newline)%string.
Proof. vm_compute. reflexivity. Qed.

(** The two summaries of the twelve-year sample agree on all but the
    skewness, which the two files compute by different formulas. *)
Example two_summaries :
  match Statistics.calculateStatistics SampleHost.host twelveYears with
  | Some s =>
      let stats := RainUtils.statistics SampleHost.host twelveYears in
      (Statistics.max s, Statistics.min s,
       Statistics.mean s =? RainUtils.M stats, Statistics.stdDev s =? RainUtils.SD stats,
       Statistics.skewness s, RainUtils.Cs stats)
  | None => (0, 0, false, false, 0, 0)
  end = (210, 120, true, true, 0.20766618703253398, 0.20766618703253423).
Proof. vm_compute. reflexivity. Qed.

(** The return periods of a rainfall of 200 under the five
    distributions fitted to the twelve-year sample. *)
Example return_periods_of_200 :
  UIManager.setupReturnPeriodFinder SampleHost.host 200 twelveYears
  = Some ["10~20年"; "10~20年"; "10~20年"; "10~20年"; "10~20年"]%string.
Proof. vm_compute. reflexivity. Qed.

(** [Number.toString] below and from 1e21, where JavaScript switches to
    the exponent form, and beyond 2^53, where not every integer is a
    number. *)
Example toString_forms :
  map Number.toString
    [0; 7; -12; 2 ^ 63; 10 ^ 20; 123456789012345678901; 10 ^ 21; - 10 ^ 21; 2 ^ 70]%Z
  = ["0"; "7"; "-12"; "9223372036854776000"; "100000000000000000000";
     "123456789012345680000"; "1e+21"; "-1e+21"; "1.1805916207174113e+21"]%string.
Proof. vm_compute. reflexivity. Qed.

End MoreRuns.

